(** * etcd-backup-restore: snapshotter and initializer

    A shallow embedding of [pkg/snapshot/snapshotter/snapshotter.go] and
    [pkg/initializer/initializer.go], with the properties the design
    document states about them.

    Conventions.
    - A Go [int64] is a [Z] kept in range by [Go.wrap64]; a [time.Duration]
      is an [int64] count of nanoseconds; a [float64] is a primitive
      IEEE 754 binary64 float.
    - A [[]byte] is a [list byte]; a Go [string] is a [string] (a sequence
      of bytes).
    - A method with a pointer receiver [*Snapshotter] is a computation in
      the state-and-error monad [M] over the record [Snapshotter].
    - Collaborators that live outside these two files (etcd clients, the
      snap store, the compressor, the clock, the file system) answer
      through a record of responses, [World], one per handled message. *)

From Stdlib Require Import ZArith List String Ascii Bool Lia.
From Stdlib Require Import Init.Byte.
From Stdlib Require Import Floats.PrimFloat Numbers.Cyclic.Int63.Uint63.
From stdpp Require Import gmap strings list.

Open Scope Z_scope.

(** ** Go base types *)

Module Go.

(** Two's complement wrap-around of a 64 bit signed integer. *)
Definition wrap64 (z : Z) : Z := (z + 2 ^ 63) mod 2 ^ 64 - 2 ^ 63.

Definition MaxInt64 : Z := 2 ^ 63 - 1.
Definition MinInt64 : Z := - 2 ^ 63.

Definition int64_range (z : Z) : Prop := MinInt64 <= z <= MaxInt64.

(** [a + b] on [int64]. *)
Definition add64 (a b : Z) : Z := wrap64 (a + b).

(** The instant of a [time.Time], counted in nanoseconds from the zero
    [Time].  The methods [Sub], [After] and [IsZero] read nothing else of
    a [time.Time]. *)
Definition Time : Type := Z.

Definition IsZero (t : Time) : bool := t =? 0.

(** [time.Duration], nanoseconds in an [int64]. *)
Definition Duration : Type := Z.

Definition Nanosecond : Duration := 1.
Definition Second : Duration := 1000000000.
Definition Hour : Duration := 3600000000000.

(** [t.Sub(u)]: the difference, saturated to the range of [Duration]. *)
Definition Sub (t u : Time) : Duration :=
  Z.max MinInt64 (Z.min MaxInt64 (t - u)).

(** [t.After(u)]. *)
Definition After (t u : Time) : bool := u <? t.

(** Conversion [float64(z)] of an integer. *)
Definition float64_of_Z (z : Z) : float :=
  if z <? 0 then PrimFloat.opp (PrimFloat.of_uint63 (Uint63.of_Z (- z)))
  else PrimFloat.of_uint63 (Uint63.of_Z z).

(** [d.Hours()]:
    [hour := d / Hour; nsec := d % Hour;
     return float64(hour) + float64(nsec)/(60*60*1e9)]. *)
Definition Hours (d : Duration) : float :=
  let hour := Z.quot d Hour in
  let nsec := Z.rem d Hour in
  PrimFloat.add (float64_of_Z hour)
                (PrimFloat.div (float64_of_Z nsec) 3600000000000%float).

(** [a > b] on [float64]. *)
Definition fgt (a b : float) : bool := PrimFloat.ltb b a.

(** The clock: [time.Now()] returns the next reading. *)
Record Clock := { readings : nat -> Time; ticks : nat }.

Definition Now (c : Clock) : Time * Clock :=
  (readings c (ticks c), {| readings := readings c; ticks := S (ticks c) |}).

(** [time.Since(t)] is [time.Now().Sub(t)]. *)
Definition Since (t : Time) (c : Clock) : Duration * Clock :=
  let (n, c') := Now c in (Sub n t, c').

(** A [time.Time] as a value: the struct [{wall, ext, loc}].  [wall] and
    [ext] hold the instant and, when the value carries one, the reading of
    the monotonic clock; [loc] is the pointer to the [Location], [nil]
    for UTC. *)
Record TimeValue := {
  instant : Time;
  monotonic : option Z;
  loc : option nat
}.

(** [t == u] on two [time.Time] values compares the three fields of the
    struct: the values are equal when they are the same instant with the
    same monotonic reading, or none, and the same [Location] pointer. *)
Definition TimeValue_eqb (t u : TimeValue) : bool :=
  (instant t =? instant u)
  && match monotonic t, monotonic u with
     | Some a, Some b => a =? b
     | None, None => true
     | _, _ => false
     end
  && match loc t, loc u with
     | Some a, Some b => Nat.eqb a b
     | None, None => true
     | _, _ => false
     end.

(** [t.UTC()]: the same instant, with no monotonic reading and the
    location UTC. *)
Definition UTC (t : Time) : TimeValue :=
  {| instant := t; monotonic := None; loc := None |}.

(** Go's [error] values.  [External] is an error value a collaborator
    returned, tagged with its class in the error taxonomy of the design;
    [EtcdError] is [&errors.EtcdError{Message: fmt.Sprintf(format, args...)}];
    [Errorf] is [fmt.Errorf(format, args...)].  The format string and its
    arguments are kept as they are passed. *)
Inductive ErrorClass :=
  Transient | NotFound | RestoreIntegrity | Configuration | FatalKV.

Inductive error :=
| External (c : ErrorClass) (msg : string)
| EtcdError (format : string) (args : list arg)
| Errorf (format : string) (args : list arg)
with arg :=
| ArgErr (e : error)
| ArgNil
| ArgStr (s : string)
| ArgDuration (d : Duration).

(** The class of an error value, where its type tells: an error of a
    collaborator keeps its tag, an [EtcdError] is a fatal KV error, and an
    error built by [fmt.Errorf] carries none. *)
Definition classify (e : error) : option ErrorClass :=
  match e with
  | External c _ => Some c
  | EtcdError _ _ => Some FatalKV
  | Errorf _ _ => None
  end.

(** [os.IsNotExist(err)]. *)
Definition IsNotExist (e : error) : bool :=
  match e with
  | External NotFound _ => true
  | _ => false
  end.

(** [%v] of an [error] that may be [nil]. *)
Definition ArgErrOpt (e : option error) : arg :=
  match e with
  | Some e => ArgErr e
  | None => ArgNil
  end.

(** What a call ends in: a value, or the reason [e] it stopped for (a
    non-nil [error] for most callers). *)
Inductive Out (E A : Type) := Ok (a : A) | Err (e : E).
Arguments Ok {E A} a.
Arguments Err {E A} e.

(** A result pair [(value, error)] of a collaborator. *)
Inductive Res (A : Type) := Val (a : A) | Fail (e : error).
Arguments Val {A} a.
Arguments Fail {A} e.

(** State-passing computations that may stop early: a method of a struct
    [S].  The state is kept when the method stops. *)
Definition M (E S A : Type) : Type := S -> Out E A * S.

Definition ret {E S A} (a : A) : M E S A := fun s => (Ok a, s).
Definition fail {E S A} (e : E) : M E S A := fun s => (Err e, s).
Definition bind {E S A B} (m : M E S A) (k : A -> M E S B) : M E S B :=
  fun s =>
    match m s with
    | (Ok a, s') => k a s'
    | (Err e, s') => (Err e, s')
    end.
Definition get {E S} : M E S S := fun s => (Ok s, s).
Definition modify {E S} (f : S -> S) : M E S unit := fun s => (Ok tt, f s).

(** [defer f()] around a body: [f] runs on every way out. *)
Definition defer {E S A} (f : S -> S) (body : M E S A) : M E S A :=
  fun s => let (r, s') := body s in (r, f s').

(** [v, err := m(); if err != nil { return wrap(err) }]. *)
Definition wrapErr {E S A} (wrap : E -> E) (m : M E S A) : M E S A :=
  fun s =>
    match m s with
    | (Err e, s') => (Err (wrap e), s')
    | r => r
    end.

(** [v, err := call; if err != nil { return wrap(err) }] for a call that
    leaves the program. *)
Definition try {S A} (r : Res A) (wrap : error -> error) : M error S A :=
  match r with
  | Val a => ret a
  | Fail e => fail (wrap e)
  end.

(** [if err := call; err != nil { return wrap(err) }]. *)
Definition check {S} (r : option error) (wrap : error -> error) : M error S unit :=
  match r with
  | None => ret tt
  | Some e => fail (wrap e)
  end.

Definition byte_of_Z (z : Z) : byte :=
  match Byte.of_N (Z.to_N (z mod 256)) with
  | Some b => b
  | None => x00
  end.

Definition Z_of_byte (b : byte) : Z := Z.of_N (Byte.to_N b).

End Go.

(** ** crypto/sha256 *)

Module SHA256.

Definition w32 (x : Z) : Z := x mod 2 ^ 32.
Definition add32 (a b : Z) : Z := w32 (a + b).
Definition rotr (n x : Z) : Z :=
  Z.lor (Z.shiftr x n) (w32 (Z.shiftl x (32 - n))).
Definition not32 (x : Z) : Z := 2 ^ 32 - 1 - x.

Definition Ch (x y z : Z) : Z := Z.lxor (Z.land x y) (Z.land (not32 x) z).
Definition Maj (x y z : Z) : Z :=
  Z.lxor (Z.lxor (Z.land x y) (Z.land x z)) (Z.land y z).
Definition bsig0 (x : Z) : Z := Z.lxor (Z.lxor (rotr 2 x) (rotr 13 x)) (rotr 22 x).
Definition bsig1 (x : Z) : Z := Z.lxor (Z.lxor (rotr 6 x) (rotr 11 x)) (rotr 25 x).
Definition ssig0 (x : Z) : Z := Z.lxor (Z.lxor (rotr 7 x) (rotr 18 x)) (Z.shiftr x 3).
Definition ssig1 (x : Z) : Z := Z.lxor (Z.lxor (rotr 17 x) (rotr 19 x)) (Z.shiftr x 10).

(** The primes below [bound], in increasing order. *)
Definition is_prime (p : nat) : bool :=
  forallb (fun d => negb (Nat.eqb (Nat.modulo p d) 0)) (seq 2 (p - 2)).

Definition primes_below (bound : nat) : list Z :=
  map Z.of_nat (filter is_prime (seq 2 (bound - 2))).

(** The integer cube root: the largest [r + d] with [d < 2 ^ bits] whose
    cube is at most [n], found bit by bit. *)
Fixpoint cube_root (bits : nat) (n r : Z) : Z :=
  match bits with
  | O => r
  | S b =>
      let c := r + 2 ^ Z.of_nat b in
      if c * c * c <=? n then cube_root b n c else cube_root b n r
  end.

(** The round constants: the first 32 bits of the fractional parts of the
    cube roots of the first sixty-four primes. *)
Definition K : list Z :=
  map (fun p => w32 (cube_root 36 (p * 2 ^ 96) 0)) (primes_below 312).

(** The chaining value: eight 32 bit words. *)
Record digest := Digest { h0 : Z; h1 : Z; h2 : Z; h3 : Z; h4 : Z; h5 : Z; h6 : Z; h7 : Z }.

(** The first 32 bits of the fractional part of the square root of [p]. *)
Definition sqrt_frac (p : Z) : Z := w32 (Z.sqrt (p * 2 ^ 64)).

(** The initial value: from the square roots of the first eight primes. *)
Definition init : digest :=
  Digest (sqrt_frac 2) (sqrt_frac 3) (sqrt_frac 5) (sqrt_frac 7)
         (sqrt_frac 11) (sqrt_frac 13) (sqrt_frac 17) (sqrt_frac 19).

(** Big-endian words of a block of bytes. *)
Fixpoint words (bs : list Z) : list Z :=
  match bs with
  | a :: b :: c :: d :: rest =>
      (Z.shiftl a 24 + Z.shiftl b 16 + Z.shiftl c 8 + d) :: words rest
  | _ => []
  end.

(** The message schedule, most recent word first: [n] more words after
    the sixteen of the block. *)
Fixpoint schedule (n : nat) (rev_w : list Z) : list Z :=
  match n with
  | O => rev_w
  | S n' =>
      let w := add32 (add32 (ssig1 (nth 1 rev_w 0)) (nth 6 rev_w 0))
                     (add32 (ssig0 (nth 14 rev_w 0)) (nth 15 rev_w 0)) in
      schedule n' (w :: rev_w)
  end.

Definition round (s : digest) (kw : Z * Z) : digest :=
  let (k, w) := kw in
  let t1 := add32 (add32 (add32 (h7 s) (bsig1 (h4 s))) (Ch (h4 s) (h5 s) (h6 s)))
                  (add32 k w) in
  let t2 := add32 (bsig0 (h0 s)) (Maj (h0 s) (h1 s) (h2 s)) in
  Digest (add32 t1 t2) (h0 s) (h1 s) (h2 s) (add32 (h3 s) t1) (h4 s) (h5 s) (h6 s).

Definition compress (s : digest) (block : list Z) : digest :=
  let w := rev (schedule 48 (rev (words block))) in
  let r := fold_left round (combine K w) s in
  Digest (add32 (h0 s) (h0 r)) (add32 (h1 s) (h1 r)) (add32 (h2 s) (h2 r))
         (add32 (h3 s) (h3 r)) (add32 (h4 s) (h4 r)) (add32 (h5 s) (h5 r))
         (add32 (h6 s) (h6 r)) (add32 (h7 s) (h7 r)).

(** Big-endian bytes of the low [8 * n] bits of [x]. *)
Fixpoint be_bytes (n : nat) (x : Z) : list Z :=
  match n with
  | O => []
  | S n' => (Z.shiftr x (8 * Z.of_nat n')) mod 256 :: be_bytes n' x
  end.

(** Padding: a [0x80] byte, zeros up to 56 modulo 64, the bit length. *)
Definition pad (msg : list Z) : list Z :=
  let len := Z.of_nat (List.length msg) in
  let zeros := Z.to_nat ((55 - len) mod 64) in
  msg ++ 0x80 :: repeat 0 zeros ++ be_bytes 8 (8 * len).

Fixpoint blocks (n : nat) (s : digest) (bs : list Z) : digest :=
  match n with
  | O => s
  | S n' => blocks n' (compress s (firstn 64 bs)) (skipn 64 bs)
  end.

Definition digest_bytes (s : digest) : list byte :=
  map Go.byte_of_Z
      (be_bytes 4 (h0 s) ++ be_bytes 4 (h1 s) ++ be_bytes 4 (h2 s) ++ be_bytes 4 (h3 s)
       ++ be_bytes 4 (h4 s) ++ be_bytes 4 (h5 s) ++ be_bytes 4 (h6 s) ++ be_bytes 4 (h7 s)).

(** [sha256.Sum256(data)] as a byte slice. *)
Definition Sum256 (data : list byte) : list byte :=
  let p := pad (map Go.Z_of_byte data) in
  digest_bytes (blocks (List.length p / 64)%nat init p).

(** [h := sha256.New(); h.Write(data); h.Sum(b)]: the digest of what was
    written, appended to [b]. *)
Definition Sum (written b : list byte) : list byte := b ++ Sum256 written.

End SHA256.


Declare Scope go_scope.
Delimit Scope go_scope with go.
Notation "x <- m ;; k" := (Go.bind m (fun x => k))
  (at level 100, m at next level, right associativity) : go_scope.
Notation "m ;;; k" := (Go.bind m (fun _ => k))
  (at level 100, right associativity) : go_scope.

(** ** The [strings] functions the snapshotter calls *)

Module Strings.

Definition byte_is (n : nat) (c : ascii) : bool := Nat.eqb (nat_of_ascii c) n.

(** Width in bytes of the white space rune ([unicode.IsSpace]) that starts
    [s], or [0] when [s] starts with none: the ASCII spaces, U+0085,
    U+00A0, U+1680, U+2000..U+200A, U+2028, U+2029, U+202F, U+205F and
    U+3000 in their UTF-8 encodings. *)
Definition space_width (s : string) : nat :=
  match s with
  | String c rest =>
      let n := nat_of_ascii c in
      if ((9 <=? n)%nat && (n <=? 13)%nat) || Nat.eqb n 32 then 1%nat
      else if Nat.eqb n 194 then
        match rest with
        | String d _ => if byte_is 133 d || byte_is 160 d then 2%nat else 0%nat
        | _ => 0%nat
        end
      else if Nat.eqb n 225 then
        match rest with
        | String d (String e _) => if byte_is 154 d && byte_is 128 e then 3%nat else 0%nat
        | _ => 0%nat
        end
      else if Nat.eqb n 226 then
        match rest with
        | String d (String e _) =>
            let m := nat_of_ascii e in
            if byte_is 128 d && (((128 <=? m)%nat && (m <=? 138)%nat)
                                 || Nat.eqb m 168 || Nat.eqb m 169 || Nat.eqb m 175)
            then 3%nat
            else if byte_is 129 d && Nat.eqb m 159 then 3%nat else 0%nat
        | _ => 0%nat
        end
      else if Nat.eqb n 227 then
        match rest with
        | String d (String e _) => if byte_is 128 d && byte_is 128 e then 3%nat else 0%nat
        | _ => 0%nat
        end
      else 0%nat
  | EmptyString => 0%nat
  end.

Definition flush (cur : string) : list string :=
  match cur with
  | EmptyString => []
  | _ => [cur]
  end.

(** The scan of [strings.Fields]: [skip] counts the bytes still to drop
    of a white space rune, [cur] is the field being read. *)
Fixpoint fieldsFrom (skip : nat) (cur : string) (s : string) : list string :=
  match s with
  | EmptyString => flush cur
  | String c rest =>
      match skip with
      | S k => fieldsFrom k cur rest
      | O =>
          match space_width s with
          | O => fieldsFrom 0 (cur ++ String c EmptyString) rest
          | S k => flush cur ++ fieldsFrom k EmptyString rest
          end
      end
  end.

(** [strings.Fields(s)]: the maximal runs of non-space code points. *)
Definition Fields (s : string) : list string := fieldsFrom 0 EmptyString s.

(** [strings.IndexByte]: [None] stands for [-1]. *)
Fixpoint IndexByte (s : string) (c : ascii) : option nat :=
  match s with
  | EmptyString => None
  | String d rest =>
      if Ascii.eqb d c then Some 0%nat
      else match IndexByte rest c with
           | Some i => Some (S i)
           | None => None
           end
  end.

(** [strings.Contains(s, "/")] and [strings.Index(s, "/")] for the one
    byte separator the snapshotter looks for. *)
Definition ContainsSlash (s : string) : bool :=
  match IndexByte s "/"%char with Some _ => true | None => false end.

Definition IndexSlash (s : string) : Z :=
  match IndexByte s "/"%char with Some i => Z.of_nat i | None => -1 end.

(** [strings.LastIndex(s, "/")]. *)
Fixpoint LastIndexByte (s : string) (c : ascii) : option nat :=
  match s with
  | EmptyString => None
  | String d rest =>
      match LastIndexByte rest c with
      | Some i => Some (S i)
      | None => if Ascii.eqb d c then Some 0%nat else None
      end
  end.

(** The slice [s[i:]]. *)
Definition from (i : Z) (s : string) : string :=
  String.substring (Z.to_nat i) (String.length s - Z.to_nat i) s.

End Strings.

(** ** Types of [pkg/types], [pkg/snapstore] and [pkg/compressor] *)

Module brtypes.

Inductive SnapshotKind := SnapshotKindFull | SnapshotKindDelta.

(** Modelled from the spec: the [Snapshot] descriptor of the data model
    ([pkg/types] is not among the sources).  The derived [SnapDir] and
    [SnapName] are left out. *)
Record Snapshot := {
  Kind : SnapshotKind;
  StartRevision : Z;
  LastRevision : Z;
  CreatedOn : Go.TimeValue;
  CompressionSuffix : string;
  IsFinal : bool;
  IsChunk : bool
}.

Inductive SnapshotterState := SnapshotterInactive | SnapshotterActive.

Definition SnapshotterState_eqb (a b : SnapshotterState) : bool :=
  match a, b with
  | SnapshotterInactive, SnapshotterInactive => true
  | SnapshotterActive, SnapshotterActive => true
  | _, _ => false
  end.

Definition SnapshotKind_eqb (a b : SnapshotKind) : bool :=
  match a, b with
  | SnapshotKindFull, SnapshotKindFull => true
  | SnapshotKindDelta, SnapshotKindDelta => true
  | _, _ => false
  end.

(** Modelled from the spec: [DeltaSnapshotIntervalThreshold], the period
    of one second below which delta snapshotting is disabled. *)
Definition DeltaSnapshotIntervalThreshold : Go.Duration := Go.Second.

Record SnapshotterConfig := {
  FullSnapshotSchedule : string;
  DeltaSnapshotPeriod : Go.Duration;
  DeltaSnapshotMemoryLimit : Z
}.

Record CompressionConfig := {
  Enabled : bool;
  CompressionPolicy : string
}.

Record HealthConfig := {
  SnapshotLeaseRenewalEnabled : bool
}.

(** A handle on a snap store ([brtypes.SnapStore]). *)
Definition SnapStore : Type := nat.

End brtypes.

Module snapstore.
Import brtypes.

(** Modelled from the spec: [snapstore.NewSnapshot(kind, startRevision,
    lastRevision, compressionSuffix, isFinal)], the descriptor with these
    attributes, created at the current time, a wall-clock time in UTC. *)
Definition NewSnapshot (now : Go.Time) (kind : SnapshotKind) (startRevision lastRevision : Z)
           (compressionSuffix : string) (isFinal : bool) : Snapshot :=
  {| Kind := kind;
     StartRevision := startRevision;
     LastRevision := lastRevision;
     CreatedOn := Go.UTC now;
     CompressionSuffix := compressionSuffix;
     IsFinal := isFinal;
     IsChunk := false |}.

End snapstore.

Module compressor.

(** Modelled from the spec: [compressor.GetCompressionSuffix(enabled,
    policy)]: the empty suffix when compression is off, the fixed suffix
    of the three named policies, and an error for any other policy. *)
Definition GetCompressionSuffix (enabled : bool) (policy : string) : Go.Res string :=
  if negb enabled then Go.Val ""%string
  else if String.eqb policy "gzip" then Go.Val ".gz"%string
  else if String.eqb policy "lz4" then Go.Val ".lz4"%string
  else if String.eqb policy "zlib" then Go.Val ".zlib"%string
  else Go.Fail (Go.External Go.Configuration "unsupported compression policy").

End compressor.

(** ** [pkg/snapshot/snapshotter] *)

Module Snapshotter.
Import Go brtypes.
Open Scope string_scope.
Open Scope Z_scope.
Open Scope go_scope.

(** The untyped constant [defaultFullSnapMaxTimeWindow = 24], in hours. *)
Definition defaultFullSnapMaxTimeWindow : Z := 24.

(** A [clientv3.Event], as far as the snapshotter reads it. *)
Record Event := {
  Key : list byte;
  Value : list byte;
  ModRevision : Z
}.

(** [event]: an etcd event with the time it was seen. *)
Record event := {
  EtcdEvent : Event;
  EventTime : Time
}.

(** [result]: what is sent on the acknowledgement channels. *)
Record result := {
  ResSnapshot : option Snapshot;
  ResErr : option error
}.

(** A [clientv3.WatchResponse]: its events and what [wr.Err()] returns. *)
Record WatchResponse := {
  Events : list Event;
  WatchErr : option error
}.

(** Calls that leave the snapshotter, in the order they are made. *)
Inductive Effect :=
| Compress (policy : string) (payload : list byte)
| Save (store : SnapStore) (snap : Snapshot) (stream : list byte)
| Watch (fromRevision : Z)
| CloseWatch
| FullSnapshotAck (r : result)
| DeltaSnapshotAck (r : result)
| DeltaSnapshotLeaseUpdate
| FullSnapshotLeaseTimerReset (d : Duration).

(** The answers of the collaborators while one message is handled. *)
Record World := {
  (** [time.Now()] *)
  now : Time;
  (** [snapstore.GetSnapstoreSecretModifiedTime(provider)] *)
  GetSnapstoreSecretModifiedTime : Res Time;
  (** [snapstore.GetSnapstore(config)] *)
  GetSnapstore : Res SnapStore;
  (** the first result of [snapstore.GetSnapstore(config)] when the second
      is an error *)
  FailedSnapstore : SnapStore;
  (** [compressor.CompressSnapshot(rc, policy)], read to its end *)
  CompressSnapshot : string -> list byte -> Res (list byte);
  (** [store.Save(snap, rc)] *)
  StoreSave : SnapStore -> Snapshot -> list byte -> option error;
  (** [clientFactory.NewKV()] *)
  NewKV : option error;
  (** [clientKV.Get(ctx, "", clientv3.WithLastRev()...)]: [resp.Header.Revision] *)
  GetRevision : Res Z;
  (** [clientFactory.NewMaintenance()] *)
  NewMaintenance : option error;
  (** [clientMaintenance.Snapshot(ctx)], read to its end *)
  DBSnapshot : Res (list byte);
  (** [clientFactory.NewWatcher()] *)
  NewWatcher : option error;
  (** [json.Marshal(timedEvent)] *)
  Marshal : event -> Res (list byte)
}.

(** The [Snapshotter] struct.  [watchCh] holds the revision the open watch
    starts from ([None] is the nil channel); a timer holds the duration it
    was last armed with; [trace] is the record of the calls made so far,
    oldest first. *)
Record Snapshotter := {
  lastSecretModifiedTime : Time;
  schedule : Time -> Time;
  store : SnapStore;
  fullSnapshotTimer : option Duration;
  compressionConfig : CompressionConfig;
  PrevSnapshot : Snapshot;
  PrevFullSnapshot : option Snapshot;
  HealthConfig : brtypes.HealthConfig;
  deltaSnapshotTimer : option Duration;
  watchCh : option Z;
  config : SnapshotterConfig;
  events : list byte;
  PrevDeltaSnapshots : list Snapshot;
  lastEventRevision : Z;
  SsrState : SnapshotterState;
  PrevFullSnapshotSucceeded : bool;
  trace : list Effect
}.

(** Assignments to the fields. *)
Definition set_lastSecretModifiedTime (v : Time) (s : Snapshotter) : Snapshotter :=
  Build_Snapshotter v (schedule s) (store s) (fullSnapshotTimer s) (compressionConfig s)
    (PrevSnapshot s) (PrevFullSnapshot s) (HealthConfig s) (deltaSnapshotTimer s) (watchCh s)
    (config s) (events s) (PrevDeltaSnapshots s) (lastEventRevision s) (SsrState s)
    (PrevFullSnapshotSucceeded s) (trace s).
Definition set_store (v : SnapStore) (s : Snapshotter) : Snapshotter :=
  Build_Snapshotter (lastSecretModifiedTime s) (schedule s) v (fullSnapshotTimer s) (compressionConfig s)
    (PrevSnapshot s) (PrevFullSnapshot s) (HealthConfig s) (deltaSnapshotTimer s) (watchCh s)
    (config s) (events s) (PrevDeltaSnapshots s) (lastEventRevision s) (SsrState s)
    (PrevFullSnapshotSucceeded s) (trace s).
Definition set_fullSnapshotTimer (v : option Duration) (s : Snapshotter) : Snapshotter :=
  Build_Snapshotter (lastSecretModifiedTime s) (schedule s) (store s) v (compressionConfig s)
    (PrevSnapshot s) (PrevFullSnapshot s) (HealthConfig s) (deltaSnapshotTimer s) (watchCh s)
    (config s) (events s) (PrevDeltaSnapshots s) (lastEventRevision s) (SsrState s)
    (PrevFullSnapshotSucceeded s) (trace s).
Definition set_PrevSnapshot (v : Snapshot) (s : Snapshotter) : Snapshotter :=
  Build_Snapshotter (lastSecretModifiedTime s) (schedule s) (store s) (fullSnapshotTimer s) (compressionConfig s)
    v (PrevFullSnapshot s) (HealthConfig s) (deltaSnapshotTimer s) (watchCh s)
    (config s) (events s) (PrevDeltaSnapshots s) (lastEventRevision s) (SsrState s)
    (PrevFullSnapshotSucceeded s) (trace s).
Definition set_PrevFullSnapshot (v : option Snapshot) (s : Snapshotter) : Snapshotter :=
  Build_Snapshotter (lastSecretModifiedTime s) (schedule s) (store s) (fullSnapshotTimer s) (compressionConfig s)
    (PrevSnapshot s) v (HealthConfig s) (deltaSnapshotTimer s) (watchCh s)
    (config s) (events s) (PrevDeltaSnapshots s) (lastEventRevision s) (SsrState s)
    (PrevFullSnapshotSucceeded s) (trace s).
Definition set_deltaSnapshotTimer (v : option Duration) (s : Snapshotter) : Snapshotter :=
  Build_Snapshotter (lastSecretModifiedTime s) (schedule s) (store s) (fullSnapshotTimer s) (compressionConfig s)
    (PrevSnapshot s) (PrevFullSnapshot s) (HealthConfig s) v (watchCh s)
    (config s) (events s) (PrevDeltaSnapshots s) (lastEventRevision s) (SsrState s)
    (PrevFullSnapshotSucceeded s) (trace s).
Definition set_watchCh (v : option Z) (s : Snapshotter) : Snapshotter :=
  Build_Snapshotter (lastSecretModifiedTime s) (schedule s) (store s) (fullSnapshotTimer s) (compressionConfig s)
    (PrevSnapshot s) (PrevFullSnapshot s) (HealthConfig s) (deltaSnapshotTimer s) v
    (config s) (events s) (PrevDeltaSnapshots s) (lastEventRevision s) (SsrState s)
    (PrevFullSnapshotSucceeded s) (trace s).
Definition set_events (v : list byte) (s : Snapshotter) : Snapshotter :=
  Build_Snapshotter (lastSecretModifiedTime s) (schedule s) (store s) (fullSnapshotTimer s) (compressionConfig s)
    (PrevSnapshot s) (PrevFullSnapshot s) (HealthConfig s) (deltaSnapshotTimer s) (watchCh s)
    (config s) v (PrevDeltaSnapshots s) (lastEventRevision s) (SsrState s)
    (PrevFullSnapshotSucceeded s) (trace s).
Definition set_PrevDeltaSnapshots (v : list Snapshot) (s : Snapshotter) : Snapshotter :=
  Build_Snapshotter (lastSecretModifiedTime s) (schedule s) (store s) (fullSnapshotTimer s) (compressionConfig s)
    (PrevSnapshot s) (PrevFullSnapshot s) (HealthConfig s) (deltaSnapshotTimer s) (watchCh s)
    (config s) (events s) v (lastEventRevision s) (SsrState s)
    (PrevFullSnapshotSucceeded s) (trace s).
Definition set_lastEventRevision (v : Z) (s : Snapshotter) : Snapshotter :=
  Build_Snapshotter (lastSecretModifiedTime s) (schedule s) (store s) (fullSnapshotTimer s) (compressionConfig s)
    (PrevSnapshot s) (PrevFullSnapshot s) (HealthConfig s) (deltaSnapshotTimer s) (watchCh s)
    (config s) (events s) (PrevDeltaSnapshots s) v (SsrState s)
    (PrevFullSnapshotSucceeded s) (trace s).
Definition set_SsrState (v : SnapshotterState) (s : Snapshotter) : Snapshotter :=
  Build_Snapshotter (lastSecretModifiedTime s) (schedule s) (store s) (fullSnapshotTimer s) (compressionConfig s)
    (PrevSnapshot s) (PrevFullSnapshot s) (HealthConfig s) (deltaSnapshotTimer s) (watchCh s)
    (config s) (events s) (PrevDeltaSnapshots s) (lastEventRevision s) v
    (PrevFullSnapshotSucceeded s) (trace s).
Definition set_PrevFullSnapshotSucceeded (v : bool) (s : Snapshotter) : Snapshotter :=
  Build_Snapshotter (lastSecretModifiedTime s) (schedule s) (store s) (fullSnapshotTimer s) (compressionConfig s)
    (PrevSnapshot s) (PrevFullSnapshot s) (HealthConfig s) (deltaSnapshotTimer s) (watchCh s)
    (config s) (events s) (PrevDeltaSnapshots s) (lastEventRevision s) (SsrState s)
    v (trace s).
Definition set_trace (v : list Effect) (s : Snapshotter) : Snapshotter :=
  Build_Snapshotter (lastSecretModifiedTime s) (schedule s) (store s) (fullSnapshotTimer s) (compressionConfig s)
    (PrevSnapshot s) (PrevFullSnapshot s) (HealthConfig s) (deltaSnapshotTimer s) (watchCh s)
    (config s) (events s) (PrevDeltaSnapshots s) (lastEventRevision s) (SsrState s)
    (PrevFullSnapshotSucceeded s) v.

Definition Ssr (A : Type) : Type := M error Snapshotter A.

(** A call that leaves the snapshotter is written down. *)
Definition emit (e : Effect) : Ssr unit :=
  modify (fun s => set_trace (trace s ++ [e]) s).


(** [SetSnapshotterInactive] and [SetSnapshotterActive]. *)
Definition SetSnapshotterInactive : Ssr unit := modify (set_SsrState SnapshotterInactive).
Definition SetSnapshotterActive : Ssr unit := modify (set_SsrState SnapshotterActive).

(** [closeEtcdClient]: cancel the watch, drop the channel, close the client. *)
Definition closeEtcdClient : Ssr unit :=
  s <- get ;;
  match watchCh s with
  | Some _ => emit CloseWatch ;;; modify (set_watchCh None)
  | None => ret tt
  end.

(** [cleanupInMemoryEvents]. *)
Definition cleanupInMemoryEvents (s : Snapshotter) : Snapshotter :=
  set_lastEventRevision (-1) (set_events [] s).

(** [hasSnapStoreSecretUpdated]. *)
Definition hasSnapStoreSecretUpdated (w : World) : Ssr bool :=
  newSecretModifiedTime <-
    try (GetSnapstoreSecretModifiedTime w)
        (fun err => Errorf "error checking the modification time of the access credentials  %v" [ArgErr err]) ;;
  s <- get ;;
  if negb (After newSecretModifiedTime (lastSecretModifiedTime s)) then ret false
  else modify (set_lastSecretModifiedTime newSecretModifiedTime) ;;; ret true.

(** The block both snapshot procedures start with: rebuild the snap store
    handle when the credentials have changed.
    [ssr.store, err = snapstore.GetSnapstore(ssr.snapstoreConfig)] assigns
    the store before the error is looked at. *)
Definition refreshSnapstore (w : World) : Ssr unit :=
  hasSecretUpdated <-
    wrapErr (fun err => Errorf "error checking if the credentials were updated %v" [ArgErr err])
            (hasSnapStoreSecretUpdated w) ;;
  if hasSecretUpdated : bool then
    match GetSnapstore w with
    | Val st => modify (set_store st)
    | Fail err =>
        modify (set_store (FailedSnapstore w)) ;;;
        fail (Errorf "failed to create snapstore from configured storage provider: %v" [ArgErr err])
    end
  else ret tt.

(** [resetFullSnapshotTimer]. *)
Definition resetFullSnapshotTimer (w : World) : Ssr unit :=
  s <- get ;;
  let effective := schedule s (now w) in
  if IsZero effective then fail (Errorf "error in full snapshot schedule" [])
  else modify (set_fullSnapshotTimer (Some (Sub effective (now w)))).

(** Modelled from the spec: [etcdutil.TakeAndSaveFullSnapshot], which
    streams the database image (through the compressor when compression
    is enabled) into the snap store under a new Full descriptor that
    starts at revision 0, ends at [lastRevision] and carries the suffix
    and the final mark. *)
Definition TakeAndSaveFullSnapshot (w : World) (lastRevision : Z) (suffix : string)
           (isFinal : bool) : Ssr Snapshot :=
  s <- get ;;
  db <- try (DBSnapshot w) (fun err => err) ;;
  rc <- (if Enabled (compressionConfig s) then
           emit (Compress (CompressionPolicy (compressionConfig s)) db) ;;;
           try (CompressSnapshot w (CompressionPolicy (compressionConfig s)) db) (fun err => err)
         else ret db) ;;
  let snap := snapstore.NewSnapshot (now w) SnapshotKindFull 0 lastRevision suffix isFinal in
  emit (Save (store s) snap rc) ;;;
  check (StoreSave w (store s) snap rc) (fun err => err) ;;;
  ret snap.

(** The body of [takeFullSnapshot], before the deferred clean-up. *)
Definition takeFullSnapshot_body (isFinal : bool) (w : World) : Ssr Snapshot :=
  closeEtcdClient ;;;
  refreshSnapstore w ;;;
  check (NewKV w) (fun err => EtcdError "failed to create etcd KV client: %v" [ArgErr err]) ;;;
  lastRevision <- try (GetRevision w)
                      (fun err => EtcdError "failed to get etcd latest revision: %v" [ArgErr err]) ;;
  s <- get ;;
  (if isFinal && IsFinal (PrevSnapshot s)
      && SnapshotKind_eqb (Kind (PrevSnapshot s)) SnapshotKindFull
      && (LastRevision (PrevSnapshot s) =? lastRevision)
   then ret tt
   else
     compressionSuffix <-
       try (compressor.GetCompressionSuffix (Enabled (compressionConfig s))
                                            (CompressionPolicy (compressionConfig s)))
           (fun err => Errorf "failed to get compressionSuffix: %v" [ArgErr err]) ;;
     check (NewMaintenance w) (fun _ => Errorf "failed to build etcd maintenance client" []) ;;;
     snap <- TakeAndSaveFullSnapshot w lastRevision compressionSuffix isFinal ;;
     modify (set_PrevSnapshot snap) ;;;
     modify (set_PrevFullSnapshot (Some snap)) ;;;
     modify (set_PrevDeltaSnapshots [])) ;;;
  s <- get ;;
  if DeltaSnapshotPeriod (config s) <? Second then ret (PrevSnapshot s)
  else
    check (NewWatcher w)
          (fun err => EtcdError "failed to create etcd watch client for snapshotter: %v" [ArgErr err]) ;;;
    emit (Watch (add64 (LastRevision (PrevSnapshot s)) 1)) ;;;
    modify (set_watchCh (Some (add64 (LastRevision (PrevSnapshot s)) 1))) ;;;
    ret (PrevSnapshot s).

(** [takeFullSnapshot]: [defer ssr.cleanupInMemoryEvents()] comes first. *)
Definition takeFullSnapshot (isFinal : bool) (w : World) : Ssr Snapshot :=
  defer cleanupInMemoryEvents (takeFullSnapshot_body isFinal w).

(** [TakeFullSnapshotAndResetTimer]: [nil, err] when the snapshot fails,
    and [s, ssr.resetFullSnapshotTimer()] when it is taken, so a snapshot
    and an error can come back together.  The pair is kept as a [result]. *)
Definition TakeFullSnapshotAndResetTimer (isFinal : bool) (w : World)
  : Snapshotter -> result * Snapshotter :=
  fun s =>
    match takeFullSnapshot isFinal w s with
    | (Err err, s1) => ({| ResSnapshot := None; ResErr := Some err |}, s1)
    | (Ok snap, s1) =>
        match resetFullSnapshotTimer w s1 with
        | (Err err, s2) => ({| ResSnapshot := Some snap; ResErr := Some err |}, s2)
        | (Ok _, s2) => ({| ResSnapshot := Some snap; ResErr := None |}, s2)
        end
    end.

(** The body of [TakeDeltaSnapshot], before the deferred clean-up.  The
    result is [None] for the [nil, nil] of a skipped snapshot. *)
Definition TakeDeltaSnapshot_body (w : World) : Ssr (option Snapshot) :=
  s <- get ;;
  if Nat.eqb (List.length (events s)) 0 then ret None
  else
    modify (set_events (events s ++ [x5d])) ;;;
    refreshSnapstore w ;;;
    s <- get ;;
    compressionSuffix <-
      try (compressor.GetCompressionSuffix (Enabled (compressionConfig s))
                                           (CompressionPolicy (compressionConfig s)))
          (fun err => Errorf "failed to get compressionSuffix: %v" [ArgErr err]) ;;
    let snap := snapstore.NewSnapshot (now w) SnapshotKindDelta
                  (add64 (LastRevision (PrevSnapshot s)) 1) (lastEventRevision s)
                  compressionSuffix false in
    modify (set_events (SHA256.Sum (events s) (events s))) ;;;
    s <- get ;;
    rc <- (if Enabled (compressionConfig s) then
             emit (Compress (CompressionPolicy (compressionConfig s)) (events s)) ;;;
             try (CompressSnapshot w (CompressionPolicy (compressionConfig s)) (events s))
                 (fun err => Errorf "unable to compress delta snapshot: %v" [ArgErr err])
           else ret (events s)) ;;
    emit (Save (store s) snap rc) ;;;
    check (StoreSave w (store s) snap rc) (fun err => err) ;;;
    modify (set_PrevSnapshot snap) ;;;
    modify (fun s => set_PrevDeltaSnapshots (PrevDeltaSnapshots s ++ [snap]) s) ;;;
    ret (Some snap).

(** [TakeDeltaSnapshot]. *)
Definition TakeDeltaSnapshot (w : World) : Ssr (option Snapshot) :=
  defer cleanupInMemoryEvents (TakeDeltaSnapshot_body w).

(** [takeDeltaSnapshotAndResetTimer]. *)
Definition takeDeltaSnapshotAndResetTimer (w : World) : Ssr (option Snapshot) :=
  snap <- TakeDeltaSnapshot w ;;
  s <- get ;;
  modify (set_deltaSnapshotTimer (Some (DeltaSnapshotPeriod (config s)))) ;;;
  ret snap.

(** [newEvent]. *)
Definition newEvent (w : World) (e : Event) : event :=
  {| EtcdEvent := e; EventTime := now w |}.

(** The loop of [handleDeltaWatchEvents] over the events of a response. *)
Fixpoint aggregate (w : World) (evs : list Event) : Ssr unit :=
  match evs with
  | [] => ret tt
  | ev :: rest =>
      jsonByte <- try (Marshal w (newEvent w ev))
                      (fun err => Errorf "failed to marshal events to json: %v" [ArgErr err]) ;;
      modify (fun s =>
                if Nat.eqb (List.length (events s)) 0
                then set_events (events s ++ [x5b]) s
                else set_events (events s ++ [x2c]) s) ;;;
      modify (fun s => set_events (events s ++ jsonByte) s) ;;;
      modify (set_lastEventRevision (ModRevision ev)) ;;;
      aggregate w rest
  end.

(** [handleDeltaWatchEvents].  The memory limit is a [uint] that the
    source converts with [int(...)]. *)
Definition handleDeltaWatchEvents (w : World) (wr : WatchResponse) : Ssr unit :=
  check (WatchErr wr) (fun err => err) ;;;
  aggregate w (Events wr) ;;;
  s <- get ;;
  if wrap64 (DeltaSnapshotMemoryLimit (config s)) <=? Z.of_nat (List.length (events s)) then
    _ <- takeDeltaSnapshotAndResetTimer w ;;
    ret tt
  else ret tt.

(** *** The event loop *)

(** What the [select] of [snapshotEventHandler] receives: a request on
    [fullSnapshotReqCh] or [deltaSnapshotReqCh], a tick of one of the two
    timers, a response on [watchCh] ([None] when the channel was closed),
    or the stop signal.  Nothing is received on a nil [watchCh]: a
    [WatchMsg] that comes while no watch is open is not taken. *)
Inductive Msg :=
| FullSnapshotReq (isFinal : bool)
| DeltaSnapshotReq
| FullSnapshotTimerFired
| DeltaSnapshotTimerFired
| WatchMsg (wr : option WatchResponse)
| StopMsg.

(** The way one turn of the loop ends: the next turn, or [return nil]. *)
Inductive Turn := Continue | ReturnNil.

(** The struct literal [result{Snapshot: s, Err: err}] for the pair
    [s, err] a snapshot procedure returned. *)
Definition resultOf (r : Out error (option Snapshot)) : result :=
  match r with
  | Ok snap => {| ResSnapshot := snap; ResErr := None |}
  | Err err => {| ResSnapshot := None; ResErr := Some err |}
  end.

Definition leaseRenewal (s : Snapshotter) : bool :=
  SnapshotLeaseRenewalEnabled (HealthConfig s).

(** After a full snapshot: the lease update timer is stopped and reset. *)
Definition afterFullSnapshot : Ssr Turn :=
  modify (set_PrevFullSnapshotSucceeded true) ;;;
  s <- get ;;
  (if leaseRenewal s then emit (FullSnapshotLeaseTimerReset Nanosecond) else ret tt) ;;;
  ret Continue.

(** After a delta snapshot: the delta snapshot lease is renewed; a failure
    of the renewal is only logged. *)
Definition afterDeltaSnapshot : Ssr Turn :=
  s <- get ;;
  (if leaseRenewal s then emit DeltaSnapshotLeaseUpdate else ret tt) ;;;
  ret Continue.

(** One case of the [select]. *)
Definition handleMsg (m : Msg) (w : World) : Ssr Turn :=
  match m with
  | FullSnapshotReq isFinal =>
      fun s =>
        let (res, s1) := TakeFullSnapshotAndResetTimer isFinal w s in
        let s2 := set_trace (trace s1 ++ [FullSnapshotAck res]) s1 in
        match ResErr res with
        | Some err => (Err err, set_PrevFullSnapshotSucceeded false s2)
        | None => afterFullSnapshot s2
        end
  | DeltaSnapshotReq =>
      fun s =>
        let (r, s1) := takeDeltaSnapshotAndResetTimer w s in
        let res := resultOf r in
        let s2 := set_trace (trace s1 ++ [DeltaSnapshotAck res]) s1 in
        match ResErr res with
        | Some err => (Err err, s2)
        | None => afterDeltaSnapshot s2
        end
  | FullSnapshotTimerFired =>
      fun s =>
        let (res, s1) := TakeFullSnapshotAndResetTimer false w s in
        match ResErr res with
        | Some err => (Err err, set_PrevFullSnapshotSucceeded false s1)
        | None => afterFullSnapshot s1
        end
  | DeltaSnapshotTimerFired =>
      s <- get ;;
      if Second <=? DeltaSnapshotPeriod (config s) then
        _ <- takeDeltaSnapshotAndResetTimer w ;;
        afterDeltaSnapshot
      else ret Continue
  | WatchMsg received =>
      s <- get ;;
      match watchCh s, received with
      | None, _ => ret Continue
      | Some _, None => fail (Errorf "watch channel closed" [])
      | Some _, Some wr =>
          let snapshots := List.length (PrevDeltaSnapshots s) in
          handleDeltaWatchEvents w wr ;;;
          s' <- get ;;
          (if leaseRenewal s' && Nat.ltb snapshots (List.length (PrevDeltaSnapshots s'))
           then emit DeltaSnapshotLeaseUpdate else ret tt) ;;;
          ret Continue
      end
  | StopMsg =>
      modify cleanupInMemoryEvents ;;;
      ret ReturnNil
  end.

(** How far [snapshotEventHandler] got: it returned (with [nil] or an
    error), or it waits in its [select] for the next message. *)
Inductive Handler :=
| Returned (err : option error)
| Waiting.

(** [snapshotEventHandler]: the loop handles the messages in the order
    the [select] takes them; the messages it did not take are given back. *)
Fixpoint snapshotEventHandler (inbox : list (Msg * World)) (s : Snapshotter)
  : Handler * Snapshotter * list (Msg * World) :=
  match inbox with
  | [] => (Waiting, s, [])
  | (m, w) :: rest =>
      match handleMsg m w s with
      | (Ok Continue, s') => snapshotEventHandler rest s'
      | (Ok ReturnNil, s') => (Returned None, s', rest)
      | (Err err, s') => (Returned (Some err), s', rest)
      end
  end.

(** *** External triggers *)

(** A trigger runs on the caller's goroutine and talks to the loop over the
    request and acknowledgement channels. *)
Inductive Trigger (A : Type) :=
| TReturn (a : A)
| SendFullSnapshotReq (isFinal : bool) (k : Trigger A)
| SendDeltaSnapshotReq (k : Trigger A)
| RecvFullSnapshotAck (k : result -> Trigger A)
| RecvDeltaSnapshotAck (k : result -> Trigger A).
Arguments TReturn {A} a.
Arguments SendFullSnapshotReq {A} isFinal k.
Arguments SendDeltaSnapshotReq {A} k.
Arguments RecvFullSnapshotAck {A} k.
Arguments RecvDeltaSnapshotAck {A} k.

(** The requests a trigger sends when every acknowledgement it waits for
    is [ack]. *)
Fixpoint requests {A} (ack : result) (t : Trigger A) : list Msg :=
  match t with
  | TReturn _ => []
  | SendFullSnapshotReq isFinal k => FullSnapshotReq isFinal :: requests ack k
  | SendDeltaSnapshotReq k => DeltaSnapshotReq :: requests ack k
  | RecvFullSnapshotAck k => requests ack (k ack)
  | RecvDeltaSnapshotAck k => requests ack (k ack)
  end.

(** What a trigger returns when every acknowledgement it waits for is [ack]. *)
Fixpoint returns {A} (ack : result) (t : Trigger A) : A :=
  match t with
  | TReturn a => a
  | SendFullSnapshotReq _ k => returns ack k
  | SendDeltaSnapshotReq k => returns ack k
  | RecvFullSnapshotAck k => returns ack (k ack)
  | RecvDeltaSnapshotAck k => returns ack (k ack)
  end.

(** [TriggerFullSnapshot], under [SsrStateMutex]. *)
Definition TriggerFullSnapshot (s : Snapshotter) (isFinal : bool)
  : Trigger (option Snapshot * option error) :=
  if negb (SnapshotterState_eqb (SsrState s) SnapshotterActive) then
    TReturn (None, Some (Errorf "snapshotter is not active" []))
  else
    SendFullSnapshotReq isFinal
      (RecvFullSnapshotAck (fun res => TReturn (ResSnapshot res, ResErr res))).

(** [TriggerDeltaSnapshot], under [SsrStateMutex]. *)
Definition TriggerDeltaSnapshot (s : Snapshotter)
  : Trigger (option Snapshot * option error) :=
  if negb (SnapshotterState_eqb (SsrState s) SnapshotterActive) then
    TReturn (None, Some (Errorf "snapshotter is not active" []))
  else if DeltaSnapshotPeriod (config s) <? DeltaSnapshotIntervalThreshold then
    TReturn (None,
             Some (Errorf "found delta snapshot interval %s less than %v. Delta snapshotting is disabled. "
                          [ArgDuration (DeltaSnapshotPeriod (config s));
                           ArgDuration DeltaSnapshotIntervalThreshold]))
  else
    SendDeltaSnapshotReq
      (RecvDeltaSnapshotAck (fun res => TReturn (ResSnapshot res, ResErr res))).

(** *** Is a full snapshot required at startup? *)

Section Startup.

(** [miscellaneous.GetPrevScheduledSnapTime(nextSnapSchedule, timeWindow)],
    which is not among the sources: the [time.Time] it returns. *)
Variable GetPrevScheduledSnapTime : Time -> float -> TimeValue.

(** [WasScheduledFullSnapshotMissed]; [prev] is [*ssr.PrevFullSnapshot].
    The two [time.Time] values are compared with [==]. *)
Definition WasScheduledFullSnapshotMissed (s : Snapshotter) (prev : Snapshot)
           (timeWindow : float) (c : Clock) : bool * Clock :=
  let (now, c1) := Now c in
  let nextSnapSchedule := schedule s now in
  if TimeValue_eqb (GetPrevScheduledSnapTime nextSnapSchedule timeWindow) (CreatedOn prev)
  then (false, c1)
  else (true, c1).

(** [IsNextFullSnapshotBeyondTimeWindow]. *)
Definition IsNextFullSnapshotBeyondTimeWindow (s : Snapshotter) (prev : Snapshot)
           (timeWindow : float) (c : Clock) : bool * Clock :=
  let (now, c1) := Now c in
  let nextSnapSchedule := schedule s now in
  let timeLeftToTakeNextSnap := Sub nextSnapSchedule now in
  let (since, c2) := Since (instant (CreatedOn prev)) c1 in
  (fgt (PrimFloat.add (Hours timeLeftToTakeNextSnap) (Hours since)) timeWindow, c2).

(** [IsFullSnapshotRequiredAtStartup]. *)
Definition IsFullSnapshotRequiredAtStartup (s : Snapshotter) (timeWindow : float)
           (c : Clock) : bool * Clock :=
  match PrevFullSnapshot s with
  | None => (true, c)
  | Some prev =>
      if IsFinal prev then (true, c)
      else
        let (since, c1) := Since (instant (CreatedOn prev)) c in
        if fgt (Hours since) timeWindow || negb (PrevFullSnapshotSucceeded s) then (true, c1)
        else
          let (missed, c2) := WasScheduledFullSnapshotMissed s prev timeWindow c1 in
          if negb missed then (false, c2)
          else IsNextFullSnapshotBeyondTimeWindow s prev timeWindow c2
  end.

End Startup.

(** *** The maximum time window between full snapshots *)

(** Indices of the cron fields. *)
Definition min : nat := 0.
Definition hour : nat := 1.
Definition dayOfMonth : nat := 2.
Definition month : nat := 3.
Definition dayOfWeek : nat := 4.

Section TimeWindow.

(** [strconv.ParseFloat(s, 64)]. *)
Variable ParseFloat : string -> Res float.

(** [GetFullSnapshotMaxTimeWindow]. *)
Definition GetFullSnapshotMaxTimeWindow (fullSnapScheduleSpec : string) : float :=
  let schedule := Strings.Fields fullSnapScheduleSpec in
  if Nat.ltb (List.length schedule) 5 then float64_of_Z defaultFullSnapMaxTimeWindow
  else if negb (String.eqb (nth dayOfWeek schedule "") "*") then
    float64_of_Z (defaultFullSnapMaxTimeWindow * 7)
  else if String.eqb (nth dayOfMonth schedule "") "*"
          && String.eqb (nth dayOfWeek schedule "") "*"
          && Strings.ContainsSlash (nth hour schedule "") then
    match ParseFloat (Strings.from (Strings.IndexSlash (nth hour schedule "") + 1)
                                   (nth hour schedule "")) with
    | Val timeWindow => timeWindow
    | Fail _ => float64_of_Z defaultFullSnapMaxTimeWindow
    end
  else float64_of_Z defaultFullSnapMaxTimeWindow.

End TimeWindow.

End Snapshotter.

(** ** [path/filepath] *)

Module filepath.
Open Scope string_scope.

(** The elements of a path between its separators. *)
Fixpoint split (cur : string) (p : string) : list string :=
  match p with
  | EmptyString => [cur]
  | String c rest =>
      if Ascii.eqb c "/"%char then cur :: split EmptyString rest
      else split (cur ++ String c EmptyString) rest
  end.

(** The stack of [Clean]: an element is pushed, [.] and the empty element
    are dropped, [..] pops an element, stays when there is none to pop in
    a relative path, and is dropped at the root. *)
Fixpoint clean_elems (rooted : bool) (stack : list string) (elems : list string) : list string :=
  match elems with
  | [] => rev stack
  | e :: rest =>
      if String.eqb e "" || String.eqb e "." then clean_elems rooted stack rest
      else if String.eqb e ".." then
        match stack with
        | top :: below =>
            if String.eqb top ".." then clean_elems rooted (e :: stack) rest
            else clean_elems rooted below rest
        | [] => if rooted then clean_elems rooted [] rest
                else clean_elems rooted [e] rest
        end
      else clean_elems rooted (e :: stack) rest
  end.

Fixpoint join (elems : list string) : string :=
  match elems with
  | [] => ""
  | [e] => e
  | e :: rest => e ++ "/" ++ join rest
  end.

(** [filepath.Clean(path)] on a Unix system. *)
Definition Clean (path : string) : string :=
  match path with
  | EmptyString => "."
  | String c _ =>
      let rooted := Ascii.eqb c "/"%char in
      let body := join (clean_elems rooted [] (split EmptyString path)) in
      if rooted then "/" ++ body
      else if String.eqb body "" then "." else body
  end.

(** [filepath.Join(elem)] of one element: empty elements are ignored and
    the result is cleaned. *)
Definition Join (elem : string) : string :=
  if String.eqb elem "" then "" else Clean elem.

End filepath.

(** ** [pkg/initializer] *)

Module validator.

(** Modelled from the spec: the statuses the validator returns, under the
    names the initializer uses for them ([pkg/initializer/validator] is not
    among the sources). *)
Inductive DataDirStatus :=
| DataDirectoryValid
| DataDirectoryCorrupt
| WrongVolumeMounted
| FailToOpenBoltDBError
| FailBelowRevisionConsistencyError
| DataDirStatusInvalidInMultiNode
| DataDirectoryStatusUnknown.

Definition DataDirStatus_eqb (a b : DataDirStatus) : bool :=
  match a, b with
  | DataDirectoryValid, DataDirectoryValid
  | DataDirectoryCorrupt, DataDirectoryCorrupt
  | WrongVolumeMounted, WrongVolumeMounted
  | FailToOpenBoltDBError, FailToOpenBoltDBError
  | FailBelowRevisionConsistencyError, FailBelowRevisionConsistencyError
  | DataDirStatusInvalidInMultiNode, DataDirStatusInvalidInMultiNode
  | DataDirectoryStatusUnknown, DataDirectoryStatusUnknown => true
  | _, _ => false
  end.

(** [validator.Mode]: the validation mode asked for. *)
Inductive Mode := Full | Sanity.

End validator.

Module Initializer.
Import Go brtypes validator.
Open Scope string_scope.
Open Scope Z_scope.
Open Scope go_scope.

(** [addLearnerAttempts]. *)
Definition addLearnerAttempts : nat := 6.

(** [retry.DefaultBackoff.Steps]. *)
Definition DefaultBackoffSteps : nat := 4.

Record SnapstoreConfig := {
  Provider : string;
  TempDir : string
}.

Record RestorationConfig := {
  DataDir : string
}.

Record RestoreOptions := {
  Config_ : RestorationConfig;
  BaseSnapshot : option Snapshot;
  DeltaSnapList : list Snapshot;
  OriginalClusterSize : Z
}.

(** [EtcdInitializer], with its [Config] and the cluster size its
    [Validator] holds. *)
Record EtcdInitializer := {
  SnapstoreConfig_ : option SnapstoreConfig;
  RestoreOptions_ : RestoreOptions;
  ValidatorOriginalClusterSize : Z
}.

(** Calls that leave the initializer, in the order they are made: the file
    system, the restorer and the member control. *)
Inductive Call :=
| Stat (name : string)
| RemoveAll (path : string)
| Rename (oldpath newpath : string)
| MkdirAll (path : string) (perm : Z)
| RestoreAndStopEtcd (ro : RestoreOptions)
| RemoveMember
| AddMemberAsLearner
| AddLearnerWithRetry (attempts : nat) (dataDir : string).

(** The answers of the collaborators; the file system and the member
    control may answer differently after different histories of calls. *)
Record World := {
  (** [miscellaneous.IsMultiNode(logger)] *)
  IsMultiNode : bool;
  (** [miscellaneous.GetKubernetesClientSetOrError()] *)
  GetKubernetesClientSetOrError : option error;
  (** [m.WasMemberInCluster(ctx, clientSet)] *)
  WasMemberInCluster : bool;
  (** [m.IsClusterScaledUp(ctx, clientSet)] *)
  IsClusterScaledUp : Res bool;
  (** [member.AddLearnerWithRetry(ctx, m, attempts, dataDir)] *)
  AddLearnerWithRetryResult : option error;
  (** [e.Validator.Validate(mode, failBelowRevision)] *)
  Validate : Mode -> Z -> DataDirStatus * option error;
  (** [snapstore.GetSnapstore(config)] *)
  GetSnapstore : Res SnapStore;
  (** [miscellaneous.GetLatestFullSnapshotAndDeltaSnapList(store)] *)
  GetLatestFullSnapshotAndDeltaSnapList : Res (option Snapshot * list Snapshot);
  (** [restorer.NewRestorer(store, logger)] *)
  NewRestorer : option error;
  (** [rs.RestoreAndStopEtcd(options, m)] *)
  RestoreAndStopEtcdResult : RestoreOptions -> option error;
  (** [os.Stat(name)]: its error *)
  os_Stat : list Call -> string -> option error;
  (** [os.RemoveAll(path)] *)
  os_RemoveAll : list Call -> string -> option error;
  (** [os.Rename(oldpath, newpath)] *)
  os_Rename : list Call -> string -> string -> option error;
  (** [os.MkdirAll(path, perm)] *)
  os_MkdirAll : list Call -> string -> option error;
  (** [m.RemoveMember(ctx)] *)
  RemoveMemberResult : list Call -> option error;
  (** [m.AddMemberAsLearner(ctx)] *)
  AddMemberAsLearnerResult : list Call -> option error
}.

(** Why a function of the initializer stops: it returns an error, or
    [logger.Fatalf] ends the process. *)
Inductive Stop :=
| ReturnErr (err : error)
| Exit (format : string) (args : list arg).

(** The state is the history of calls, oldest first. *)
Definition Init (A : Type) : Type := M Stop (list Call) A.

Definition call (c : Call) : Init unit := modify (fun h => (h ++ [c])%list).

Definition returnErr {A} (err : error) : Init A := fail (ReturnErr err).

(** A call whose error, if any, is returned after [wrap]. *)
Definition attempt (c : Call) (answer : list Call -> option error)
           (wrap : error -> error) : Init unit :=
  h <- get ;;
  call c ;;;
  match answer h with
  | Some err => returnErr (wrap err)
  | None => ret tt
  end.

(** [fmt.Sprintf("%s.%s", dataDir, "part")]. *)
Definition partDir (dataDir : string) : string := dataDir ++ "." ++ "part".

(** [removeDir]. *)
Definition removeDir (w : World) (dirname : string) : Init unit :=
  attempt (RemoveAll (filepath.Join dirname))
          (fun h => os_RemoveAll w h (filepath.Join dirname))
          (fun err => Errorf "failed to remove directory %s with err: %v" [ArgStr dirname; ArgErr err]).

(** [removeContents]. *)
Definition removeContents (w : World) (dataDir : string) : Init unit :=
  removeDir w dataDir ;;;
  attempt (Rename (filepath.Join (partDir dataDir)) (filepath.Join dataDir))
          (fun h => os_Rename w h (filepath.Join (partDir dataDir)) (filepath.Join dataDir))
          (fun err => Errorf "failed to rename temp restore directory %s to data directory %s with err: %v"
                             [ArgStr (filepath.Join (partDir dataDir)); ArgStr dataDir; ArgErr err]).

(** [restoreWithEmptySnapstore]. *)
Definition restoreWithEmptySnapstore (w : World) (e : EtcdInitializer) : Init bool :=
  let dataDir := DataDir (Config_ (RestoreOptions_ e)) in
  h <- get ;;
  call (Stat dataDir) ;;;
  match os_Stat w h dataDir with
  | Some err => if IsNotExist err then ret false else returnErr err
  | None => removeDir w dataDir ;;; ret true
  end.

Definition wrapStop (wrap : error -> error) (st : Stop) : Stop :=
  match st with
  | ReturnErr err => ReturnErr (wrap err)
  | Exit f args => Exit f args
  end.

Definition tryInit {A} (r : Res A) (wrap : error -> error) : Init A :=
  match r with
  | Val a => ret a
  | Fail err => returnErr (wrap err)
  end.

(** [restoreCorruptData]. *)
Definition restoreCorruptData (w : World) (e : EtcdInitializer) : Init bool :=
  let tempRestoreOptions := RestoreOptions_ e in
  let dataDir := DataDir (Config_ tempRestoreOptions) in
  match SnapstoreConfig_ e with
  | None => restoreWithEmptySnapstore w e
  | Some sc =>
      if Nat.eqb (String.length (Provider sc)) 0 then restoreWithEmptySnapstore w e
      else
        store <- tryInit (GetSnapstore w)
                   (fun err => Errorf "failed to create snapstore from configured storage provider: %v"
                                      [ArgErr err]) ;;
        latest <- tryInit (GetLatestFullSnapshotAndDeltaSnapList w) (fun err => err) ;;
        let (baseSnap, deltaSnapList) := latest : option Snapshot * list Snapshot in
        match baseSnap, deltaSnapList with
        | None, [] => restoreWithEmptySnapstore w e
        | _, _ =>
            let tempRestoreOptions :=
              {| Config_ := {| DataDir := partDir dataDir |};
                 BaseSnapshot := baseSnap;
                 DeltaSnapList := deltaSnapList;
                 OriginalClusterSize := OriginalClusterSize tempRestoreOptions |} in
            wrapErr (wrapStop (fun err => Errorf "failed to delete previous temporary data directory: %v"
                                                 [ArgErr err]))
                    (removeDir w (DataDir (Config_ tempRestoreOptions))) ;;;
            match NewRestorer w with
            | Some err => returnErr err
            | None =>
                attempt (RestoreAndStopEtcd tempRestoreOptions)
                        (fun _ => RestoreAndStopEtcdResult w tempRestoreOptions)
                        (fun err => Errorf "failed to restore snapshot: %v" [ArgErr err]) ;;;
                wrapErr (wrapStop (fun err => Errorf "failed to remove corrupt contents with restored snapshot: %v"
                                                     [ArgErr err]))
                        (removeContents w dataDir) ;;;
                ret true
            end
        end
  end.

(** [retry.OnError(retry.DefaultBackoff, errors.IsErrNotNil, fn)]: [fn] is
    tried until it returns [nil], at most [steps] times; the last error is
    returned. *)
Fixpoint retry_OnError (steps : nat) (fn : Init unit) : Init unit :=
  match steps with
  | O => ret tt
  | S O => fn
  | S n =>
      fun h =>
        match fn h with
        | (Ok _, h') => (Ok tt, h')
        | (Err (ReturnErr _), h') => retry_OnError n fn h'
        | (Err stop, h') => (Err stop, h')
        end
  end.

(** [restoreInMultiNode]. *)
Definition restoreInMultiNode (w : World) (e : EtcdInitializer) : Init unit :=
  let dataDir := DataDir (Config_ (RestoreOptions_ e)) in
  wrapErr (wrapStop (fun err => Errorf "unable to remove the member %v" [ArgErr err]))
          (retry_OnError DefaultBackoffSteps
             (attempt RemoveMember (RemoveMemberResult w) (fun err => err))) ;;;
  wrapErr (wrapStop (fun err => Errorf "unable to remove the data-dir %v" [ArgErr err]))
          (removeDir w dataDir) ;;;
  wrapErr (wrapStop (fun err => Errorf "unable to add the member as learner %v" [ArgErr err]))
          (retry_OnError DefaultBackoffSteps
             (h <- get ;;
              call (Stat dataDir) ;;;
              match os_Stat w h dataDir with
              | None =>
                  attempt (RemoveAll (filepath.Join dataDir))
                          (fun h => os_RemoveAll w h (filepath.Join dataDir))
                          (fun err => Errorf "failed to remove directory %s with err: %v"
                                             [ArgStr dataDir; ArgErr err])
              | Some err => if IsNotExist err then ret tt else returnErr err
              end ;;;
              attempt AddMemberAsLearner (AddMemberAsLearnerResult w) (fun err => err))).

(** The scale-up check at the start of [Initialize]: [None] when
    [Initialize] returns [nil] right after adding a learner, and the
    value of [memberHeartbeatPresent] otherwise. *)
Definition scaleUpCheck (w : World) (e : EtcdInitializer) : Init (option bool) :=
  if IsMultiNode w then
    match GetKubernetesClientSetOrError w with
    | Some err => fail (Exit "failed to create clientset, %v" [ArgErr err])
    | None =>
        if WasMemberInCluster w then ret (Some true)
        else
          match IsClusterScaledUp w with
          | Fail _ => ret (Some false)
          | Val false => ret (Some false)
          | Val true =>
              call (AddLearnerWithRetry addLearnerAttempts (DataDir (Config_ (RestoreOptions_ e)))) ;;;
              match AddLearnerWithRetryResult w with
              | Some err => fail (Exit "unable to add a learner in a cluster: %v" [ArgErr err])
              | None => ret None
              end
          end
    end
  else ret (Some false).

(** The end of [Initialize]: the temporary snapshot directory is removed
    and made again. *)
Definition cleanTempDir (w : World) (e : EtcdInitializer) : Init unit :=
  match SnapstoreConfig_ e with
  | None => ret tt
  | Some sc =>
      (if negb (String.eqb (TempDir sc) "") && negb (String.eqb (TempDir sc) "/tmp") then
         wrapErr (wrapStop (fun err => Errorf "failed to remove directory %s with err: %v"
                                              [ArgStr (TempDir sc); ArgErr err]))
                 (removeDir w (TempDir sc))
       else ret tt) ;;;
      attempt (MkdirAll (TempDir sc) 448)
              (fun h => os_MkdirAll w h (TempDir sc))
              (fun err => Errorf "failed to create temporary directory %s: %w" [ArgStr (TempDir sc); ArgErr err])
  end.

(** [Initialize]. *)
Definition Initialize (w : World) (e : EtcdInitializer) (mode : Mode) (failBelowRevision : Z)
  : Init unit :=
  heartbeat <- scaleUpCheck w e ;;
  match heartbeat with
  | None => ret tt
  | Some memberHeartbeatPresent =>
      let (dataDirStatus, err) := Validate w mode failBelowRevision in
      if DataDirStatus_eqb dataDirStatus WrongVolumeMounted then
        returnErr (Errorf "won't initialize ETCD because wrong ETCD volume is mounted: %v" [ArgErrOpt err])
      else if DataDirStatus_eqb dataDirStatus FailToOpenBoltDBError then
        returnErr (Errorf "failed to initialize since another process still holds the file lock" [])
      else if DataDirStatus_eqb dataDirStatus DataDirectoryStatusUnknown then
        returnErr (Errorf "error while initializing: %v" [ArgErrOpt err])
      else if DataDirStatus_eqb dataDirStatus FailBelowRevisionConsistencyError then
        returnErr (Errorf "failed to initialize since fail below revision check failed" [])
      else
        (if negb (DataDirStatus_eqb dataDirStatus DataDirectoryValid) then
           if DataDirStatus_eqb dataDirStatus DataDirStatusInvalidInMultiNode
              || ((1 <? ValidatorOriginalClusterSize e)
                  && DataDirStatus_eqb dataDirStatus DataDirectoryCorrupt)
              || ((1 <? ValidatorOriginalClusterSize e) && memberHeartbeatPresent)
           then restoreInMultiNode w e
           else
             _ <- wrapErr (wrapStop (fun err => Errorf "error while restoring corrupt data: %v" [ArgErr err]))
                          (restoreCorruptData w e) ;;
             ret tt
         else ret tt) ;;;
        cleanTempDir w e
  end.

End Initializer.

(** * The statements of the design, in its own words *)

Module Design.
Import Go brtypes Snapshotter.
Open Scope string_scope.
Open Scope Z_scope.

(** The [k]-th reading of the clock from now on. *)
Definition reading (c : Clock) (k : nat) : Time := readings c (k + ticks c).

(** The condition on which a full snapshot is required at startup, for a
    reading [missed] of "the previous scheduled slot was missed": there is
    no previous Full snapshot, or it is marked Final, or the previous full
    snapshot did not succeed, or more than [timeWindow] hours have passed
    since it was created, or the previous scheduled slot was missed and
    the time left until the next slot plus the time passed since the
    previous Full snapshot is more than [timeWindow] hours. *)
Definition required_at_startup (missed : TimeValue -> TimeValue -> Prop)
           (GetPrevScheduledSnapTime : Time -> float -> TimeValue)
           (s : Snapshotter) (timeWindow : float) (c : Clock) : Prop :=
  PrevFullSnapshot s = None \/
  exists prev,
    PrevFullSnapshot s = Some prev /\
    (IsFinal prev = true \/
     PrevFullSnapshotSucceeded s = false \/
     fgt (Hours (Sub (reading c 0) (instant (CreatedOn prev)))) timeWindow = true \/
     (missed (GetPrevScheduledSnapTime (schedule s (reading c 1)) timeWindow) (CreatedOn prev) /\
      fgt (PrimFloat.add (Hours (Sub (schedule s (reading c 2)) (reading c 2)))
                         (Hours (Sub (reading c 3) (instant (CreatedOn prev)))))
          timeWindow = true)).

(** The slot was missed, as the design reads: the previous Full snapshot
    was not created at the instant of the previous scheduled slot. *)
Definition slot_missed (slot createdOn : TimeValue) : Prop :=
  instant slot <> instant createdOn.


(** The condition of the design. *)
Definition full_snapshot_required_by_slot :=
  required_at_startup slot_missed.


(** What follows the first [/] of a cron field, and what follows its last. *)
Fixpoint after_first_slash (s : string) : string :=
  match s with
  | EmptyString => EmptyString
  | String c rest => if Ascii.eqb c "/"%char then rest else after_first_slash rest
  end.

Fixpoint after_last_slash (s : string) : string :=
  match s with
  | EmptyString => EmptyString
  | String c rest =>
      if Strings.ContainsSlash rest then after_last_slash rest
      else if Ascii.eqb c "/"%char then rest else EmptyString
  end.

(** The value of a string of decimal digits. *)
Fixpoint decimal (acc : Z) (s : string) : option Z :=
  match s with
  | EmptyString => Some acc
  | String c rest =>
      let n := nat_of_ascii c in
      if (48 <=? n)%nat && (n <=? 57)%nat then decimal (10 * acc + (Z.of_nat n - 48)) rest
      else None
  end.

(** [strconv.ParseFloat(s, 64)] on the strings the examples pass to it: a
    string of one to fifteen decimal digits is the number it spells, which
    a [float64] holds exactly; a string with any byte that is no digit, no
    sign, no point, no letter and no underscore is a syntax error. *)
Definition ParseFloat_digits (s : string) : Res float :=
  match s with
  | EmptyString => Fail (External Configuration "strconv.ParseFloat: invalid syntax")
  | _ =>
      match decimal 0 s with
      | Some n =>
          if (String.length s <=? 15)%nat then Val (float64_of_Z n)
          else Fail (External Configuration "strconv.ParseFloat: not modelled")
      | None => Fail (External Configuration "strconv.ParseFloat: invalid syntax")
      end
  end.

(** Two states of the snapshotter that differ at most in the snap store
    handle, the modification time last seen for its credentials, the
    watch and the record of calls. *)
Record same_snapshots (s s1 : Snapshotter) : Prop := {
  same_schedule : schedule s1 = schedule s;
  same_fullSnapshotTimer : fullSnapshotTimer s1 = fullSnapshotTimer s;
  same_compressionConfig : compressionConfig s1 = compressionConfig s;
  same_PrevSnapshot : PrevSnapshot s1 = PrevSnapshot s;
  same_PrevFullSnapshot : PrevFullSnapshot s1 = PrevFullSnapshot s;
  same_HealthConfig : HealthConfig s1 = HealthConfig s;
  same_deltaSnapshotTimer : deltaSnapshotTimer s1 = deltaSnapshotTimer s;
  same_config : config s1 = config s;
  same_events : events s1 = events s;
  same_PrevDeltaSnapshots : PrevDeltaSnapshots s1 = PrevDeltaSnapshots s;
  same_lastEventRevision : lastEventRevision s1 = lastEventRevision s;
  same_SsrState : SsrState s1 = SsrState s;
  same_PrevFullSnapshotSucceeded : PrevFullSnapshotSucceeded s1 = PrevFullSnapshotSucceeded s
}.

(** The descriptor a delta snapshot taken in state [s] gets. *)
Definition deltaSnapshot (w : World) (s : Snapshotter) (suffix : string) : Snapshot :=
  snapstore.NewSnapshot (now w) SnapshotKindDelta
    (add64 (LastRevision (PrevSnapshot s)) 1) (lastEventRevision s) suffix false.

(** The payload of a delta snapshot of the buffer of [s]: the buffer, the
    closing bracket, and the SHA-256 digest of the two. *)
Definition deltaPayload (s : Snapshotter) : list byte :=
  ((events s ++ [x5d]) ++ SHA256.Sum256 (events s ++ [x5d]))%list.

(** The calls [TakeDeltaSnapshot] makes before [store.Save] return no
    error: the modification time of the credentials is read and, if they
    have changed, a snap store is built from them ([st] is that store, and
    else the store of [s]); the compression policy has the suffix
    [suffix]; and the compressor, when it is enabled, turns the payload
    into [stream], which is else the payload itself. *)
Definition delta_prepared (w : World) (s : Snapshotter) (st : SnapStore) (suffix : string)
           (stream : list byte) : Prop :=
  (exists t, GetSnapstoreSecretModifiedTime w = Val t /\
             if After t (lastSecretModifiedTime s) then GetSnapstore w = Val st
             else st = store s) /\
  compressor.GetCompressionSuffix (Enabled (compressionConfig s))
                                  (CompressionPolicy (compressionConfig s)) = Val suffix /\
  (if Enabled (compressionConfig s)
   then CompressSnapshot w (CompressionPolicy (compressionConfig s)) (deltaPayload s) = Val stream
   else stream = deltaPayload s).

(** The snapshots handed to [store.Save] in a record of calls. *)
Fixpoint saved (effects : list Effect) : list Snapshot :=
  match effects with
  | [] => []
  | Save _ snap _ :: rest => snap :: saved rest
  | _ :: rest => saved rest
  end.

(** The test [takeFullSnapshot] makes before it skips a final snapshot,
    [R] being the latest revision of the KV store. *)
Definition skips (isFinal : bool) (R : Z) (s : Snapshotter) : bool :=
  isFinal && IsFinal (PrevSnapshot s)
  && SnapshotKind_eqb (Kind (PrevSnapshot s)) SnapshotKindFull
  && (LastRevision (PrevSnapshot s) =? R).

(** The previous snapshot is a Final Full snapshot at revision [R]. *)
Definition final_full_at (R : Z) (s : Snapshotter) : Prop :=
  IsFinal (PrevSnapshot s) = true /\
  Kind (PrevSnapshot s) = SnapshotKindFull /\
  LastRevision (PrevSnapshot s) = R.

End Design.

(** * Sample inputs *)

Module Sample.
Import Go brtypes Snapshotter.
Open Scope string_scope.
Open Scope Z_scope.

(** A Full snapshot at revision 5. *)
Definition full5 : Snapshot := snapstore.NewSnapshot 1000 SnapshotKindFull 0 5 "" false.

(** An active snapshotter after that snapshot: nothing buffered, delta
    snapshots every twenty seconds, no compression. *)
Definition ssr : Snapshotter :=
  {| lastSecretModifiedTime := 0;
     schedule := fun t => t + 24 * Hour;
     store := 0%nat;
     fullSnapshotTimer := Some (24 * Hour);
     compressionConfig := {| Enabled := false; CompressionPolicy := "gzip" |};
     PrevSnapshot := full5;
     PrevFullSnapshot := Some full5;
     HealthConfig := {| SnapshotLeaseRenewalEnabled := false |};
     deltaSnapshotTimer := Some (20 * Second);
     watchCh := Some 6;
     config := {| FullSnapshotSchedule := "0 */24 * * *";
                  DeltaSnapshotPeriod := 20 * Second;
                  DeltaSnapshotMemoryLimit := 10485760 |};
     events := [];
     PrevDeltaSnapshots := [];
     lastEventRevision := -1;
     SsrState := SnapshotterActive;
     PrevFullSnapshotSucceeded := true;
     trace := [] |}.

(** Three puts, at the revisions 6, 7 and 8. *)
Definition puts : list Event :=
  [ {| Key := [x61]; Value := [x31]; ModRevision := 6 |};
    {| Key := [x62]; Value := [x32]; ModRevision := 7 |};
    {| Key := [x63]; Value := [x33]; ModRevision := 8 |} ].

(** Collaborators that all answer well; the KV store is at revision 8. *)
Definition world : World :=
  {| now := 2000;
     GetSnapstoreSecretModifiedTime := Val 0;
     GetSnapstore := Val 0%nat;
     FailedSnapstore := 0%nat;
     CompressSnapshot := fun _ data => Val data;
     StoreSave := fun _ _ _ => None;
     NewKV := None;
     GetRevision := Val 8;
     NewMaintenance := None;
     DBSnapshot := Val [x64; x62];
     NewWatcher := None;
     Marshal := fun e => Val ([x7b] ++ Key (EtcdEvent e) ++ [x7d])%list |}.

(** The same, but the snap store answers an upload with a transient error. *)
Definition unavailable : error := External Transient "503 Service Unavailable".

Definition world_store_down : World :=
  {| now := 2000;
     GetSnapstoreSecretModifiedTime := Val 0;
     GetSnapstore := Val 0%nat;
     FailedSnapstore := 0%nat;
     CompressSnapshot := fun _ data => Val data;
     StoreSave := fun _ _ _ => Some unavailable;
     NewKV := None;
     GetRevision := Val 8;
     NewMaintenance := None;
     DBSnapshot := Val [x64; x62];
     NewWatcher := None;
     Marshal := fun e => Val ([x7b] ++ Key (EtcdEvent e) ++ [x7d])%list |}.

(** The same snapshotter when it is not the leader's. *)
Definition ssr_inactive : Snapshotter := set_SsrState SnapshotterInactive ssr.

(** The same snapshotter, active, with delta snapshots switched off: a
    period of half a second. *)
Definition ssr_no_delta : Snapshotter :=
  Build_Snapshotter (lastSecretModifiedTime ssr) (schedule ssr) (store ssr)
    (fullSnapshotTimer ssr) (compressionConfig ssr) (PrevSnapshot ssr)
    (PrevFullSnapshot ssr) (HealthConfig ssr) None (watchCh ssr)
    {| FullSnapshotSchedule := FullSnapshotSchedule (config ssr);
       DeltaSnapshotPeriod := Second / 2;
       DeltaSnapshotMemoryLimit := DeltaSnapshotMemoryLimit (config ssr) |}
    (events ssr) (PrevDeltaSnapshots ssr) (lastEventRevision ssr) (SsrState ssr)
    (PrevFullSnapshotSucceeded ssr) (trace ssr).

(** The snapshotter with the three puts in its buffer. *)
Definition ssr_buffered : Snapshotter := snd (aggregate world puts ssr).

End Sample.

Module InitDesign.
Import Go brtypes validator Initializer.
Open Scope string_scope.
Open Scope Z_scope.

(** The snap store is empty: none is configured, or the latest set of
    snapshots found in it is empty. *)
Definition snapstore_empty (w : World) (e : EtcdInitializer) : Prop :=
  match SnapstoreConfig_ e with
  | None => True
  | Some sc =>
      Provider sc = "" \/
      ((exists st, GetSnapstore w = Val st) /\
       GetLatestFullSnapshotAndDeltaSnapList w = Val (None, []))
  end.

(** The options [restoreCorruptData] hands to the restorer: the latest
    snapshots, and the temporary directory as the directory to restore
    into. *)
Definition restoreOptions (e : EtcdInitializer) (baseSnap : option Snapshot)
           (deltaSnapList : list Snapshot) : RestoreOptions :=
  {| Config_ := {| DataDir := partDir (DataDir (Config_ (RestoreOptions_ e))) |};
     BaseSnapshot := baseSnap;
     DeltaSnapList := deltaSnapList;
     OriginalClusterSize := OriginalClusterSize (RestoreOptions_ e) |}.

(** [path] is [dir], or a directory above it, as far as the two spellings
    tell: [path] is no longer than [dir] and starts it. *)
Definition covers (path dir : string) : Prop :=
  (String.length path <= String.length dir)%nat /\ String.prefix path dir = true.

(** The call removes or renames the directory [dir]. *)
Definition removes_or_renames (dir : string) (c : Call) : Prop :=
  match c with
  | RemoveAll path => covers path dir
  | Rename oldpath newpath => covers oldpath dir \/ covers newpath dir
  | _ => False
  end.

End InitDesign.

Module SampleInit.
Import Go brtypes validator Initializer.
Open Scope string_scope.
Open Scope Z_scope.

(** A single member with its data directory and a snap store on S3. *)
Definition initializer : EtcdInitializer :=
  {| SnapstoreConfig_ := Some {| Provider := "S3"; TempDir := "/var/etcd/data/tmp" |};
     RestoreOptions_ := {| Config_ := {| DataDir := "/var/etcd/data/new.etcd" |};
                           BaseSnapshot := None;
                           DeltaSnapList := [];
                           OriginalClusterSize := 1 |};
     ValidatorOriginalClusterSize := 1 |}.


(** The file system and the snap store work; the snap store holds the
    snapshots [latest]; the validator answers [status]. *)
Definition world_with (status : DataDirStatus) (err : option error)
           (latest : option Snapshot * list Snapshot)
           (restore : option error) : World :=
  {| IsMultiNode := false;
     GetKubernetesClientSetOrError := None;
     WasMemberInCluster := false;
     IsClusterScaledUp := Val false;
     AddLearnerWithRetryResult := None;
     Validate := fun _ _ => (status, err);
     GetSnapstore := Val 0%nat;
     GetLatestFullSnapshotAndDeltaSnapList := Val latest;
     NewRestorer := None;
     RestoreAndStopEtcdResult := fun _ => restore;
     os_Stat := fun _ _ => None;
     os_RemoveAll := fun _ _ => None;
     os_Rename := fun _ _ _ => None;
     os_MkdirAll := fun _ _ => None;
     RemoveMemberResult := fun _ => None;
     AddMemberAsLearnerResult := fun _ => None |}.



Definition full10 : Snapshot := snapstore.NewSnapshot 1000 SnapshotKindFull 0 10 "" false.
Definition delta20 : Snapshot := snapstore.NewSnapshot 2000 SnapshotKindDelta 11 20 "" false.

Definition hash_mismatch : error :=
  External RestoreIntegrity "mismatching hash for delta snapshot".

(** The data directory is corrupt, the snap store holds a Full snapshot
    and a Delta snapshot, and the hash of the delta does not match. *)
Definition world_corrupt_delta : World :=
  world_with DataDirectoryCorrupt None (Some full10, [delta20]) (Some hash_mismatch).

(** The same snapshots, and the restoration succeeds. *)
Definition world_restorable : World :=
  world_with DataDirectoryCorrupt None (Some full10, [delta20]) None.

End SampleInit.

(** * The life cycle of the snapshotter *)

(** [NewSnapshotter], [stop], [CollectEventsSincePrevSnapshot] and [Run].
    The calls that only feed metrics or the log are left out. *)

Module Lifecycle.
Import Go brtypes Snapshotter.
Open Scope string_scope.
Open Scope Z_scope.
Open Scope go_scope.

(** The answers [NewSnapshotter] gets from outside the package. *)
Record Environment := {
  (** [cron.ParseStandard(spec)]: the schedule, as its method [Next] *)
  ParseStandard : string -> Res (Time -> Time);
  (** [miscellaneous.GetLatestFullSnapshotAndDeltaSnapList(store)] *)
  GetLatestFullSnapshotAndDeltaSnapList : SnapStore -> Res (option Snapshot * list Snapshot);
  (** [miscellaneous.GetKubernetesClientSetOrError()]: its error *)
  GetKubernetesClientSetOrError : option error
}.

(** The snapshot [NewSnapshotter] takes as the previous one: the Full
    snapshot when no delta follows it, [deltaSnapList[len(deltaSnapList)-1]]
    when deltas follow it, and a made-up Full snapshot at revision 0 when
    the store has no Full snapshot. *)
Definition prevSnapshot (created : Time) (fullSnap : option Snapshot)
           (deltaSnapList : list Snapshot) : Snapshot :=
  match fullSnap with
  | Some full =>
      if Nat.eqb (List.length deltaSnapList) 0 then full
      else List.last deltaSnapList full
  | None => snapstore.NewSnapshot created SnapshotKindFull 0 0 "" false
  end.

(** [NewSnapshotter]; [created] is the time at which [snapstore.NewSnapshot]
    is called.  The fields the struct literal leaves out hold the zero
    value of their type: no timer, no watch, an empty buffer and
    [lastEventRevision = 0]. *)
Definition NewSnapshotter (env : Environment) (created : Time)
           (config : SnapshotterConfig) (store : SnapStore)
           (compressionConfig : CompressionConfig) (healthConfig : brtypes.HealthConfig)
  : Res Snapshotter :=
  match ParseStandard env (FullSnapshotSchedule config) with
  | Fail err =>
      Fail (Errorf "invalid full snapshot schedule provided %s : %v"
                   [ArgStr (FullSnapshotSchedule config); ArgErr err])
  | Val sdl =>
      match GetLatestFullSnapshotAndDeltaSnapList env store with
      | Fail err => Fail err
      | Val (fullSnap, deltaSnapList) =>
          match (if SnapshotLeaseRenewalEnabled healthConfig
                 then GetKubernetesClientSetOrError env else None) with
          | Some err => Fail err
          | None =>
              Val {| lastSecretModifiedTime := 0;
                     schedule := sdl;
                     store := store;
                     fullSnapshotTimer := None;
                     compressionConfig := compressionConfig;
                     PrevSnapshot := prevSnapshot created fullSnap deltaSnapList;
                     PrevFullSnapshot := fullSnap;
                     HealthConfig := healthConfig;
                     deltaSnapshotTimer := None;
                     watchCh := None;
                     config := config;
                     events := [];
                     PrevDeltaSnapshots := deltaSnapList;
                     lastEventRevision := 0;
                     SsrState := SnapshotterInactive;
                     PrevFullSnapshotSucceeded := true;
                     trace := [] |}
          end
      end
  end.

(** How [stop] ends. *)
Inductive Stopped := StopReturns | StopBlocks.

(** [stop].  [fullSnapshotLeaseStopCh] is a channel without buffer that
    [Run] makes: the send on it ends when the goroutine that renews the
    full snapshot lease receives from it, and [receiving] says whether it
    does.  A send that nobody receives never ends: [stop] does not return
    then, and what comes after the send is not done. *)
Definition stop (receiving : bool) (s : Snapshotter) : Stopped * Snapshotter :=
  let s1 := match fullSnapshotTimer s with
            | Some _ => set_fullSnapshotTimer None s
            | None => s
            end in
  let s2 := match deltaSnapshotTimer s1 with
            | Some _ => set_deltaSnapshotTimer None s1
            | None => s1
            end in
  if SnapshotLeaseRenewalEnabled (HealthConfig s2) && negb receiving then (StopBlocks, s2)
  else (StopReturns, snd (closeEtcdClient (snd (SetSnapshotterInactive s2)))).

(** What the [select] of [CollectEventsSincePrevSnapshot] receives: a
    response on [watchCh] ([None] when the channel was closed), or the
    stop signal. *)
Inductive Received :=
| Response (wr : option WatchResponse)
| StopSignal.

(** How far [CollectEventsSincePrevSnapshot] got: it returned
    [(ssrStopped, err)], it panicked on an index out of range, or it waits
    in its [select]. *)
Inductive Collected :=
| CollectReturns (ssrStopped : bool) (err : option error)
| CollectPanics
| CollectWaits.

(** The loop of [CollectEventsSincePrevSnapshot].
    [wr.Events[len(wr.Events)-1]] panics on a response without events. *)
Fixpoint collect (lastEtcdRevision : Z) (inbox : list (Received * World)) (s : Snapshotter)
  : Collected * Snapshotter :=
  match inbox with
  | [] => (CollectWaits, s)
  | (Response None, _) :: _ =>
      (CollectReturns false (Some (Errorf "watch channel closed" [])), s)
  | (Response (Some wr), w) :: rest =>
      match handleDeltaWatchEvents w wr s with
      | (Err err, s') => (CollectReturns false (Some err), s')
      | (Ok _, s') =>
          match last (Events wr) with
          | None => (CollectPanics, s')
          | Some ev =>
              let lastWatchRevision := ModRevision ev in
              if lastEtcdRevision <=? lastWatchRevision then (CollectReturns false None, s')
              else collect lastEtcdRevision rest s'
          end
      end
  | (StopSignal, _) :: _ => (CollectReturns true None, cleanupInMemoryEvents s)
  end.

(** What [CollectEventsSincePrevSnapshot] does before its loop: it reads
    the latest revision of etcd and opens the watch. *)
Definition openWatch (w : World) : Ssr Z :=
  closeEtcdClient ;;;
  check (NewKV w) (fun err => EtcdError "failed to create etcd KV client: %v" [ArgErr err]) ;;;
  lastEtcdRevision <- try (GetRevision w)
                          (fun err => EtcdError "failed to get etcd latest revision: %v" [ArgErr err]) ;;
  check (NewWatcher w)
        (fun err => EtcdError "failed to create etcd watch client for snapshotter: %v" [ArgErr err]) ;;;
  s <- get ;;
  emit (Watch (add64 (LastRevision (PrevSnapshot s)) 1)) ;;;
  modify (set_watchCh (Some (add64 (LastRevision (PrevSnapshot s)) 1))) ;;;
  ret lastEtcdRevision.

(** [CollectEventsSincePrevSnapshot]. *)
Definition CollectEventsSincePrevSnapshot (w : World) (inbox : list (Received * World))
  : Snapshotter -> Collected * Snapshotter :=
  fun s =>
    match openWatch w s with
    | (Err err, s1) => (CollectReturns false (Some err), s1)
    | (Ok lastEtcdRevision, s1) =>
        if LastRevision (PrevSnapshot s1) =? lastEtcdRevision
        then (CollectReturns false None, s1)
        else collect lastEtcdRevision inbox s1
    end.

(** How far [Run] got: it returned, it panicked, its deferred [stop]
    blocks, or it waits for a message. *)
Inductive Ran :=
| RunReturns (err : option error)
| RunPanics
| RunBlocks
| RunWaits.

Section Run.

(** [brtypes.DefaultDeltaSnapshotInterval], which is not among the sources. *)
Variable DefaultDeltaSnapshotInterval : Duration.

(** Whether the goroutine [RenewFullSnapshotLeasePeriodically], once [Run]
    has started it, receives from [fullSnapshotLeaseStopCh]. *)
Variable renewalReceives : bool.

(** [Run] up to the start of the lease renewal: [Some] when [Run] ends
    there.  [w] answers while the events are collected, [w'] when the
    timer is reset. *)
Definition startUp (w w' : World) (collecting : list (Received * World))
           (startWithFullSnapshot : bool) (s : Snapshotter) : option Ran * Snapshotter :=
  if startWithFullSnapshot then (None, set_fullSnapshotTimer (Some 0) s)
  else
    let collected :=
      match watchCh s with
      | None =>
          match CollectEventsSincePrevSnapshot w collecting s with
          | (CollectReturns true _, s1) => (Some (RunReturns None), s1)
          | (CollectReturns false (Some err), s1) =>
              (Some (RunReturns
                       (Some (Errorf "failed to collect events for first delta snapshot(s): %v"
                                     [ArgErr err]))), s1)
          | (CollectReturns false None, s1) => (None, s1)
          | (CollectPanics, s1) => (Some RunPanics, s1)
          | (CollectWaits, s1) => (Some RunWaits, s1)
          end
      | Some _ => (None, s)
      end in
    match collected with
    | (Some r, s1) => (Some r, s1)
    | (None, s1) =>
        match resetFullSnapshotTimer w' s1 with
        | (Err err, s2) =>
            (Some (RunReturns (Some (Errorf "failed to reset full snapshot timer: %v"
                                            [ArgErr err]))), s2)
        | (Ok _, s2) => (None, s2)
        end
    end.

(** [defer ssr.stop(fullSnapshotLeaseStopCh)]: [Run] ends in [r] once
    [stop] has returned.  [started] tells whether the renewal goroutine
    was started; nobody else holds the channel. *)
Definition leave (started : bool) (r : Ran) (s : Snapshotter) : Ran * Snapshotter :=
  match stop (started && renewalReceives) s with
  | (StopReturns, s') => (r, s')
  | (StopBlocks, s') => (RunBlocks, s')
  end.

(** [Run]. *)
Definition Run (w w' : World) (collecting : list (Received * World))
           (inbox : list (Msg * World)) (startWithFullSnapshot : bool) (s : Snapshotter)
  : Ran * Snapshotter :=
  match startUp w w' collecting startWithFullSnapshot s with
  | (Some RunWaits, s1) => (RunWaits, s1)
  | (Some r, s1) => leave false r s1
  | (None, s1) =>
      let started := SnapshotLeaseRenewalEnabled (HealthConfig s1) in
      let s2 := set_deltaSnapshotTimer (Some DefaultDeltaSnapshotInterval) s1 in
      let s3 := if DeltaSnapshotIntervalThreshold <=? DeltaSnapshotPeriod (config s2)
                then set_deltaSnapshotTimer (Some (DeltaSnapshotPeriod (config s2))) s2
                else s2 in
      match snapshotEventHandler inbox s3 with
      | (Returned err, s4, _) => leave started (RunReturns err) s4
      | (Waiting, s4, _) => (RunWaits, s4)
      end
  end.

End Run.

End Lifecycle.

(** * What is observed of a run *)

Module Observe.
Import Go brtypes Snapshotter Design.
Open Scope Z_scope.
Open Scope list_scope.

(** Every run of the method [m] takes a state to one that [R] relates to it. *)
Definition steps {A} (R : relation Snapshotter) (m : Ssr A) : Prop :=
  forall s, R s (snd (m s)).

(** [s'] has the record of calls of [s] and, after it, calls that satisfy [P]. *)
Definition adds (P : Effect -> Prop) (s s' : Snapshotter) : Prop :=
  exists new, trace s' = trace s ++ new /\ Forall P new.

(** [s'] is as [s] for what [f] reads. *)
Definition same {B} (f : Snapshotter -> B) (s s' : Snapshotter) : Prop := f s' = f s.

(** The acknowledgements in a record of calls. *)
Definition fullAcks (effects : list Effect) : list result :=
  flat_map (fun e => match e with FullSnapshotAck r => [r] | _ => [] end) effects.

Definition deltaAcks (effects : list Effect) : list result :=
  flat_map (fun e => match e with DeltaSnapshotAck r => [r] | _ => [] end) effects.

Definition acknowledges (e : Effect) : Prop :=
  match e with
  | FullSnapshotAck _ | DeltaSnapshotAck _ => True
  | _ => False
  end.

(** The call is no acknowledgement. *)
Definition quiet (e : Effect) : Prop := ~ acknowledges e.

(** The requests among the messages of an inbox. *)
Definition fullRequests (inbox : list (Msg * World)) : list bool :=
  flat_map (fun m => match fst m with FullSnapshotReq isFinal => [isFinal] | _ => [] end) inbox.

Definition deltaRequests (inbox : list (Msg * World)) : list unit :=
  flat_map (fun m => match fst m with DeltaSnapshotReq => [tt] | _ => [] end) inbox.

(** The call opens or closes a watch. *)
Definition watches (e : Effect) : Prop :=
  match e with
  | Watch _ | CloseWatch => True
  | _ => False
  end.

(** The call renews a lease. *)
Definition renews (e : Effect) : Prop :=
  match e with
  | DeltaSnapshotLeaseUpdate | FullSnapshotLeaseTimerReset _ => True
  | _ => False
  end.

(** The snapshots [snaps], handed to the store in this order after the
    snapshot [prev], form a chain: every Delta snapshot among them starts one
    revision after the end of the snapshot before it. *)
Fixpoint linked (prev : Snapshot) (snaps : list Snapshot) : Prop :=
  match snaps with
  | [] => True
  | snap :: rest =>
      (Kind snap = SnapshotKindDelta ->
       StartRevision snap = add64 (LastRevision prev) 1) /\
      linked snap rest
  end.

(** From [s] to [s'] the calls made add a chain to the previous snapshot
    of [s]; and, when [ok] holds, the previous snapshot of [s'] is the end
    of that chain. *)
Definition chains (ok : bool) (s s' : Snapshotter) : Prop :=
  exists new,
    trace s' = trace s ++ new /\
    linked (PrevSnapshot s) (saved new) /\
    (ok = true -> PrevSnapshot s' = List.last (saved new) (PrevSnapshot s)).

(** The relation [chains] of a run that ended in [r]: the previous
    snapshot is the end of the chain when the run returned no error. *)
Definition chained {A} (r : Out error A) : Snapshotter -> Snapshotter -> Prop :=
  chains (match r with Ok _ => true | Err _ => false end).

(** The state [stop] leaves when it returns: not active, no timer, no
    watch. *)
Definition stopped (s : Snapshotter) : Prop :=
  SsrState s = SnapshotterInactive /\ fullSnapshotTimer s = None /\
  deltaSnapshotTimer s = None /\ watchCh s = None.

(** What no method of the snapshotter changes but [stop] and the setters
    of the state: the configuration, the schedule and the state. *)
Definition settings (s : Snapshotter)
  : brtypes.HealthConfig * SnapshotterState * (Time -> Time) * SnapshotterConfig :=
  (HealthConfig s, SsrState s, schedule s, config s).

(** The elements of a JSON array, with commas between them. *)
Fixpoint separated (js : list (list byte)) : list byte :=
  match js with
  | [] => []
  | [j] => j
  | j :: rest => j ++ x2c :: separated rest
  end.

(** What the events add to a buffer: [[] opens the array when the buffer
    is empty, a comma goes on with it. *)
Definition appended (buffer : list byte) (js : list (list byte)) : list byte :=
  match js with
  | [] => buffer
  | _ => buffer ++ (if Nat.eqb (List.length buffer) 0 then x5b else x2c) :: separated js
  end.

(** The memory limit as [handleDeltaWatchEvents] reads it:
    [int(ssr.config.DeltaSnapshotMemoryLimit)]. *)
Definition memoryLimit (s : Snapshotter) : Z := wrap64 (DeltaSnapshotMemoryLimit (config s)).

(** The buffer is empty or shorter than the memory limit. *)
Definition bounded (s : Snapshotter) : Prop :=
  events s = [] \/ Z.of_nat (List.length (events s)) < memoryLimit s.

(** An ASCII white space byte: tab, line feed, vertical tab, form feed,
    carriage return or space. *)
Definition blank_byte (c : ascii) : bool :=
  let n := nat_of_ascii c in
  ((9 <=? n)%nat && (n <=? 13)%nat) || Nat.eqb n 32.

(** A run of ASCII white space. *)
Fixpoint blank (b : string) : bool :=
  match b with
  | EmptyString => true
  | String c rest => blank_byte c && blank rest
  end.

(** A gap between two fields: white space, and some of it. *)
Definition gap (b : string) : Prop := b <> EmptyString /\ blank b = true.

(** A byte of a cron field: an ASCII byte that is no white space. *)
Definition plain_byte (c : ascii) : bool :=
  (nat_of_ascii c <? 128)%nat && negb (blank_byte c).

Fixpoint plain (f : string) : bool :=
  match f with
  | EmptyString => true
  | String c rest => plain_byte c && plain rest
  end.

(** A cron field: not empty, and made of such bytes. *)
Definition field (f : string) : Prop := f <> EmptyString /\ plain f = true.

End Observe.

(** * More sample inputs *)

Module Sample2.
Import Go brtypes Snapshotter Lifecycle.
Open Scope string_scope.
Open Scope Z_scope.

(** The store holds the Full snapshot at revision 5 and two deltas. *)
Definition delta6 : Snapshot := snapstore.NewSnapshot 1100 SnapshotKindDelta 6 6 "" false.
Definition delta8 : Snapshot := snapstore.NewSnapshot 1200 SnapshotKindDelta 7 8 "" false.

Definition env (latest : option Snapshot * list Snapshot) : Environment :=
  {| ParseStandard := fun _ => Val (fun t => t + 24 * Hour);
     GetLatestFullSnapshotAndDeltaSnapList := fun _ => Val latest;
     GetKubernetesClientSetOrError := None |}.

(** The snapshotter of the samples, with the lease renewal switched on. *)
Definition ssr_leases : Snapshotter :=
  Build_Snapshotter (lastSecretModifiedTime Sample.ssr) (schedule Sample.ssr) (store Sample.ssr)
    None (compressionConfig Sample.ssr) (PrevSnapshot Sample.ssr)
    (PrevFullSnapshot Sample.ssr) {| SnapshotLeaseRenewalEnabled := true |} None None
    (config Sample.ssr) (events Sample.ssr) (PrevDeltaSnapshots Sample.ssr)
    (lastEventRevision Sample.ssr) (SsrState Sample.ssr)
    (PrevFullSnapshotSucceeded Sample.ssr) (trace Sample.ssr).

(** The KV client cannot be made. *)
Definition no_etcd : error := External Transient "context deadline exceeded".

Definition world_no_kv : World :=
  {| now := 2000;
     GetSnapstoreSecretModifiedTime := Val 0;
     GetSnapstore := Val 0%nat;
     FailedSnapstore := 0%nat;
     CompressSnapshot := fun _ data => Val data;
     StoreSave := fun _ _ _ => None;
     NewKV := Some no_etcd;
     GetRevision := Val 8;
     NewMaintenance := None;
     DBSnapshot := Val [x64; x62];
     NewWatcher := None;
     Marshal := fun e => Val ([x7b] ++ Key (EtcdEvent e) ++ [x7d])%list |}.



(** The snapshotter of the samples with a schedule that has no next
    activation. *)
Definition ssr_no_next : Snapshotter :=
  Build_Snapshotter (lastSecretModifiedTime Sample.ssr) (fun _ => 0) (store Sample.ssr)
    (fullSnapshotTimer Sample.ssr) (compressionConfig Sample.ssr) (PrevSnapshot Sample.ssr)
    (PrevFullSnapshot Sample.ssr) (HealthConfig Sample.ssr) (deltaSnapshotTimer Sample.ssr)
    (watchCh Sample.ssr) (config Sample.ssr) (events Sample.ssr)
    (PrevDeltaSnapshots Sample.ssr) (lastEventRevision Sample.ssr) (SsrState Sample.ssr)
    (PrevFullSnapshotSucceeded Sample.ssr) (trace Sample.ssr).

(** The snapshotter of the samples with a memory limit of eight bytes. *)
Definition ssr_small_limit : Snapshotter :=
  Build_Snapshotter (lastSecretModifiedTime Sample.ssr) (schedule Sample.ssr) (store Sample.ssr)
    (fullSnapshotTimer Sample.ssr) (compressionConfig Sample.ssr) (PrevSnapshot Sample.ssr)
    (PrevFullSnapshot Sample.ssr) (HealthConfig Sample.ssr) (deltaSnapshotTimer Sample.ssr)
    (watchCh Sample.ssr)
    {| FullSnapshotSchedule := FullSnapshotSchedule (config Sample.ssr);
       DeltaSnapshotPeriod := DeltaSnapshotPeriod (config Sample.ssr);
       DeltaSnapshotMemoryLimit := 8 |}
    (events Sample.ssr) (PrevDeltaSnapshots Sample.ssr) (lastEventRevision Sample.ssr)
    (SsrState Sample.ssr) (PrevFullSnapshotSucceeded Sample.ssr) (trace Sample.ssr).

(** The snapshotter of the samples before its watch is opened. *)
Definition ssr_unwatched : Snapshotter := set_watchCh None Sample.ssr.

(** A watch response with the three puts, as the sample world renders
    them, and a response without events. *)
Definition response : WatchResponse := {| Events := Sample.puts; WatchErr := None |}.

Definition rendered : list (list byte) := [[x7b; x61; x7d]; [x7b; x62; x7d]; [x7b; x63; x7d]].

Definition empty_response : WatchResponse := {| Events := []; WatchErr := None |}.

End Sample2.

(** * What the initializer calls *)

Module InitObserve.
Import Go brtypes validator Initializer.
Open Scope string_scope.
Open Scope Z_scope.
Open Scope list_scope.

(** Whatever history it starts from, [m] only adds calls to it, and every
    call it adds satisfies [P]. *)
Definition calls {A} (P : Call -> Prop) (m : Init A) : Prop :=
  forall h, exists new, snd (m h) = h ++ new /\ Forall P new.

(** [m] never ends the process. *)
Definition neverExits {A} (m : Init A) : Prop :=
  forall h format args, fst (m h) <> Err (Exit format args).

(** The calls at the end of [Initialize], on the temporary snapshot
    directory. *)
Definition tempDirCall (e : EtcdInitializer) (c : Call) : Prop :=
  match SnapstoreConfig_ e with
  | Some sc => c = RemoveAll (filepath.Join (TempDir sc)) \/ c = MkdirAll (TempDir sc) 448
  | None => False
  end.

(** The calls of [restoreInMultiNode] that come after the removal of the
    member. *)
Definition learnerCall (e : EtcdInitializer) (c : Call) : Prop :=
  let dataDir := DataDir (Config_ (RestoreOptions_ e)) in
  c = RemoveAll (filepath.Join dataDir) \/ c = Stat dataDir \/ c = AddMemberAsLearner.

(** The condition on which [Initialize] restores the member of a cluster
    with [restoreInMultiNode], when the data directory is not valid. *)
Definition restoresMember (e : EtcdInitializer) (status : DataDirStatus)
           (memberHeartbeatPresent : bool) : Prop :=
  status = DataDirStatusInvalidInMultiNode \/
  (1 < ValidatorOriginalClusterSize e /\ status = DataDirectoryCorrupt) \/
  (1 < ValidatorOriginalClusterSize e /\ memberHeartbeatPresent = true).

(** The scale-up of the cluster is detected at the start of
    [Initialize]. *)
Definition scaleUpDetected (w : World) : Prop :=
  IsMultiNode w = true /\ GetKubernetesClientSetOrError w = None /\
  WasMemberInCluster w = false /\ IsClusterScaledUp w = Val true.

(** The call hands the data to the restorer, or renames a directory. *)
Definition restoreCall (c : Call) : Prop :=
  match c with
  | RestoreAndStopEtcd _ | Rename _ _ => True
  | _ => False
  end.

End InitObserve.

Module SampleInit2.
Import Go brtypes validator Initializer.
Open Scope string_scope.
Open Scope Z_scope.

(** A member of a cluster of three. *)
Definition member_of_three : EtcdInitializer :=
  {| SnapstoreConfig_ := SnapstoreConfig_ SampleInit.initializer;
     RestoreOptions_ := {| Config_ := {| DataDir := "/var/etcd/data/new.etcd" |};
                           BaseSnapshot := None;
                           DeltaSnapList := [];
                           OriginalClusterSize := 3 |};
     ValidatorOriginalClusterSize := 3 |}.

Definition no_cluster_config : error := External Configuration "unable to load in-cluster configuration".

Definition member_not_removed : error := External Transient "etcdserver: unhealthy cluster".

(** The world of a member of a cluster: the answers of the Kubernetes
    client, of the scale-up check and of the validator are given, and the
    removal of the member fails [failures] times before it works. *)
Definition cluster_world (clientSet : option error) (scaledUp : Res bool)
           (status : DataDirStatus) (failures : nat) : World :=
  {| IsMultiNode := true;
     GetKubernetesClientSetOrError := clientSet;
     WasMemberInCluster := false;
     IsClusterScaledUp := scaledUp;
     AddLearnerWithRetryResult := None;
     Validate := fun _ _ => (status, None);
     GetSnapstore := Val 0%nat;
     GetLatestFullSnapshotAndDeltaSnapList := Val (Some SampleInit.full10, [SampleInit.delta20]);
     NewRestorer := None;
     RestoreAndStopEtcdResult := fun _ => None;
     os_Stat := fun _ _ => Some (External NotFound "no such file or directory");
     os_RemoveAll := fun _ _ => None;
     os_Rename := fun _ _ _ => None;
     os_MkdirAll := fun _ _ => None;
     RemoveMemberResult :=
       fun h => if (List.length h <? failures)%nat then Some member_not_removed else None;
     AddMemberAsLearnerResult := fun _ => None |}.

(** No snap store is configured. *)
Definition without_store : EtcdInitializer :=
  {| SnapstoreConfig_ := None;
     RestoreOptions_ := RestoreOptions_ member_of_three;
     ValidatorOriginalClusterSize := 1 |}.

End SampleInit2.

(** * Properties *)

(** ** Known answers of the library functions *)

Example sha256_constants :
  List.length SHA256.K = 64%nat /\
  nth 0 SHA256.K 0 = 1116352408 /\ nth 63 SHA256.K 0 = 3329325298 /\
  SHA256.h0 SHA256.init = 1779033703 /\ SHA256.h7 SHA256.init = 1541459225.
Proof. vm_compute. repeat split; reflexivity. Qed.

Example sha256_empty :
  map Go.Z_of_byte (SHA256.Sum256 []) =
  [227; 176; 196; 66; 152; 252; 28; 20; 154; 251; 244; 200; 153; 111; 185; 36;
   39; 174; 65; 228; 100; 155; 147; 76; 164; 149; 153; 27; 120; 82; 184; 85].
Proof. vm_compute. reflexivity. Qed.

Example sha256_abc :
  map Go.Z_of_byte (SHA256.Sum256 [x61; x62; x63]) =
  [186; 120; 22; 191; 143; 1; 207; 234; 65; 65; 64; 222; 93; 174; 34; 35;
   176; 3; 97; 163; 150; 23; 122; 156; 180; 16; 255; 97; 242; 0; 21; 173].
Proof. vm_compute. reflexivity. Qed.

(** A message of two blocks: a hundred bytes [a]. *)
Example sha256_two_blocks :
  map Go.Z_of_byte (SHA256.Sum256 (repeat x61 100)) =
  [40; 22; 89; 120; 136; 228; 160; 211; 163; 107; 130; 184; 51; 22; 171; 50;
   104; 14; 184; 240; 15; 140; 211; 185; 4; 214; 129; 36; 109; 40; 90; 14].
Proof. vm_compute. reflexivity. Qed.

Example hours_of_ninety_minutes : Go.Hours (90 * 60 * Go.Second) = 1.5%float.
Proof. reflexivity. Qed.

Example fields_of_default_schedule :
  Strings.Fields "0 */24 * * *" = ["0"; "*/24"; "*"; "*"; "*"]%string.
Proof. reflexivity. Qed.

Example fields_skip_unicode_space :
  Strings.Fields (String (ascii_of_nat 194) (String (ascii_of_nat 160) "a  b"))
  = ["a"; "b"]%string.
Proof. reflexivity. Qed.

Example clean_paths :
  map filepath.Clean ["/var/etcd/data"; "a//b/./c/.."; "../x"; "/.."; "x/"; "a/../../b"]%string
  = ["/var/etcd/data"; "a/b"; "../x"; "/"; "x"; "../b"]%string.
Proof. reflexivity. Qed.

(** ** The snapshotter *)

Section SnapshotterFacts.
Import Go brtypes Snapshotter.
Open Scope Z_scope.

(** *** The in-memory buffer after a snapshot *)

Lemma defer_cleanup_state {A} (body : Ssr A) (s : Snapshotter) :
  snd (defer cleanupInMemoryEvents body s) = cleanupInMemoryEvents (snd (body s)).
Proof. unfold defer. destruct (body s) as [r s']. reflexivity. Qed.

Lemma defer_cleanup_result {A} (body : Ssr A) (s : Snapshotter) :
  fst (defer cleanupInMemoryEvents body s) = fst (body s).
Proof. unfold defer. destruct (body s) as [r s']. reflexivity. Qed.

(** C10.  Whatever [takeFullSnapshot] or [TakeDeltaSnapshot] returns (a
    snapshot, the [nil, nil] of a skip, or an error), the event buffer is
    empty and [lastEventRevision] is [-1] when it has returned.  In
    particular a delta snapshot whose upload failed leaves no buffered
    event behind for a retry. *)
Theorem buffer_empty_after_snapshot (isFinal : bool) (w : World) (s : Snapshotter) :
  let full := takeFullSnapshot isFinal w s in
  let delta := TakeDeltaSnapshot w s in
  (events (snd full) = [] /\ lastEventRevision (snd full) = -1) /\
  (events (snd delta) = [] /\ lastEventRevision (snd delta) = -1) /\
  (forall err, fst delta = Err err ->
               events (snd delta) = [] /\ lastEventRevision (snd delta) = -1).
Proof.
  cbv zeta. unfold takeFullSnapshot, TakeDeltaSnapshot.
  rewrite !defer_cleanup_state.
  repeat split; reflexivity.
Qed.

(** *** Triggers on a snapshotter that is not active *)

Lemma not_active_eqb (s : Snapshotter) :
  SsrState s <> SnapshotterActive ->
  negb (SnapshotterState_eqb (SsrState s) SnapshotterActive) = true.
Proof. destruct (SsrState s); [reflexivity | congruence]. Qed.

(** C9.  While the snapshotter is not [Active], [TriggerFullSnapshot] and
    [TriggerDeltaSnapshot] return a nil snapshot with the error
    "snapshotter is not active" and send no request; and
    [TriggerDeltaSnapshot] returns a nil snapshot with an error, again
    without a request, when the delta snapshot period is below the
    threshold of one second. *)
Theorem trigger_rejected (s : Snapshotter) (isFinal : bool) (ack : result) :
  (SsrState s <> SnapshotterActive ->
   TriggerFullSnapshot s isFinal
     = TReturn (None, Some (Errorf "snapshotter is not active" [])) /\
   TriggerDeltaSnapshot s
     = TReturn (None, Some (Errorf "snapshotter is not active" [])) /\
   requests ack (TriggerFullSnapshot s isFinal) = [] /\
   requests ack (TriggerDeltaSnapshot s) = []) /\
  (DeltaSnapshotPeriod (config s) < DeltaSnapshotIntervalThreshold ->
   (exists err, TriggerDeltaSnapshot s = TReturn (None, Some err)) /\
   requests ack (TriggerDeltaSnapshot s) = []).
Proof.
  split.
  - intros Hna. unfold TriggerFullSnapshot, TriggerDeltaSnapshot.
    rewrite (not_active_eqb s Hna). repeat split; reflexivity.
  - intros Hlt. unfold TriggerDeltaSnapshot.
    destruct (negb (SnapshotterState_eqb (SsrState s) SnapshotterActive)).
    + split; [eexists; reflexivity | reflexivity].
    + destruct (Z.ltb_spec (DeltaSnapshotPeriod (config s)) DeltaSnapshotIntervalThreshold)
        as [_ | Hge]; [| lia].
      split; [eexists; reflexivity | reflexivity].
Qed.

End SnapshotterFacts.

(** The sample runs of C9: triggers on a snapshotter that is not active,
    and a delta trigger on an active one whose period is half a second. *)
Lemma trigger_rejected_sample :
  let nobody := {| Snapshotter.ResSnapshot := None; Snapshotter.ResErr := None |} in
  (Snapshotter.SsrState Sample.ssr_inactive <> brtypes.SnapshotterActive /\
   Snapshotter.TriggerFullSnapshot Sample.ssr_inactive true
   = Snapshotter.TReturn (None, Some (Go.Errorf "snapshotter is not active" [])) /\
   Snapshotter.TriggerDeltaSnapshot Sample.ssr_inactive
   = Snapshotter.TReturn (None, Some (Go.Errorf "snapshotter is not active" []))) /\
  (Snapshotter.SsrState Sample.ssr_no_delta = brtypes.SnapshotterActive /\
   (brtypes.DeltaSnapshotPeriod (Snapshotter.config Sample.ssr_no_delta)
    < brtypes.DeltaSnapshotIntervalThreshold)%Z /\
   (exists err, Snapshotter.TriggerDeltaSnapshot Sample.ssr_no_delta
                = Snapshotter.TReturn (None, Some err)) /\
   Snapshotter.requests nobody (Snapshotter.TriggerDeltaSnapshot Sample.ssr_no_delta) = []).
Proof.
  cbv zeta. split.
  - assert (Hna : Snapshotter.SsrState Sample.ssr_inactive <> brtypes.SnapshotterActive)
      by discriminate.
    split; [exact Hna |].
    destruct (trigger_rejected Sample.ssr_inactive true
                {| Snapshotter.ResSnapshot := None; Snapshotter.ResErr := None |})
      as [Hrejected _].
    destruct (Hrejected Hna) as (Hfull & Hdelta & _).
    split; [exact Hfull | exact Hdelta].
  - assert (Hlow : (brtypes.DeltaSnapshotPeriod (Snapshotter.config Sample.ssr_no_delta)
                    < brtypes.DeltaSnapshotIntervalThreshold)%Z)
      by (vm_compute; reflexivity).
    split; [reflexivity |]. split; [exact Hlow |].
    destruct (trigger_rejected Sample.ssr_no_delta false
                {| Snapshotter.ResSnapshot := None; Snapshotter.ResErr := None |})
      as [_ Hdisabled].
    exact (Hdisabled Hlow).
Defined.

(** ** Startup decision and time window *)

Section StartupFacts.
Import Go brtypes Snapshotter Design.
Open Scope string_scope.
Open Scope Z_scope.

Variable GetPrevScheduledSnapTime : Time -> float -> TimeValue.



End StartupFacts.

(** C7 as it was stated fails.  The previous Full snapshot was created at
    the instant of the previous scheduled slot, in UTC; the slot comes as
    a time at the same instant in another [Location].  No condition of the
    design holds, for the slot was not missed; yet [==] finds the two
    times different, the next slot lies beyond the time window, and
    [IsFullSnapshotRequiredAtStartup] answers [true]. *)
Lemma same_instant_other_location_is_missed :
  let slot := fun (_ : Go.Time) (_ : float) =>
                {| Go.instant := 1000; Go.monotonic := None; Go.loc := Some 1%nat |} in
  let c := {| Go.readings := fun _ => 2000; Go.ticks := 0 |} in
  Snapshotter.PrevFullSnapshot Sample.ssr = Some Sample.full5 /\
  Go.instant (slot 0 24%float) = Go.instant (brtypes.CreatedOn Sample.full5) /\
  ~ Design.full_snapshot_required_by_slot slot Sample.ssr 24%float c /\
  fst (Snapshotter.IsFullSnapshotRequiredAtStartup slot Sample.ssr 24%float c) = true.
Proof.
  cbv zeta. split; [reflexivity |]. split; [reflexivity |]. split; [| vm_compute; reflexivity].
  unfold Design.full_snapshot_required_by_slot, Design.required_at_startup, Design.slot_missed.
  intros [Hnone | (prev & Hp & [Hf | [Hs | [Ho | [Hm _]]]])].
  - discriminate.
  - injection Hp as <-. discriminate.
  - discriminate.
  - injection Hp as <-. vm_compute in Ho. discriminate.
  - injection Hp as <-. apply Hm. reflexivity.
Qed.

Section TimeWindowFacts.
Import Go brtypes Snapshotter Design.
Open Scope string_scope.
Open Scope Z_scope.

Lemma substring_all (s : string) : String.substring 0 (String.length s) s = s.
Proof. induction s as [| c s IH]; simpl; [reflexivity | now rewrite IH]. Qed.

Lemma from_succ (i : nat) (c : ascii) (s : string) :
  Strings.from (Z.of_nat (S i)) (String c s) = Strings.from (Z.of_nat i) s.
Proof.
  unfold Strings.from. rewrite !Nat2Z.id. reflexivity.
Qed.

Lemma from_zero (s : string) : Strings.from 0 s = s.
Proof. unfold Strings.from. simpl. rewrite Nat.sub_0_r. apply substring_all. Qed.

(** The slice the source takes, [field[strings.Index(field, "/")+1:]], is
    what follows the first [/]. *)
Lemma slice_after_index (field : string) :
  Strings.ContainsSlash field = true ->
  Strings.from (Strings.IndexSlash field + 1) field = after_first_slash field.
Proof.
  unfold Strings.ContainsSlash, Strings.IndexSlash.
  induction field as [| c rest IH]; simpl; [discriminate |].
  destruct (Ascii.eqb c "/") eqn:Hc.
  - intros _. change (Z.of_nat 0 + 1) with (Z.of_nat 1).
    rewrite from_succ. apply from_zero.
  - destruct (Strings.IndexByte rest "/") as [i |] eqn:Hi; [| discriminate].
    intros _. specialize (IH eq_refl).
    replace (Z.of_nat (S i) + 1) with (Z.of_nat (S (S i))) by lia.
    rewrite from_succ.
    replace (Z.of_nat (S i)) with (Z.of_nat i + 1) by lia.
    exact IH.
Qed.

Variable ParseFloat : string -> Res float.

(** C8, as the code has it.  With the fields of the schedule split at
    white space: fewer than five fields give the default of 24 hours; a
    day-of-week field other than [*] gives 24 * 7 = 168; when day-of-month
    and day-of-week are both [*] and the hours field has a [/], what
    follows the FIRST [/] is parsed and, when it parses to [N], [N] is the
    window; every other schedule gives 24. *)
Theorem max_time_window (fullSnapScheduleSpec : string) :
  let fields := Strings.Fields fullSnapScheduleSpec in
  let hours := nth hour fields "" in
  let window := GetFullSnapshotMaxTimeWindow ParseFloat fullSnapScheduleSpec in
  ((List.length fields < 5)%nat -> window = 24%float) /\
  ((5 <= List.length fields)%nat -> nth dayOfWeek fields "" <> "*" -> window = 168%float) /\
  ((5 <= List.length fields)%nat -> nth dayOfWeek fields "" = "*" ->
   nth dayOfMonth fields "" = "*" -> Strings.ContainsSlash hours = true ->
   forall N, ParseFloat (after_first_slash hours) = Val N -> window = N) /\
  ((5 <= List.length fields)%nat -> nth dayOfWeek fields "" = "*" ->
   (nth dayOfMonth fields "" <> "*" \/ Strings.ContainsSlash hours = false \/
    exists err, ParseFloat (after_first_slash hours) = Fail err) ->
   window = 24%float).
Proof.
  cbv zeta. unfold GetFullSnapshotMaxTimeWindow.
  set (fields := Strings.Fields fullSnapScheduleSpec).
  change (float64_of_Z defaultFullSnapMaxTimeWindow) with 24%float.
  change (float64_of_Z (defaultFullSnapMaxTimeWindow * 7)) with 168%float.
  destruct (Nat.ltb_spec (List.length fields) 5) as [Hlt | Hge].
  { repeat split; intros; solve [reflexivity | lia]. }
  split; [intros; lia |].
  destruct (String.eqb_spec (nth dayOfWeek fields "") "*") as [Hdow | Hdow]; simpl.
  2:{ repeat split; intros; solve [reflexivity | congruence]. }
  split; [intros; congruence |].
  destruct (String.eqb_spec (nth dayOfMonth fields "") "*") as [Hdom | Hdom]; simpl.
  2:{ split; intros; solve [reflexivity | congruence]. }
  destruct (Strings.ContainsSlash (nth hour fields "")) eqn:Hslash.
  2:{ split; intros; solve [reflexivity | congruence]. }
  rewrite (slice_after_index _ Hslash).
  split.
  - intros _ _ _ _ N HN. rewrite HN. reflexivity.
  - intros _ _ [Hd | [Hs | [err Herr]]]; [congruence | discriminate |].
    rewrite Herr. reflexivity.
Qed.

End TimeWindowFacts.

(** The default schedule, "0 */24 * * *", has the window 24. *)
Lemma max_time_window_default_schedule :
  Snapshotter.GetFullSnapshotMaxTimeWindow Design.ParseFloat_digits "0 */24 * * *" = 24%float.
Proof.
  destruct (max_time_window Design.ParseFloat_digits "0 */24 * * *") as (_ & _ & Hstep & _).
  apply Hstep; reflexivity.
Defined.

(** C8 as it was stated fails: in the schedule "0 */2,*/3 * * *" (every
    second and every third hour) day-of-month and day-of-week are [*] and
    the hours field has a [/]; what follows its LAST [/] is "3", which
    parses to 3, yet the window is the default 24: the source parses what
    follows the first [/], "2,*/3", which is no number. *)
Lemma max_time_window_last_slash_counterexample :
  let spec := "0 */2,*/3 * * *"%string in
  let fields := Strings.Fields spec in
  let hours := nth Snapshotter.hour fields ""%string in
  List.length fields = 5%nat /\
  nth Snapshotter.dayOfMonth fields ""%string = "*"%string /\
  nth Snapshotter.dayOfWeek fields ""%string = "*"%string /\
  Strings.ContainsSlash hours = true /\
  Design.after_last_slash hours = "3"%string /\
  Design.ParseFloat_digits (Design.after_last_slash hours) = Go.Val 3%float /\
  Snapshotter.GetFullSnapshotMaxTimeWindow Design.ParseFloat_digits spec = 24%float /\
  Snapshotter.GetFullSnapshotMaxTimeWindow Design.ParseFloat_digits spec <> 3%float.
Proof.
  cbv zeta. repeat split; try reflexivity.
  intros H. apply (f_equal (fun x => PrimFloat.eqb x 3%float)) in H.
  vm_compute in H. discriminate.
Qed.

(** ** Delta snapshots *)

Section DeltaFacts.
Import Go brtypes Snapshotter Design.
Open Scope Z_scope.
Open Scope list_scope.

Lemma wrap64_small (z : Z) : int64_range z -> wrap64 z = z.
Proof.
  unfold int64_range, MinInt64, MaxInt64, wrap64. intros Hz.
  rewrite Z.mod_small; lia.
Qed.

Lemma sum256_length (data : list byte) : List.length (SHA256.Sum256 data) = 32%nat.
Proof. unfold SHA256.Sum256, SHA256.digest_bytes. rewrite length_map. reflexivity. Qed.

Lemma refreshSnapstore_frame (w : World) (s : Snapshotter) :
  same_snapshots s (snd (refreshSnapstore w s)) /\
  trace (snd (refreshSnapstore w s)) = trace s /\
  watchCh (snd (refreshSnapstore w s)) = watchCh s.
Proof.
  unfold refreshSnapstore, hasSnapStoreSecretUpdated, wrapErr, bind, try, get, modify, ret, fail.
  destruct (GetSnapstoreSecretModifiedTime w) as [t | e]; [| repeat split].
  destruct (negb (After t (lastSecretModifiedTime s))); [repeat split |].
  destruct (GetSnapstore w) as [st | e]; repeat split.
Qed.

(** Every event the loop of [handleDeltaWatchEvents] appends leaves the
    buffer non-empty and its [ModRevision] in [lastEventRevision]; the
    previous snapshot and the record of calls stay as they are. *)
Lemma aggregate_last (w : World) (evs : list Event) :
  forall (s0 s : Snapshotter) (ev : Event),
    last evs = Some ev ->
    aggregate w evs s0 = (Ok tt, s) ->
    events s <> [] /\ lastEventRevision s = ModRevision ev /\
    PrevSnapshot s = PrevSnapshot s0 /\ trace s = trace s0.
Proof.
  induction evs as [| e rest IH]; intros s0 s ev Hlast Hrun; [discriminate |].
  simpl in Hrun.
  cbv beta iota zeta delta [bind get modify ret fail try] in Hrun.
  destruct (Marshal w (newEvent w e)) as [jsonByte | err]; [| discriminate].
  destruct rest as [| e' rest'].
  - simpl in Hrun. injection Hlast as <-. injection Hrun as <-.
    destruct (Nat.eqb (List.length (events s0)) 0); cbn.
    all: repeat split; try reflexivity.
    all: intros Hnil; apply app_eq_nil in Hnil as [Hnil _].
    all: apply app_eq_nil in Hnil as [_ Hnil]; discriminate.
  - change (last (e :: e' :: rest')) with (last (e' :: rest')) in Hlast.
    destruct (IH _ _ _ Hlast Hrun) as (Hne & Hrev & Hprev & Htrace).
    repeat split; [exact Hne | exact Hrev | |].
    + rewrite Hprev. destruct (Nat.eqb (List.length (events s0)) 0); reflexivity.
    + rewrite Htrace. destruct (Nat.eqb (List.length (events s0)) 0); reflexivity.
Qed.

(** What [TakeDeltaSnapshot] does on a buffer that is not empty: it stops
    before anything leaves the snapshotter, or the compressor fails on the
    payload, or the payload (compressed when compression is enabled) is
    saved under the descriptor [deltaSnapshot]. *)
Lemma TakeDeltaSnapshot_nonempty (w : World) (s : Snapshotter) :
  events s <> [] ->
  let run := TakeDeltaSnapshot w s in
  let policy := CompressionPolicy (compressionConfig s) in
  let enabled := Enabled (compressionConfig s) in
  exists (st : SnapStore) (suffix : string) (new : list Effect),
    trace (snd run) = trace s ++ new /\
    ((new = [] /\ exists err, fst run = Err err) \/
     (enabled = true /\ new = [Compress policy (deltaPayload s)] /\
      exists err, CompressSnapshot w policy (deltaPayload s) = Fail err /\
                  fst run = Err (Errorf "unable to compress delta snapshot: %v" [ArgErr err])) \/
     (exists stream,
         (if enabled then CompressSnapshot w policy (deltaPayload s) = Val stream
          else stream = deltaPayload s) /\
         new = (if enabled then [Compress policy (deltaPayload s)] else [])
                 ++ [Save st (deltaSnapshot w s suffix) stream] /\
         match StoreSave w st (deltaSnapshot w s suffix) stream with
         | None => fst run = Ok (Some (deltaSnapshot w s suffix)) /\
                   PrevSnapshot (snd run) = deltaSnapshot w s suffix /\
                   PrevDeltaSnapshots (snd run)
                   = PrevDeltaSnapshots s ++ [deltaSnapshot w s suffix]
         | Some err => fst run = Err err /\
                       PrevSnapshot (snd run) = PrevSnapshot s /\
                       PrevDeltaSnapshots (snd run) = PrevDeltaSnapshots s
         end)).
Proof.
  intros Hne. cbv zeta.
  cbv beta iota zeta delta
      [TakeDeltaSnapshot defer TakeDeltaSnapshot_body bind get modify ret fail try check emit].
  assert (Hlen : Nat.eqb (List.length (events s)) 0 = false)
    by (destruct (events s); [congruence | reflexivity]).
  rewrite Hlen.
  pose proof (refreshSnapstore_frame w (set_events (events s ++ [x5d]) s)) as Hfr.
  destruct (refreshSnapstore w (set_events (events s ++ [x5d]) s)) as [r0 s1].
  destruct Hfr as ([_ _ Hcc Hps _ _ _ _ Hevs Hpd Hler _ _] & Htr & _). cbn in *.
  unfold deltaPayload, deltaSnapshot.
  exists (store s1).
  destruct r0 as [_ | err0].
  2:{ exists ""%string, []. cbn. rewrite Htr, app_nil_r. split; [reflexivity |]. left. eauto. }
  rewrite Hcc.
  destruct (compressor.GetCompressionSuffix (Enabled (compressionConfig s))
              (CompressionPolicy (compressionConfig s))) as [suffix | err1].
  2:{ exists ""%string, []. cbn. rewrite Htr, app_nil_r. split; [reflexivity |]. left. eauto. }
  exists suffix. cbn. rewrite Hcc, Hevs, Hps, Hler. unfold SHA256.Sum.
  destruct (Enabled (compressionConfig s)).
  - destruct (CompressSnapshot w (CompressionPolicy (compressionConfig s))
                ((events s ++ [x5d]) ++ SHA256.Sum256 (events s ++ [x5d])))
      as [stream | err2] eqn:Hc.
    + eexists. cbn. rewrite Htr.
      match goal with
      | |- context [StoreSave w ?a ?b ?c] => destruct (StoreSave w a b c) eqn:Hsave
      end; cbn.
      all: split; [rewrite <- app_assoc; reflexivity |].
      all: right; right; exists stream; rewrite Hsave; cbn.
      all: rewrite ?Hps, ?Hpd; auto.
    + eexists. cbn. rewrite Htr. split; [reflexivity |].
      right; left. eauto.
  - eexists. cbn. rewrite Htr.
    match goal with
    | |- context [StoreSave w ?a ?b ?c] => destruct (StoreSave w a b c) eqn:Hsave
    end; cbn.
    all: split; [reflexivity |].
    all: right; right; eexists; split; [reflexivity |]; rewrite Hsave; cbn.
    all: rewrite ?Hps, ?Hpd; auto.
Qed.

(** When the calls before [store.Save] return no error, [TakeDeltaSnapshot]
    gets as far as [store.Save]: the payload goes through the compressor,
    if it is enabled, and is saved under the descriptor [deltaSnapshot];
    what [store.Save] answers is what [TakeDeltaSnapshot] returns. *)
Lemma TakeDeltaSnapshot_prepared (w : World) (s : Snapshotter) (st : SnapStore)
      (suffix : string) (stream : list byte) :
  events s <> [] ->
  delta_prepared w s st suffix stream ->
  let run := TakeDeltaSnapshot w s in
  let snap := deltaSnapshot w s suffix in
  trace (snd run)
  = trace s ++ (if Enabled (compressionConfig s)
                then [Compress (CompressionPolicy (compressionConfig s)) (deltaPayload s)]
                else []) ++ [Save st snap stream] /\
  match StoreSave w st snap stream with
  | None => fst run = Ok (Some snap)
  | Some err => fst run = Err err
  end.
Proof.
  intros Hne ((t & Ht & Hstore) & Hsuffix & Hstream). cbv zeta.
  assert (Hlen : Nat.eqb (List.length (events s)) 0 = false)
    by (destruct (events s); [congruence | reflexivity]).
  unfold deltaSnapshot, deltaPayload in *.
  cbv beta iota zeta delta
      [TakeDeltaSnapshot defer TakeDeltaSnapshot_body refreshSnapstore hasSnapStoreSecretUpdated
       wrapErr bind get modify ret fail try check emit].
  rewrite Hlen, Ht. cbn -[SHA256.Sum256].
  destruct (After t (lastSecretModifiedTime s)); cbn -[SHA256.Sum256].
  - rewrite Hstore. cbn -[SHA256.Sum256]. rewrite Hsuffix. cbn -[SHA256.Sum256]. unfold SHA256.Sum.
    destruct (Enabled (compressionConfig s)); cbn -[SHA256.Sum256].
    + rewrite Hstream. cbn -[SHA256.Sum256].
      destruct (StoreSave w st _ stream); cbn -[SHA256.Sum256]; (split; [rewrite <- app_assoc |]; reflexivity).
    + subst stream.
      destruct (StoreSave w st _ _); cbn -[SHA256.Sum256]; (split; reflexivity).
  - subst st. rewrite Hsuffix. cbn -[SHA256.Sum256]. unfold SHA256.Sum.
    destruct (Enabled (compressionConfig s)); cbn -[SHA256.Sum256].
    + rewrite Hstream. cbn -[SHA256.Sum256].
      destruct (StoreSave w (store s) _ stream); cbn -[SHA256.Sum256];
        (split; [rewrite <- app_assoc |]; reflexivity).
    + subst stream.
      destruct (StoreSave w (store s) _ _); cbn -[SHA256.Sum256]; (split; reflexivity).
Qed.

Lemma saved_app (l1 l2 : list Effect) : saved (l1 ++ l2) = saved l1 ++ saved l2.
Proof.
  induction l1 as [| e l1 IH]; [reflexivity |].
  destruct e; simpl; rewrite IH; reflexivity.
Qed.

(** C1.  For every buffer that is not empty, [TakeDeltaSnapshot] builds
    a delta snapshot whose [StartRevision] is [PrevSnapshot.LastRevision
    + 1], the sum being that of [int64], and whose [LastRevision] is
    [lastEventRevision]: when the calls before [store.Save] return no
    error, this snapshot is handed to [store.Save], it is the only one,
    and it is returned when [store.Save] returns no error.  Every delta
    snapshot [TakeDeltaSnapshot] hands to the snap store or returns has
    these revisions; and [lastEventRevision] is the [ModRevision] of the
    last event [handleDeltaWatchEvents] appended to the buffer.  Hence,
    when [lastEventRevision] is greater than the [LastRevision] of the
    previous snapshot, the sum does not wrap and
    [StartRevision <= LastRevision]. *)
Theorem delta_snapshot_revisions (w : World) (s : Snapshotter) :
  events s <> [] ->
  let run := TakeDeltaSnapshot w s in
  let prev := LastRevision (PrevSnapshot s) in
  (forall (st : SnapStore) (suffix : string) (stream : list byte),
      delta_prepared w s st suffix stream ->
      exists (snap : Snapshot) (new : list Effect),
        trace (snd run) = trace s ++ new /\
        In (Save st snap stream) new /\ saved new = [snap] /\
        Kind snap = SnapshotKindDelta /\
        StartRevision snap = add64 prev 1 /\
        LastRevision snap = lastEventRevision s /\
        match StoreSave w st snap stream with
        | None => fst run = Ok (Some snap)
        | Some err => fst run = Err err
        end) /\
  (forall (new : list Effect) (snap : Snapshot),
      trace (snd run) = trace s ++ new ->
      In snap (saved new) \/ fst run = Ok (Some snap) ->
      Kind snap = SnapshotKindDelta /\
      StartRevision snap = add64 prev 1 /\
      LastRevision snap = lastEventRevision s /\
      (int64_range prev -> int64_range (lastEventRevision s) ->
       prev < lastEventRevision s ->
       StartRevision snap = prev + 1 /\ StartRevision snap <= LastRevision snap)) /\
  (forall (w0 : World) (s0 : Snapshotter) (evs : list Event) (ev : Event),
      last evs = Some ev ->
      aggregate w0 evs s0 = (Ok tt, s) ->
      lastEventRevision s = ModRevision ev /\ PrevSnapshot s = PrevSnapshot s0).
Proof.
  intros Hne. cbv zeta. split; [| split].
  3:{ intros w0 s0 evs ev Hlast Hagg.
      destruct (aggregate_last w0 evs s0 s ev Hlast Hagg) as (_ & Hrev & Hprev & _).
      auto. }
  { intros st suffix stream Hprep.
    destruct (TakeDeltaSnapshot_prepared w s st suffix stream Hne Hprep) as [Htrace Hres].
    cbv zeta in Htrace, Hres.
    exists (deltaSnapshot w s suffix). eexists. split; [exact Htrace |].
    split; [apply in_or_app; right; left; reflexivity |].
    split; [rewrite saved_app; destruct (Enabled (compressionConfig s)); reflexivity |].
    repeat split. exact Hres. }
  intros new snap Htrace Hbuilt.
  destruct (TakeDeltaSnapshot_nonempty w s Hne) as (st & suffix & new' & Htrace' & Hcases).
  cbv zeta in Hcases.
  rewrite Htrace' in Htrace. apply app_inv_head in Htrace. subst new'.
  assert (Hsnap : snap = deltaSnapshot w s suffix).
  { destruct Hcases as [(-> & err & Herr) | [(_ & -> & err & _ & Herr) | Hsave]].
    - destruct Hbuilt as [[] | Hok]. congruence.
    - destruct Hbuilt as [[] | Hok]. congruence.
    - destruct Hsave as (stream & _ & -> & Hres).
      destruct Hbuilt as [Hin | Hok].
      + rewrite saved_app in Hin. simpl in Hin.
        destruct (Enabled (compressionConfig s)); simpl in Hin.
        all: destruct Hin as [<- | []]; reflexivity.
      + destruct (StoreSave w st (deltaSnapshot w s suffix) stream).
        * destruct Hres as (Herr & _). congruence.
        * destruct Hres as (Hres & _). congruence. }
  subst snap. unfold deltaSnapshot. cbn.
  repeat split.
  - unfold add64. rewrite wrap64_small; [reflexivity |].
    unfold int64_range, MinInt64, MaxInt64 in *. lia.
  - unfold add64. rewrite wrap64_small; [lia |].
    unfold int64_range, MinInt64, MaxInt64 in *. lia.
Qed.

(** C2.  For a buffer [B] that is not empty, what [TakeDeltaSnapshot] hands
    over is [B ++ "]" ++ SHA256(B ++ "]")], the digest being 32 raw bytes.
    When the calls before [store.Save] return no error, the calls are
    these, in this order: the compressor, only when compression is
    enabled, gets exactly this payload, and [store.Save] gets the
    compressor's output for it, or the payload itself when compression is
    off.  Whatever the collaborators answer, no other payload goes to the
    compressor or to [store.Save], and a snapshot is returned only after
    such a [Save]. *)
Theorem delta_snapshot_payload (w : World) (s : Snapshotter) :
  events s <> [] ->
  let run := TakeDeltaSnapshot w s in
  let policy := CompressionPolicy (compressionConfig s) in
  let enabled := Enabled (compressionConfig s) in
  let buffer := events s ++ [x5d] in
  let payload := buffer ++ SHA256.Sum256 buffer in
  List.length (SHA256.Sum256 buffer) = 32%nat /\
  (forall (st : SnapStore) (suffix : string) (stream : list byte),
      delta_prepared w s st suffix stream ->
      exists snap : Snapshot,
        trace (snd run)
        = trace s ++ (if enabled then [Compress policy payload; Save st snap stream]
                      else [Save st snap payload]) /\
        (if enabled then CompressSnapshot w policy payload = Val stream
         else stream = payload)) /\
  forall new : list Effect,
    trace (snd run) = trace s ++ new ->
    (forall p data, In (Compress p data) new ->
                    enabled = true /\ p = policy /\ data = payload) /\
    (forall st snap stream, In (Save st snap stream) new ->
                            if enabled
                            then In (Compress policy payload) new /\
                                 CompressSnapshot w policy payload = Val stream
                            else stream = payload) /\
    (forall snap, fst run = Ok (Some snap) ->
                  exists st stream, In (Save st snap stream) new).
Proof.
  intros Hne. cbv zeta.
  split; [apply sum256_length |].
  split.
  { intros st suffix stream Hprep.
    destruct (TakeDeltaSnapshot_prepared w s st suffix stream Hne Hprep) as [Htrace _].
    cbv zeta in Htrace. unfold deltaPayload in Htrace.
    destruct Hprep as (_ & _ & Hstream). unfold deltaPayload in Hstream.
    exists (deltaSnapshot w s suffix). rewrite Htrace.
    destruct (Enabled (compressionConfig s)); [split; [reflexivity | exact Hstream] |].
    subst stream. split; reflexivity. }
  intros new Htrace.
  destruct (TakeDeltaSnapshot_nonempty w s Hne) as (st & suffix & new' & Htrace' & Hcases).
  cbv zeta in Hcases. unfold deltaPayload in Hcases.
  rewrite Htrace' in Htrace. apply app_inv_head in Htrace. subst new'.
  destruct Hcases as [(-> & err & Herr) | [(Hen & -> & err & Hc & Herr) | Hsave]].
  - split; [| split].
    + intros p data [].
    + intros st' snap stream [].
    + intros snap Hok. congruence.
  - split; [| split].
    + intros p data [H | []]. injection H as <- <-. auto.
    + intros st' snap stream [H | []]. discriminate.
    + intros snap Hok. congruence.
  - destruct Hsave as (stream & Hstream & -> & Hres).
    destruct (Enabled (compressionConfig s)) eqn:Hen; simpl.
    + split; [| split].
      * intros p data [H | [H | []]]; [| discriminate].
        injection H as <- <-. auto.
      * intros st' snap stream' [H | [H | []]]; [discriminate |].
        injection H as _ _ <-. split; [left; reflexivity | exact Hstream].
      * intros snap Hok.
        destruct (StoreSave w st (deltaSnapshot w s suffix) stream);
          destruct Hres as (Hres & _); [congruence |].
        exists st, stream. right. left. congruence.
    + split; [| split].
      * intros p data [H | []]. discriminate.
      * intros st' snap stream' [H | []]. injection H as _ _ <-. exact Hstream.
      * intros snap Hok.
        destruct (StoreSave w st (deltaSnapshot w s suffix) stream);
          destruct Hres as (Hres & _); [congruence |].
        exists st, stream. left. congruence.
Qed.

End DeltaFacts.

(** The answers of the sample world take [TakeDeltaSnapshot] as far as
    [store.Save]. *)
Lemma sample_delta_prepared :
  Design.delta_prepared Sample.world Sample.ssr_buffered 0%nat ""
                        (Design.deltaPayload Sample.ssr_buffered).
Proof.
  split; [exists 0; split; reflexivity |]. split; reflexivity.
Qed.

(** The sample run of C1: after the Full snapshot at revision 5 and the
    puts at the revisions 6, 7 and 8, the delta snapshot that is saved and
    returned spans 6 to 8. *)
Lemma delta_snapshot_revisions_sample :
  Snapshotter.events Sample.ssr_buffered <> [] /\
  Snapshotter.aggregate Sample.world Sample.puts Sample.ssr = (Go.Ok tt, Sample.ssr_buffered) /\
  exists snap,
    fst (Snapshotter.TakeDeltaSnapshot Sample.world Sample.ssr_buffered) = Go.Ok (Some snap) /\
    Design.saved (Snapshotter.trace
                    (snd (Snapshotter.TakeDeltaSnapshot Sample.world Sample.ssr_buffered)))
    = [snap] /\
    brtypes.StartRevision snap = 6 /\ brtypes.LastRevision snap = 8 /\
    brtypes.StartRevision snap <= brtypes.LastRevision snap.
Proof.
  assert (Hne : Snapshotter.events Sample.ssr_buffered <> []) by (vm_compute; discriminate).
  split; [exact Hne |]. split; [reflexivity |].
  destruct (delta_snapshot_revisions Sample.world Sample.ssr_buffered Hne)
    as (Hbuilds & Hbuilt & Hlast).
  destruct (Hlast Sample.world Sample.ssr Sample.puts _ eq_refl eq_refl) as (Hrev & _).
  destruct (Hbuilds _ _ _ sample_delta_prepared)
    as (snap & new & Htrace & _ & Hsaved & _ & _ & _ & Hres).
  change (Snapshotter.StoreSave Sample.world 0%nat snap
            (Design.deltaPayload Sample.ssr_buffered)) with (@None Go.error) in Hres.
  destruct (Hbuilt new snap Htrace (or_intror Hres)) as (_ & Hstart & Hlast8 & Hmono).
  rewrite Hrev in Hlast8, Hmono.
  assert (Hrange : Go.int64_range 5 /\ Go.int64_range 8)
    by (unfold Go.int64_range, Go.MinInt64, Go.MaxInt64; lia).
  destruct Hrange as [H5 H8].
  destruct (Hmono H5 H8 ltac:(simpl; lia)) as [Hs Hle].
  exists snap. split; [exact Hres |].
  split; [rewrite Htrace; exact Hsaved |].
  split; [exact Hs |]. split; [exact Hlast8 | exact Hle].
Defined.

(** The sample run of C2: compression is off, and what is saved is the
    buffer, the bracket and the digest, and nothing else. *)
Lemma delta_snapshot_payload_sample :
  Snapshotter.events Sample.ssr_buffered <> [] /\
  exists snap,
    Snapshotter.trace (snd (Snapshotter.TakeDeltaSnapshot Sample.world Sample.ssr_buffered))
    = [Snapshotter.Save 0%nat snap
         ((Snapshotter.events Sample.ssr_buffered ++ [x5d])
            ++ SHA256.Sum256 (Snapshotter.events Sample.ssr_buffered ++ [x5d]))].
Proof.
  assert (Hne : Snapshotter.events Sample.ssr_buffered <> []) by (vm_compute; discriminate).
  split; [exact Hne |].
  destruct (delta_snapshot_payload Sample.world Sample.ssr_buffered Hne) as (_ & Hcalls & _).
  destruct (Hcalls _ _ _ sample_delta_prepared) as (snap & Htrace & _).
  exists snap. exact Htrace.
Defined.

(** ** Full snapshots *)

Section FullFacts.
Import Go brtypes Snapshotter Design.
Open Scope Z_scope.
Open Scope list_scope.

Lemma closeEtcdClient_frame (s : Snapshotter) :
  fst (closeEtcdClient s) = Ok tt /\
  same_snapshots s (snd (closeEtcdClient s)) /\
  store (snd (closeEtcdClient s)) = store s /\
  exists closed, trace (snd (closeEtcdClient s)) = trace s ++ closed /\ saved closed = [] /\
                 forall p data, ~ In (Compress p data) closed.
Proof.
  unfold closeEtcdClient, bind, get, emit, modify, ret.
  destruct (watchCh s); cbn.
  - repeat split. exists [CloseWatch]. repeat split. intros p data [H | []]. discriminate.
  - repeat split. exists []. rewrite app_nil_r. repeat split. intros p data [].
Qed.

Lemma skips_spec (isFinal : bool) (R : Z) (s : Snapshotter) :
  skips isFinal R s = true <-> isFinal = true /\ final_full_at R s.
Proof.
  unfold skips, final_full_at.
  rewrite !andb_true_iff, Z.eqb_eq.
  destruct (Kind (PrevSnapshot s)); simpl; intuition congruence.
Qed.

Lemma takeFullSnapshot_ok (isFinal : bool) (w : World) (s s1 : Snapshotter)
      (R : Z) (snap : Snapshot) :
  GetRevision w = Val R ->
  takeFullSnapshot isFinal w s = (Ok snap, s1) ->
  PrevSnapshot s1 = snap /\
  exists new,
    trace s1 = trace s ++ new /\
    if skips isFinal R s
    then saved new = [] /\ snap = PrevSnapshot s /\
         PrevFullSnapshot s1 = PrevFullSnapshot s /\
         PrevDeltaSnapshots s1 = PrevDeltaSnapshots s
    else saved new = [snap] /\ Kind snap = SnapshotKindFull /\ IsFinal snap = isFinal /\
         StartRevision snap = 0 /\ LastRevision snap = R /\
         PrevFullSnapshot s1 = Some snap /\ PrevDeltaSnapshots s1 = [].
Proof.
  intros HR. unfold takeFullSnapshot, defer, takeFullSnapshot_body.
  unfold bind at 1.
  destruct (closeEtcdClient_frame s) as (Hok & Hsame & Hst & closed & Htr & Hsv & _).
  destruct (closeEtcdClient s) as [r1 s2]. cbn in Hok, Hsame, Hst, Htr. subst r1.
  unfold bind at 1.
  destruct (refreshSnapstore_frame w s2) as (Hsame3 & Htr3 & _).
  destruct (refreshSnapstore w s2) as [r3 s3]. cbn in Hsame3, Htr3.
  destruct r3 as [_ | err]; [| discriminate].
  rewrite HR.
  cbv beta iota zeta delta [bind get modify ret fail try check emit TakeAndSaveFullSnapshot].
  destruct (NewKV w); [discriminate |].
  destruct Hsame as [_ _ Hcc Hps Hpf _ _ Hcf _ Hpd _ _ _].
  destruct Hsame3 as [_ _ Hcc3 Hps3 Hpf3 _ _ Hcf3 _ Hpd3 _ _ _].
  fold (skips isFinal R s3).
  assert (Hskip : skips isFinal R s3 = skips isFinal R s)
    by (unfold skips; rewrite Hps3, Hps; reflexivity).
  rewrite Hskip.
  destruct (skips isFinal R s) eqn:Hsk.
  - destruct (DeltaSnapshotPeriod (config s3) <? Second).
    + intros H. injection H as <- <-. cbn.
      split; [reflexivity |]. exists closed.
      rewrite Htr3, Htr, Hps3, Hps, Hpf3, Hpf, Hpd3, Hpd. auto.
    + destruct (NewWatcher w); [discriminate |].
      intros H. injection H as <- <-. cbn.
      split; [reflexivity |]. eexists.
      rewrite Htr3, Htr, <- app_assoc, Hps3, Hps, Hpf3, Hpf, Hpd3, Hpd.
      split; [reflexivity |]. rewrite saved_app, Hsv. auto.
  - rewrite Hcc3, Hcc.
    destruct (compressor.GetCompressionSuffix (Enabled (compressionConfig s))
                (CompressionPolicy (compressionConfig s))) as [suffix | err]; [| discriminate].
    destruct (NewMaintenance w); [discriminate |].
    destruct (DBSnapshot w) as [db | err]; [| discriminate].
    rewrite Hcc3, Hcc.
    match goal with
    | |- context [let (_, _) := ?t in _] =>
        match t with
        | (if Enabled _ then _ else _) _ => set (rc := t)
        end
    end.
    assert (Hrc : forall stream s4,
               rc = (Ok stream, s4) ->
               PrevSnapshot s4 = PrevSnapshot s3 /\ config s4 = config s3 /\
               exists compressed, trace s4 = trace s3 ++ compressed /\ saved compressed = []).
    { subst rc. intros stream s4.
      destruct (Enabled (compressionConfig s)).
      - destruct (CompressSnapshot w (CompressionPolicy (compressionConfig s)) db);
          [| discriminate].
        cbv beta. intros H. injection H as <- <-. cbn. eauto.
      - cbv beta. intros H. injection H as <- <-.
        repeat split. exists []. rewrite app_nil_r. auto. }
    destruct rc as [[stream | err] s4]; [| cbn; discriminate].
    destruct (Hrc stream s4 eq_refl) as (Hps4 & Hcf4 & compressed & Htr4 & Hcs).
    clear Hrc.
    destruct (StoreSave w (store s3) _ stream); [discriminate |]. cbn.
    destruct (DeltaSnapshotPeriod (config s4) <? Second).
    + intros H. injection H as <- <-. cbn.
      split; [reflexivity |]. eexists.
      rewrite Htr4, Htr3, Htr, <- !app_assoc.
      split; [reflexivity |]. rewrite !saved_app, Hsv, Hcs. cbn. auto 10.
    + destruct (NewWatcher w); [discriminate |].
      intros H. injection H as <- <-. cbn.
      split; [reflexivity |]. eexists.
      rewrite Htr4, Htr3, Htr, <- !app_assoc.
      split; [reflexivity |]. rewrite !saved_app, Hsv, Hcs. cbn. auto 10.
Qed.

Lemma takeFullSnapshot_skip (w : World) (s s1 : Snapshotter) (R : Z)
      (r : Out error Snapshot) :
  GetRevision w = Val R ->
  skips true R s = true ->
  takeFullSnapshot true w s = (r, s1) ->
  PrevSnapshot s1 = PrevSnapshot s /\
  PrevFullSnapshot s1 = PrevFullSnapshot s /\
  PrevDeltaSnapshots s1 = PrevDeltaSnapshots s /\
  exists new, trace s1 = trace s ++ new /\ saved new = [] /\
              forall p data, ~ In (Compress p data) new.
Proof.
  intros HR Hsk. unfold takeFullSnapshot, defer, takeFullSnapshot_body.
  unfold bind at 1.
  destruct (closeEtcdClient_frame s) as (Hok & Hsame & Hst & closed & Htr & Hsv & Hnc).
  destruct (closeEtcdClient s) as [r1 s2]. cbn in Hok, Hsame, Hst, Htr. subst r1.
  unfold bind at 1.
  destruct (refreshSnapstore_frame w s2) as (Hsame3 & Htr3 & _).
  destruct (refreshSnapstore w s2) as [r3 s3]. cbn in Hsame3, Htr3.
  destruct Hsame as [_ _ Hcc Hps Hpf _ _ Hcf _ Hpd _ _ _].
  destruct Hsame3 as [_ _ Hcc3 Hps3 Hpf3 _ _ Hcf3 _ Hpd3 _ _ _].
  assert (Hend : forall r', (r', cleanupInMemoryEvents s3) = (r, s1) ->
                 PrevSnapshot s1 = PrevSnapshot s /\
                 PrevFullSnapshot s1 = PrevFullSnapshot s /\
                 PrevDeltaSnapshots s1 = PrevDeltaSnapshots s /\
                 exists new, trace s1 = trace s ++ new /\
                             saved new = [] /\ forall p data, ~ In (Compress p data) new).
  { intros r' H. injection H as _ <-. cbn.
    rewrite Hps3, Hps, Hpf3, Hpf, Hpd3, Hpd, Htr3, Htr. eauto 10. }
  destruct r3 as [_ | err]; [| apply Hend].
  rewrite HR.
  cbv beta iota zeta delta [bind get modify ret fail try check emit TakeAndSaveFullSnapshot].
  destruct (NewKV w); [apply Hend |].
  fold (skips true R s3).
  assert (Hskip : skips true R s3 = skips true R s)
    by (unfold skips; rewrite Hps3, Hps; reflexivity).
  rewrite Hskip, Hsk.
  destruct (DeltaSnapshotPeriod (config s3) <? Second); [apply Hend |].
  destruct (NewWatcher w); [apply Hend |].
  intros H. injection H as _ <-.
  cbn. rewrite Hps3, Hps, Hpf3, Hpf, Hpd3, Hpd, Htr3, Htr, <- app_assoc.
  repeat split. eexists. split; [reflexivity |].
  rewrite saved_app, Hsv. split; [reflexivity |].
  intros p data Hin. apply in_app_or in Hin as [Hin | [Hin | []]]; [| discriminate].
  exact (Hnc p data Hin).
Qed.

(** C3.  Let [R] be the latest revision of the KV store when
    [takeFullSnapshot] runs with [isFinal = true].  If the previous
    snapshot is a Final Full snapshot at [R], nothing is handed to the
    compressor or to the snap store, and [PrevSnapshot], [PrevFullSnapshot]
    and [PrevDeltaSnapshots] stay as they are.  So when this run follows
    a first final full snapshot that succeeded at the same [R], the two
    together save exactly one snapshot, a Final Full one at [R] (and none
    when the first found a Final Full snapshot at [R] already). *)
Theorem final_full_snapshot_idempotent (w : World) (s : Snapshotter) (R : Z) :
  GetRevision w = Val R ->
  let run := takeFullSnapshot true w s in
  (final_full_at R s ->
   (forall new, trace (snd run) = trace s ++ new ->
                saved new = [] /\ forall p data, ~ In (Compress p data) new) /\
   PrevSnapshot (snd run) = PrevSnapshot s /\
   PrevFullSnapshot (snd run) = PrevFullSnapshot s /\
   PrevDeltaSnapshots (snd run) = PrevDeltaSnapshots s) /\
  (forall (w0 : World) (s0 : Snapshotter) (snap0 : Snapshot),
      GetRevision w0 = Val R ->
      takeFullSnapshot true w0 s0 = (Ok snap0, s) ->
      final_full_at R s /\
      forall new, trace (snd run) = trace s0 ++ new ->
                  (final_full_at R s0 -> saved new = []) /\
                  (~ final_full_at R s0 ->
                   saved new = [snap0] /\ IsFinal snap0 = true /\
                   Kind snap0 = SnapshotKindFull /\ LastRevision snap0 = R)).
Proof.
  intros HR. cbv zeta.
  assert (Hskip : final_full_at R s ->
                  (forall new, trace (snd (takeFullSnapshot true w s)) = trace s ++ new ->
                               saved new = [] /\ forall p data, ~ In (Compress p data) new) /\
                  PrevSnapshot (snd (takeFullSnapshot true w s)) = PrevSnapshot s /\
                  PrevFullSnapshot (snd (takeFullSnapshot true w s)) = PrevFullSnapshot s /\
                  PrevDeltaSnapshots (snd (takeFullSnapshot true w s)) = PrevDeltaSnapshots s).
  { intros Hff.
    assert (Hsk : skips true R s = true) by (apply skips_spec; auto).
    destruct (takeFullSnapshot true w s) as [r s1] eqn:Hrun.
    destruct (takeFullSnapshot_skip w s s1 R r HR Hsk Hrun)
      as (Hps & Hpf & Hpd & new' & Htr & Hsv & Hnc).
    cbn. repeat split; try assumption.
    all: rewrite Htr in H; apply app_inv_head in H; subst new'; auto. }
  split; [exact Hskip |].
  intros w0 s0 snap0 HR0 Hfirst.
  destruct (takeFullSnapshot_ok true w0 s0 s R snap0 HR0 Hfirst) as (Hprev & new1 & Htr1 & Hcase).
  assert (Hff : final_full_at R s).
  { unfold final_full_at. rewrite Hprev.
    destruct (skips true R s0) eqn:Hsk.
    - destruct Hcase as (_ & -> & _). apply skips_spec in Hsk. apply Hsk.
    - destruct Hcase as (_ & Hk & Hf & _ & Hl & _). auto. }
  split; [exact Hff |].
  intros new Htr.
  destruct (Hskip Hff) as (Hnew2 & _).
  rewrite Htr1 in Hnew2.
  assert (Hsplit : exists new2, new = new1 ++ new2 /\ saved new2 = []).
  { destruct (takeFullSnapshot true w s) as [r s1] eqn:Hrun. cbn in *.
    assert (Hsk : skips true R s = true) by (apply skips_spec; auto).
    destruct (takeFullSnapshot_skip w s s1 R r HR Hsk Hrun)
      as (_ & _ & _ & new2 & Htr2 & Hsv2 & _).
    exists new2. split; [| exact Hsv2].
    rewrite Htr2, Htr1, <- app_assoc in Htr. apply app_inv_head in Htr. auto. }
  destruct Hsplit as (new2 & -> & Hsv2).
  rewrite saved_app, Hsv2, app_nil_r.
  destruct (skips true R s0) eqn:Hsk.
  - destruct Hcase as (Hsv1 & _). split; [auto |].
    intros Hnot. exfalso. apply Hnot. apply skips_spec in Hsk. apply Hsk.
  - destruct Hcase as (Hsv1 & Hk & Hf & _ & Hl & _).
    split; [| auto].
    intros Hff0. assert (skips true R s0 = true) by (apply skips_spec; auto). congruence.
Qed.

End FullFacts.

(** The sample run of C3: two final full snapshots in a row at revision 8
    save one snapshot, which is Final. *)
Lemma final_full_snapshot_twice_sample :
  let first := Snapshotter.takeFullSnapshot true Sample.world Sample.ssr in
  let second := Snapshotter.takeFullSnapshot true Sample.world (snd first) in
  Snapshotter.GetRevision Sample.world = Go.Val 8 /\
  Design.saved (Snapshotter.trace (snd second))
  = [snapstore.NewSnapshot 2000 brtypes.SnapshotKindFull 0 8 "" true].
Proof.
  cbv zeta. split; [reflexivity |].
  destruct (final_full_snapshot_idempotent
              Sample.world (snd (Snapshotter.takeFullSnapshot true Sample.world Sample.ssr))
              8 eq_refl) as [_ Htwice].
  assert (Hfirst : Snapshotter.takeFullSnapshot true Sample.world Sample.ssr
                   = (Go.Ok (snapstore.NewSnapshot 2000 brtypes.SnapshotKindFull 0 8 "" true),
                      snd (Snapshotter.takeFullSnapshot true Sample.world Sample.ssr)))
    by (vm_compute; reflexivity).
  destruct (Htwice Sample.world Sample.ssr _ eq_refl Hfirst) as [_ Hnew].
  assert (Htrace : Snapshotter.trace
                     (snd (Snapshotter.takeFullSnapshot true Sample.world
                             (snd (Snapshotter.takeFullSnapshot true Sample.world Sample.ssr))))
                   = Snapshotter.trace Sample.ssr
                     ++ Snapshotter.trace
                          (snd (Snapshotter.takeFullSnapshot true Sample.world
                                  (snd (Snapshotter.takeFullSnapshot true Sample.world
                                          Sample.ssr)))))
    by (vm_compute; reflexivity).
  destruct (Hnew _ Htrace) as [_ Hone].
  apply Hone. intros (Hfinal & _). discriminate Hfinal.
Defined.

(** ** The event loop *)

Section LoopFacts.
Import Go brtypes Snapshotter Design.
Open Scope Z_scope.
Open Scope list_scope.

Lemma afterFullSnapshot_continues (s : Snapshotter) :
  fst (afterFullSnapshot s) = Ok Continue.
Proof.
  unfold afterFullSnapshot, bind, modify, get, emit, ret.
  destruct (leaseRenewal _); reflexivity.
Qed.

Lemma afterDeltaSnapshot_continues (s : Snapshotter) :
  fst (afterDeltaSnapshot s) = Ok Continue.
Proof.
  unfold afterDeltaSnapshot, bind, modify, get, emit, ret.
  destruct (leaseRenewal _); reflexivity.
Qed.

(** C4, as the code has it.  When a triggered full or delta snapshot
    fails, with an error of any class, the loop sends the error on the
    acknowledgement channel of the request and then returns it: the
    messages that follow are not served.  When the snapshot succeeds, the
    loop acknowledges it and goes on with the next message. *)
Theorem snapshot_error_ends_loop (w : World) (s : Snapshotter) (rest : list (Msg * World)) :
  (forall isFinal res s1,
      TakeFullSnapshotAndResetTimer isFinal w s = (res, s1) ->
      let acked := set_trace (trace s1 ++ [FullSnapshotAck res]) s1 in
      match ResErr res with
      | Some err =>
          snapshotEventHandler ((FullSnapshotReq isFinal, w) :: rest) s
          = (Returned (Some err), set_PrevFullSnapshotSucceeded false acked, rest)
      | None =>
          snapshotEventHandler ((FullSnapshotReq isFinal, w) :: rest) s
          = snapshotEventHandler rest (snd (afterFullSnapshot acked))
      end) /\
  (forall r s1,
      takeDeltaSnapshotAndResetTimer w s = (r, s1) ->
      let res := resultOf r in
      let acked := set_trace (trace s1 ++ [DeltaSnapshotAck res]) s1 in
      match ResErr res with
      | Some err =>
          snapshotEventHandler ((DeltaSnapshotReq, w) :: rest) s
          = (Returned (Some err), acked, rest)
      | None =>
          snapshotEventHandler ((DeltaSnapshotReq, w) :: rest) s
          = snapshotEventHandler rest (snd (afterDeltaSnapshot acked))
      end).
Proof.
  split.
  - intros isFinal res s1 Hrun. simpl. rewrite Hrun.
    destruct (ResErr res) as [err |]; [reflexivity |].
    pose proof (afterFullSnapshot_continues
                  (set_trace (trace s1 ++ [FullSnapshotAck res]) s1)) as Hgo.
    destruct (afterFullSnapshot _) as [turn s2]. simpl in Hgo. subst turn. reflexivity.
  - intros r s1 Hrun. simpl. rewrite Hrun.
    destruct (ResErr (resultOf r)) as [err |]; [reflexivity |].
    pose proof (afterDeltaSnapshot_continues
                  (set_trace (trace s1 ++ [DeltaSnapshotAck (resultOf r)]) s1)) as Hgo.
    destruct (afterDeltaSnapshot _) as [turn s2]. simpl in Hgo. subst turn. reflexivity.
Qed.

End LoopFacts.

(** C4 as it was stated fails: the snap store answers the upload of a delta
    snapshot with a transient error; the loop acknowledges the request with
    that error and returns it, and the request that follows is left
    unserved. *)
Lemma transient_error_ends_loop :
  let inbox := [(Snapshotter.DeltaSnapshotReq, Sample.world_store_down);
                (Snapshotter.DeltaSnapshotReq, Sample.world)] in
  let run := Snapshotter.snapshotEventHandler inbox Sample.ssr_buffered in
  Go.classify Sample.unavailable = Some Go.Transient /\
  In (Snapshotter.DeltaSnapshotAck
        {| Snapshotter.ResSnapshot := None; Snapshotter.ResErr := Some Sample.unavailable |})
     (Snapshotter.trace (snd (fst run))) /\
  fst (fst run) = Snapshotter.Returned (Some Sample.unavailable) /\
  snd run = [(Snapshotter.DeltaSnapshotReq, Sample.world)].
Proof.
  cbv zeta. split; [reflexivity |]. split; [| split].
  - vm_compute. right. left. reflexivity.
  - vm_compute. reflexivity.
  - vm_compute. reflexivity.
Qed.

(** The sample run of C4: the same failure, read off the statement above. *)
Lemma snapshot_error_ends_loop_sample :
  let failed := Snapshotter.takeDeltaSnapshotAndResetTimer
                  Sample.world_store_down Sample.ssr_buffered in
  fst failed = Go.Err Sample.unavailable /\
  Snapshotter.snapshotEventHandler
    [(Snapshotter.DeltaSnapshotReq, Sample.world_store_down);
     (Snapshotter.DeltaSnapshotReq, Sample.world)] Sample.ssr_buffered
  = (Snapshotter.Returned (Some Sample.unavailable),
     Snapshotter.set_trace
       (Snapshotter.trace (snd failed)
        ++ [Snapshotter.DeltaSnapshotAck
              {| Snapshotter.ResSnapshot := None;
                 Snapshotter.ResErr := Some Sample.unavailable |}])
       (snd failed),
     [(Snapshotter.DeltaSnapshotReq, Sample.world)]).
Proof.
  cbv zeta.
  assert (Hfailed : fst (Snapshotter.takeDeltaSnapshotAndResetTimer
                           Sample.world_store_down Sample.ssr_buffered)
                    = Go.Err Sample.unavailable)
    by (vm_compute; reflexivity).
  split; [exact Hfailed |].
  destruct (snapshot_error_ends_loop Sample.world_store_down Sample.ssr_buffered
              [(Snapshotter.DeltaSnapshotReq, Sample.world)]) as [_ Hdelta].
  specialize (Hdelta _ _ (surjective_pairing _)).
  cbv zeta in Hdelta. rewrite Hfailed in Hdelta. exact Hdelta.
Defined.

(** ** Paths *)

Section PathFacts.
Import filepath Initializer InitDesign.
Open Scope list_scope.

Lemma string_app_cons (x : ascii) (a b : string) :
  (String x a ++ b)%string = String x (a ++ b)%string.
Proof. reflexivity. Qed.

Lemma string_app_nil (b : string) : (EmptyString ++ b)%string = b.
Proof. reflexivity. Qed.

Lemma string_app_assoc (a b c : string) : ((a ++ b) ++ c)%string = (a ++ (b ++ c))%string.
Proof.
  induction a as [| x a IH]; [reflexivity |].
  rewrite !string_app_cons, IH. reflexivity.
Qed.

Lemma string_length_app (a b : string) :
  String.length (a ++ b)%string = (String.length a + String.length b)%nat.
Proof.
  induction a as [| x a IH]; [reflexivity |].
  rewrite string_app_cons. simpl. rewrite IH. reflexivity.
Qed.

(** The last element of a path takes what is appended after the last
    separator. *)
Lemma split_part (p : string) :
  forall cur, exists init l,
    split cur p = init ++ [l] /\
    split cur (p ++ ".part")%string = init ++ [(l ++ ".part")%string].
Proof.
  induction p as [| c p IH]; intros cur.
  - exists [], cur. split; [reflexivity |].
    rewrite string_app_nil. simpl. rewrite !string_app_assoc. reflexivity.
  - rewrite string_app_cons. simpl. destruct (Ascii.eqb c "/").
    + destruct (IH EmptyString) as (init & l & H1 & H2).
      exists (cur :: init), l. rewrite H1, H2. split; reflexivity.
    + destruct (IH (cur ++ String c EmptyString)%string) as (init & l & H1 & H2).
      exists init, l. split; assumption.
Qed.

Lemma clean_elems_app (rooted : bool) (l1 l2 : list string) :
  forall stack,
    clean_elems rooted stack (l1 ++ l2)
    = clean_elems rooted (rev (clean_elems rooted stack l1)) l2.
Proof.
  induction l1 as [| e l1 IH]; intros stack; simpl.
  - rewrite rev_involutive. reflexivity.
  - destruct (String.eqb e "" || String.eqb e "."); [apply IH |].
    destruct (String.eqb e "..").
    + destruct stack as [| top below].
      * destruct rooted; apply IH.
      * destruct (String.eqb top ".."); apply IH.
    + apply IH.
Qed.

Lemma join_snoc_length (xs : list string) (y : string) :
  String.length (join (xs ++ [y]))
  = (String.length (join xs) + match xs with [] => 0 | _ => 1 end + String.length y)%nat.
Proof.
  induction xs as [| x xs IH]; [reflexivity |].
  destruct xs as [| x' xs'].
  - change (join ([x] ++ [y])) with (x ++ "/" ++ y)%string.
    rewrite !string_length_app. simpl. lia.
  - change (join ((x :: x' :: xs') ++ [y])) with (x ++ "/" ++ join ((x' :: xs') ++ [y]))%string.
    change (join (x :: x' :: xs')) with (x ++ "/" ++ join (x' :: xs'))%string.
    rewrite !string_length_app, IH. simpl. lia.
Qed.

Lemma long_neq (x y : string) :
  (String.length y < String.length x)%nat -> String.eqb x y = false.
Proof.
  intros Hlen. apply String.eqb_neq. intros ->. lia.
Qed.

(** The cleaned elements of a path: one more element, the last one with
    [.part], makes them longer by at least five bytes. *)
Lemma clean_part_longer (rooted : bool) (init : list string) (l : string) :
  (String.length (join (clean_elems rooted [] (init ++ [l]))) + 5
   <= String.length (join (clean_elems rooted [] (init ++ [(l ++ ".part")%string]))))%nat.
Proof.
  rewrite !clean_elems_app.
  set (S := rev (clean_elems rooted [] init)).
  assert (Hlen : (5 <= String.length (l ++ ".part")%string)%nat)
    by (rewrite string_length_app; simpl; lia).
  simpl.
  rewrite (long_neq (l ++ ".part") ""), (long_neq (l ++ ".part") "."),
          (long_neq (l ++ ".part") "..") by (simpl; lia).
  simpl. rewrite join_snoc_length, string_length_app. simpl.
  destruct (String.eqb_spec l "") as [-> | Hne]; simpl.
  { destruct (rev S); simpl; lia. }
  destruct (String.eqb_spec l ".") as [-> | Hdot]; simpl.
  { destruct (rev S); simpl; lia. }
  destruct (String.eqb_spec l "..") as [-> | Hdd].
  - destruct S as [| top below].
    + destruct rooted; simpl; lia.
    + destruct (String.eqb top "..").
      * simpl rev at 1. rewrite join_snoc_length. simpl. 
        destruct (rev below ++ [top]); simpl; lia.
      * simpl rev. rewrite join_snoc_length.
        destruct (rev below); simpl; lia.
  - simpl. rewrite join_snoc_length. lia.
Qed.

(** The temporary directory of a restoration is spelled with more bytes
    than the data directory, however the two are cleaned. *)
Lemma part_dir_longer (dataDir : string) :
  (String.length (Join dataDir) < String.length (Join (partDir dataDir)))%nat.
Proof.
  unfold Join, partDir.
  destruct dataDir as [| c d]; [simpl; lia |].
  simpl String.eqb. cbv iota.
  change (String.eqb (String c d ++ "." ++ "part") "") with false. cbv iota.
  unfold Clean.
  change (String c d ++ "." ++ "part")%string with (String c (d ++ ".part"))%string.
  destruct (split_part (String c d) EmptyString) as (init & l & H1 & H2).
  change (String c d ++ ".part")%string with (String c (d ++ ".part"))%string in H2.
  rewrite H1, H2.
  pose proof (clean_part_longer (Ascii.eqb c "/") init l) as Hlonger.
  destruct (Ascii.eqb c "/").
  - rewrite !string_length_app. lia.
  - destruct (String.eqb_spec (join (clean_elems false [] (init ++ [l]))) "") as [He | He];
    destruct (String.eqb_spec (join (clean_elems false [] (init ++ [(l ++ ".part")%string]))) "")
      as [Hp | Hp].
    + rewrite Hp in Hlonger. simpl in Hlonger. lia.
    + rewrite He in Hlonger. simpl in *. lia.
    + rewrite Hp in Hlonger. simpl in Hlonger. lia.
    + lia.
Qed.

Lemma part_dir_not_covering (dataDir : string) :
  ~ covers (Join (partDir dataDir)) (Join dataDir).
Proof.
  unfold covers. pose proof (part_dir_longer dataDir). lia.
Qed.
End PathFacts.

(** ** The initializer *)

Section InitializerFacts.
Import Go brtypes validator Initializer InitDesign.
Open Scope Z_scope.
Open Scope list_scope.





Lemma restoreCorruptData_restore (w : World) (e : EtcdInitializer) (sc : SnapstoreConfig)
      (st : SnapStore) (baseSnap : option Snapshot) (deltaSnapList : list Snapshot)
      (h : list Call) :
  SnapstoreConfig_ e = Some sc ->
  Provider sc <> ""%string ->
  GetSnapstore w = Val st ->
  GetLatestFullSnapshotAndDeltaSnapList w = Val (baseSnap, deltaSnapList) ->
  baseSnap <> None \/ deltaSnapList <> [] ->
  let dataDir := filepath.Join (DataDir (Config_ (RestoreOptions_ e))) in
  let part := filepath.Join (partDir (DataDir (Config_ (RestoreOptions_ e)))) in
  let ro := restoreOptions e baseSnap deltaSnapList in
  let run := restoreCorruptData w e h in
  (snd run = h ++ [RemoveAll part] /\ exists err, fst run = Err (ReturnErr err)) \/
  (exists err,
      RestoreAndStopEtcdResult w ro = Some err /\
      snd run = h ++ [RemoveAll part; RestoreAndStopEtcd ro] /\
      fst run = Err (ReturnErr (Errorf "failed to restore snapshot: %v" [ArgErr err]))) \/
  (RestoreAndStopEtcdResult w ro = None /\
   ((snd run = h ++ [RemoveAll part; RestoreAndStopEtcd ro; RemoveAll dataDir] /\
     exists err, fst run = Err (ReturnErr err)) \/
    (snd run = h ++ [RemoveAll part; RestoreAndStopEtcd ro; RemoveAll dataDir;
                     Rename part dataDir] /\
     (fst run = Ok true \/ exists err, fst run = Err (ReturnErr err))))).
Proof.
  intros Hsc Hprov Hst Hlatest Hsome. cbv zeta.
  unfold restoreCorruptData. rewrite Hsc.
  assert (Hlen : Nat.eqb (String.length (Provider sc)) 0 = false).
  { destruct (Provider sc); [congruence | reflexivity]. }
  rewrite Hlen, Hst, Hlatest.
  unfold removeContents, removeDir, attempt, call, returnErr, tryInit, wrapErr, wrapStop.
  cbv beta iota zeta delta [bind get modify ret fail].
  cbn [DataDir Config_].
  fold (restoreOptions e baseSnap deltaSnapList).
  set (ro := restoreOptions e baseSnap deltaSnapList).
  set (part := filepath.Join (partDir (DataDir (Config_ (RestoreOptions_ e))))).
  set (dataDir := filepath.Join (DataDir (Config_ (RestoreOptions_ e)))).
  destruct baseSnap as [b |]; [| destruct deltaSnapList as [| d ds]; [destruct Hsome; congruence |]].
  all: destruct (os_RemoveAll w h part); [left; cbn; eauto |].
  all: destruct (NewRestorer w); [left; cbn; eauto |].
  all: destruct (RestoreAndStopEtcdResult w _) eqn:Hres;
    [right; left; eexists; split; [reflexivity |]; cbn; rewrite <- app_assoc; auto |].
  all: right; right; split; [reflexivity |].
  all: rewrite <- !app_assoc; cbn [app].
  all: destruct (os_RemoveAll w _ dataDir); [left; cbn; eauto |].
  all: right; rewrite <- !app_assoc; cbn [app].
  all: destruct (os_Rename w _ part dataDir); cbn; eauto.
Qed.

(** C6.  When the snap store holds snapshots, [restoreCorruptData] first
    removes the temporary [.part] directory and restores into it.  If the
    restoration fails, [restoreCorruptData] returns an error and has
    called nothing but that removal and the restorer: no call removes or
    renames the data directory (or a directory above it).  A call that
    does comes only after the restoration has succeeded; and [true] is
    returned only after the data directory was removed and the [.part]
    directory renamed to it. *)
Theorem restore_failure_keeps_data_dir
        (w : World) (e : EtcdInitializer) (sc : SnapstoreConfig) (st : SnapStore)
        (baseSnap : option Snapshot) (deltaSnapList : list Snapshot) (h : list Call) :
  SnapstoreConfig_ e = Some sc ->
  Provider sc <> ""%string ->
  GetSnapstore w = Val st ->
  GetLatestFullSnapshotAndDeltaSnapList w = Val (baseSnap, deltaSnapList) ->
  baseSnap <> None \/ deltaSnapList <> [] ->
  let dataDir := filepath.Join (DataDir (Config_ (RestoreOptions_ e))) in
  let part := filepath.Join (partDir (DataDir (Config_ (RestoreOptions_ e)))) in
  let ro := restoreOptions e baseSnap deltaSnapList in
  let run := restoreCorruptData w e h in
  exists new,
    snd run = h ++ new /\
    (forall err,
        RestoreAndStopEtcdResult w ro = Some err ->
        (exists err', fst run = Err (ReturnErr err')) /\
        forall c, In c new ->
                  (c = RemoveAll part \/ c = RestoreAndStopEtcd ro) /\
                  ~ removes_or_renames dataDir c) /\
    (forall c, In c new -> removes_or_renames dataDir c ->
               RestoreAndStopEtcdResult w ro = None /\
               exists later, new = RemoveAll part :: RestoreAndStopEtcd ro :: later /\
                             In c later) /\
    (fst run = Ok true ->
     new = [RemoveAll part; RestoreAndStopEtcd ro; RemoveAll dataDir; Rename part dataDir]).
Proof.
  intros Hsc Hprov Hst Hlatest Hsome. cbv zeta.
  pose proof (part_dir_not_covering (DataDir (Config_ (RestoreOptions_ e)))) as Hpart.
  set (dataDir := filepath.Join (DataDir (Config_ (RestoreOptions_ e)))) in *.
  set (part := filepath.Join (partDir (DataDir (Config_ (RestoreOptions_ e))))) in *.
  set (ro := restoreOptions e baseSnap deltaSnapList).
  assert (Hfirst : forall c, In c [RemoveAll part; RestoreAndStopEtcd ro] ->
                             (c = RemoveAll part \/ c = RestoreAndStopEtcd ro) /\
                             ~ removes_or_renames dataDir c).
  { intros c [<- | [<- | []]]; (split; [auto |]); simpl; auto. }
  destruct (restoreCorruptData_restore w e sc st baseSnap deltaSnapList h
              Hsc Hprov Hst Hlatest Hsome)
    as [(Hh & err & Hr) | [(err & Hres & Hh & Hr) | (Hres & [(Hh & err & Hr) | (Hh & Hr)])]].
  all: fold dataDir part ro in Hh, Hr; try fold ro in Hres.
  all: eexists; split; [exact Hh |].
  - split; [| split].
    + intros _ _. split; [eauto |]. intros c [<- | []]. apply Hfirst. left. reflexivity.
    + intros c [<- | []] Hc. contradiction.
    + rewrite Hr. discriminate.
  - split; [| split].
    + intros _ _. split; [eauto |]. exact Hfirst.
    + intros c Hc Hrm. destruct (Hfirst c Hc) as [_ Hnot]. contradiction.
    + rewrite Hr. discriminate.
  - split; [| split].
    + intros err' Herr'. congruence.
    + intros c Hc Hrm. split; [exact Hres |]. eexists. split; [reflexivity |].
      destruct Hc as [<- | [<- | Hc]]; [contradiction | contradiction | exact Hc].
    + rewrite Hr. discriminate.
  - split; [| split].
    + intros err' Herr'. congruence.
    + intros c Hc Hrm. split; [exact Hres |]. eexists. split; [reflexivity |].
      destruct Hc as [<- | [<- | Hc]]; [contradiction | contradiction | exact Hc].
    + intros _. reflexivity.
Qed.

End InitializerFacts.



(** The sample run of C6: the hash of a delta snapshot does not match; the
    data directory is neither removed nor renamed. *)
Lemma restore_failure_sample :
  let run := Initializer.restoreCorruptData SampleInit.world_corrupt_delta
               SampleInit.initializer [] in
  (Initializer.SnapstoreConfig_ SampleInit.initializer
   = Some {| Initializer.Provider := "S3"; Initializer.TempDir := "/var/etcd/data/tmp" |}) /\
  (exists err, fst run = Go.Err (Initializer.ReturnErr err)) /\
  forall c, In c (snd run) ->
            ~ InitDesign.removes_or_renames "/var/etcd/data/new.etcd" c.
Proof.
  cbv zeta. split; [reflexivity |].
  destruct (restore_failure_keeps_data_dir
              SampleInit.world_corrupt_delta SampleInit.initializer
              {| Initializer.Provider := "S3"; Initializer.TempDir := "/var/etcd/data/tmp" |}
              0%nat (Some SampleInit.full10) [SampleInit.delta20] []
              eq_refl ltac:(discriminate) eq_refl eq_refl ltac:(left; discriminate))
    as (new & Hnew & Hfail & _).
  destruct (Hfail SampleInit.hash_mismatch eq_refl) as [Herr Hcalls].
  split; [exact Herr |].
  intros c Hc. rewrite Hnew in Hc. exact (proj2 (Hcalls c Hc)).
Defined.

(** * More properties of the snapshotter *)

(** ** Steps of a method *)

(** A relation between the state before and the state after a method
    holds of the whole method when it is a preorder and holds of every
    assignment and of every call the method makes. *)

Section StepFacts.
Import Go brtypes Snapshotter Observe.
Open Scope Z_scope.
Open Scope list_scope.

Context (R : relation Snapshotter) `{!PreOrder R}.

Lemma steps_ret {A} (a : A) : steps R (ret a).
Proof. intros s. reflexivity. Qed.

Lemma steps_fail {A} (e : error) : steps R (fail e : Ssr A).
Proof. intros s. reflexivity. Qed.

Lemma steps_get : steps R get.
Proof. intros s. reflexivity. Qed.

Lemma steps_modify (f : Snapshotter -> Snapshotter) :
  (forall s, R s (f s)) -> steps R (modify f).
Proof. intros Hf s. apply Hf. Qed.

Lemma steps_bind {A B} (m : Ssr A) (k : A -> Ssr B) :
  steps R m -> (forall a, steps R (k a)) -> steps R (bind m k).
Proof.
  intros Hm Hk s. unfold bind. specialize (Hm s).
  destruct (m s) as [[a | e] s1]; cbn in *; [| exact Hm].
  transitivity s1; [exact Hm | apply Hk].
Qed.

Lemma steps_try {A} (r : Res A) (wrap : error -> error) : steps R (try r wrap).
Proof. destruct r; intros s; reflexivity. Qed.

Lemma steps_check (r : option error) (wrap : error -> error) : steps R (check r wrap).
Proof. destruct r; intros s; reflexivity. Qed.

Lemma steps_wrapErr {A} (wrap : error -> error) (m : Ssr A) :
  steps R m -> steps R (wrapErr wrap m).
Proof.
  intros Hm s. unfold wrapErr. specialize (Hm s).
  destruct (m s) as [[a | e] s1]; exact Hm.
Qed.

Lemma steps_defer {A} (f : Snapshotter -> Snapshotter) (m : Ssr A) :
  (forall s, R s (f s)) -> steps R m -> steps R (defer f m).
Proof.
  intros Hf Hm s. unfold defer. specialize (Hm s).
  destruct (m s) as [r s1]. cbn in *. transitivity s1; [exact Hm | apply Hf].
Qed.

(** The assignments and the calls of the snapshotter. *)
Hypothesis on_lastSecretModifiedTime : forall v s, R s (set_lastSecretModifiedTime v s).
Hypothesis on_store : forall v s, R s (set_store v s).
Hypothesis on_fullSnapshotTimer : forall v s, R s (set_fullSnapshotTimer (Some v) s).
Hypothesis on_PrevSnapshot : forall v s, R s (set_PrevSnapshot v s).
Hypothesis on_PrevFullSnapshot : forall v s, R s (set_PrevFullSnapshot (Some v) s).
Hypothesis on_deltaSnapshotTimer : forall v s, R s (set_deltaSnapshotTimer (Some v) s).
Hypothesis on_watchCh_open : forall v s, R s (set_watchCh (Some v) s).
Hypothesis on_watchCh_close : forall s, R s (set_watchCh None s).
Hypothesis on_events : forall v s, R s (set_events v s).
Hypothesis on_PrevDeltaSnapshots : forall v s, R s (set_PrevDeltaSnapshots v s).
Hypothesis on_lastEventRevision : forall v s, R s (set_lastEventRevision v s).
Hypothesis on_PrevFullSnapshotSucceeded : forall v s, R s (set_PrevFullSnapshotSucceeded v s).
Hypothesis on_Compress : forall p d s, R s (set_trace (trace s ++ [Compress p d]) s).
Hypothesis on_Save : forall st snap d s, R s (set_trace (trace s ++ [Save st snap d]) s).
Hypothesis on_Watch : forall r s, R s (set_trace (trace s ++ [Watch r]) s).
Hypothesis on_CloseWatch : forall s, R s (set_trace (trace s ++ [CloseWatch]) s).
Hypothesis on_FullSnapshotAck : forall r s, R s (set_trace (trace s ++ [FullSnapshotAck r]) s).
Hypothesis on_DeltaSnapshotAck : forall r s, R s (set_trace (trace s ++ [DeltaSnapshotAck r]) s).
Hypothesis on_LeaseUpdate : forall s, R s (set_trace (trace s ++ [DeltaSnapshotLeaseUpdate]) s).
Hypothesis on_LeaseTimerReset :
  forall d s, R s (set_trace (trace s ++ [FullSnapshotLeaseTimerReset d]) s).

Lemma on_cleanup : forall s, R s (cleanupInMemoryEvents s).
Proof.
  intros s. unfold cleanupInMemoryEvents.
  transitivity (set_events [] s); [apply on_events | apply on_lastEventRevision].
Qed.

Ltac step1 :=
  lazymatch goal with
  | |- steps _ (ret _) => apply steps_ret
  | |- steps _ (fail _) => apply steps_fail
  | |- steps _ get => apply steps_get
  | |- steps _ (try _ _) => apply steps_try
  | |- steps _ (check _ _) => apply steps_check
  | |- steps _ (bind _ _) => apply steps_bind; [| intro]
  | |- steps _ (wrapErr _ _) => apply steps_wrapErr
  | |- steps _ (defer _ _) => apply steps_defer; [apply on_cleanup |]
  | |- steps _ (modify _) => apply steps_modify; intro
  | |- steps _ (if ?b then _ else _) => destruct b
  | |- steps _ (match ?x with _ => _ end) => destruct x
  end.

Ltac step := repeat step1.

Lemma steps_closeEtcdClient : steps R closeEtcdClient.
Proof. unfold closeEtcdClient, emit. step; auto. Qed.

Lemma steps_hasSnapStoreSecretUpdated (w : World) : steps R (hasSnapStoreSecretUpdated w).
Proof. unfold hasSnapStoreSecretUpdated. step; auto. Qed.

Lemma steps_refreshSnapstore (w : World) : steps R (refreshSnapstore w).
Proof.
  unfold refreshSnapstore. step; auto using steps_hasSnapStoreSecretUpdated.
Qed.

Lemma steps_resetFullSnapshotTimer (w : World) : steps R (resetFullSnapshotTimer w).
Proof. unfold resetFullSnapshotTimer. step; auto. Qed.

Lemma steps_TakeAndSaveFullSnapshot (w : World) (lastRevision : Z) (suffix : string)
      (isFinal : bool) :
  steps R (TakeAndSaveFullSnapshot w lastRevision suffix isFinal).
Proof. unfold TakeAndSaveFullSnapshot, emit. step; auto. Qed.

Lemma steps_takeFullSnapshot (isFinal : bool) (w : World) : steps R (takeFullSnapshot isFinal w).
Proof.
  unfold takeFullSnapshot, takeFullSnapshot_body, emit.
  step; auto using steps_closeEtcdClient, steps_refreshSnapstore, steps_TakeAndSaveFullSnapshot.
Qed.

Lemma steps_TakeDeltaSnapshot (w : World) : steps R (TakeDeltaSnapshot w).
Proof.
  unfold TakeDeltaSnapshot, TakeDeltaSnapshot_body, emit.
  step; auto using steps_refreshSnapstore.
Qed.

Lemma steps_takeDeltaSnapshotAndResetTimer (w : World) :
  steps R (takeDeltaSnapshotAndResetTimer w).
Proof.
  unfold takeDeltaSnapshotAndResetTimer. step; auto using steps_TakeDeltaSnapshot.
Qed.

Lemma steps_aggregate (w : World) (evs : list Event) : steps R (aggregate w evs).
Proof.
  induction evs as [| ev rest IH]; simpl; step; auto.
  destruct (Nat.eqb _ _); auto.
Qed.

Lemma steps_handleDeltaWatchEvents (w : World) (wr : WatchResponse) :
  steps R (handleDeltaWatchEvents w wr).
Proof.
  unfold handleDeltaWatchEvents.
  step; auto using steps_aggregate, steps_takeDeltaSnapshotAndResetTimer.
Qed.

Lemma steps_TakeFullSnapshotAndResetTimer (isFinal : bool) (w : World) (s : Snapshotter) :
  R s (snd (TakeFullSnapshotAndResetTimer isFinal w s)).
Proof.
  unfold TakeFullSnapshotAndResetTimer.
  pose proof (steps_takeFullSnapshot isFinal w s) as H1.
  destruct (takeFullSnapshot isFinal w s) as [[snap | err] s1]; cbn [snd] in *; [| exact H1].
  pose proof (steps_resetFullSnapshotTimer w s1) as H2.
  destruct (resetFullSnapshotTimer w s1) as [[[] | err] s2]; cbn [snd] in *.
  all: transitivity s1; assumption.
Qed.

Lemma steps_afterFullSnapshot : steps R afterFullSnapshot.
Proof. unfold afterFullSnapshot, emit. step; auto. Qed.

Lemma steps_afterDeltaSnapshot : steps R afterDeltaSnapshot.
Proof. unfold afterDeltaSnapshot, emit. step; auto. Qed.

Lemma steps_handleMsg (m : Msg) (w : World) : steps R (handleMsg m w).
Proof.
  destruct m as [isFinal | | | | received |]; simpl.
  - intros s.
    pose proof (steps_TakeFullSnapshotAndResetTimer isFinal w s) as H1.
    destruct (TakeFullSnapshotAndResetTimer isFinal w s) as [res s1]. cbn in H1.
    assert (H2 : R s (set_trace (trace s1 ++ [FullSnapshotAck res]) s1))
      by (transitivity s1; [exact H1 | apply on_FullSnapshotAck]).
    destruct (ResErr res).
    + cbn. transitivity (set_trace (trace s1 ++ [FullSnapshotAck res]) s1);
        [exact H2 | apply on_PrevFullSnapshotSucceeded].
    + etransitivity; [exact H2 | apply steps_afterFullSnapshot].
  - intros s.
    pose proof (steps_takeDeltaSnapshotAndResetTimer w s) as H1.
    destruct (takeDeltaSnapshotAndResetTimer w s) as [r s1]. cbn in H1.
    assert (H2 : R s (set_trace (trace s1 ++ [DeltaSnapshotAck (resultOf r)]) s1))
      by (transitivity s1; [exact H1 | apply on_DeltaSnapshotAck]).
    destruct (ResErr (resultOf r)).
    + exact H2.
    + etransitivity; [exact H2 | apply steps_afterDeltaSnapshot].
  - intros s.
    pose proof (steps_TakeFullSnapshotAndResetTimer false w s) as H1.
    destruct (TakeFullSnapshotAndResetTimer false w s) as [res s1]. cbn in H1.
    destruct (ResErr res).
    + cbn. transitivity s1; [exact H1 | apply on_PrevFullSnapshotSucceeded].
    + etransitivity; [exact H1 | apply steps_afterFullSnapshot].
  - step; auto using steps_takeDeltaSnapshotAndResetTimer, steps_afterDeltaSnapshot.
  - unfold emit.
    step; auto using steps_handleDeltaWatchEvents.
  - step. apply on_cleanup.
Qed.

Lemma steps_snapshotEventHandler (inbox : list (Msg * World)) :
  forall s, R s (snd (fst (snapshotEventHandler inbox s))).
Proof.
  induction inbox as [| [m w] rest IH]; intros s; simpl; [reflexivity |].
  pose proof (steps_handleMsg m w s) as H1.
  destruct (handleMsg m w s) as [[[] | err] s1]; cbn in *; try exact H1.
  transitivity s1; [exact H1 | apply IH].
Qed.

End StepFacts.

(** ** The relations that are followed through the methods *)

Section Relations.
Import Go brtypes Snapshotter Observe.
Open Scope Z_scope.
Open Scope list_scope.

Lemma adds_refl (P : Effect -> Prop) (s : Snapshotter) : adds P s s.
Proof. exists []. rewrite app_nil_r. split; [reflexivity | constructor]. Qed.

Lemma adds_trans (P : Effect -> Prop) (s1 s2 s3 : Snapshotter) :
  adds P s1 s2 -> adds P s2 s3 -> adds P s1 s3.
Proof.
  intros (n1 & H1 & F1) (n2 & H2 & F2). exists (n1 ++ n2).
  rewrite H2, H1, <- app_assoc. split; [reflexivity | apply Forall_app; auto].
Qed.

(** A state with one more call in its record. *)
Lemma adds_one (P : Effect -> Prop) (e : Effect) (s : Snapshotter) :
  P e -> adds P s (set_trace (trace s ++ [e]) s).
Proof. intros He. exists [e]. split; [reflexivity | repeat constructor; exact He]. Qed.

(** A state with the same record of calls. *)
Lemma adds_none (P : Effect -> Prop) (s s' : Snapshotter) :
  trace s' = trace s -> adds P s s'.
Proof. intros H. exists []. rewrite app_nil_r. split; [exact H | constructor]. Qed.

Lemma no_acks (new : list Effect) :
  Forall quiet new -> fullAcks new = [] /\ deltaAcks new = [].
Proof.
  induction 1 as [| e new He _ [IH1 IH2]]; [split; reflexivity |].
  unfold fullAcks, deltaAcks in *. simpl. rewrite IH1, IH2.
  destruct e; simpl in *; try (split; reflexivity); exfalso; apply He; exact I.
Qed.

Lemma fullAcks_app (l1 l2 : list Effect) : fullAcks (l1 ++ l2) = fullAcks l1 ++ fullAcks l2.
Proof. apply flat_map_app. Qed.

Lemma deltaAcks_app (l1 l2 : list Effect) : deltaAcks (l1 ++ l2) = deltaAcks l1 ++ deltaAcks l2.
Proof. apply flat_map_app. Qed.

End Relations.

#[local] Instance adds_preorder (P : Snapshotter.Effect -> Prop) : PreOrder (Observe.adds P).
Proof. split; [intros s; apply adds_refl | intros s1 s2 s3; apply adds_trans]. Qed.

#[local] Instance same_preorder {B} (f : Snapshotter.Snapshotter -> B) : PreOrder (Observe.same f).
Proof.
  split; [intros s; reflexivity |].
  intros s1 s2 s3 H1 H2. unfold Observe.same in *. congruence.
Qed.

(** The relation at hand holds of the assignment or the call. *)
Ltac primitive :=
  intros;
  first [ reflexivity
        | unfold Observe.same; reflexivity
        | apply adds_none; reflexivity
        | apply adds_one; cbv; tauto ].

(** One step into a method. *)
Ltac method1 :=
  lazymatch goal with
  | |- Observe.steps _ (Go.ret _) => apply steps_ret
  | |- Observe.steps _ (Go.fail _) => apply steps_fail
  | |- Observe.steps _ Go.get => apply steps_get
  | |- Observe.steps _ (Go.try _ _) => apply steps_try
  | |- Observe.steps _ (Go.check _ _) => apply steps_check
  | |- Observe.steps _ (Go.bind _ _) => apply steps_bind; [typeclasses eauto | | intro]
  | |- Observe.steps _ (Go.wrapErr _ _) => apply steps_wrapErr
  | |- Observe.steps _ (Go.defer _ _) => apply steps_defer
  | |- Observe.steps _ (Go.modify _) => apply steps_modify; intro
  | |- Observe.steps _ (Snapshotter.emit _) => unfold Snapshotter.emit
  | |- Observe.steps _ Snapshotter.closeEtcdClient => apply steps_closeEtcdClient
  | |- Observe.steps _ (Snapshotter.refreshSnapstore _) => apply steps_refreshSnapstore
  | |- Observe.steps _ (Snapshotter.resetFullSnapshotTimer _) =>
      apply steps_resetFullSnapshotTimer
  | |- Observe.steps _ (Snapshotter.takeFullSnapshot _ _) => apply steps_takeFullSnapshot
  | |- Observe.steps _ (Snapshotter.TakeDeltaSnapshot _) => apply steps_TakeDeltaSnapshot
  | |- Observe.steps _ (Snapshotter.takeDeltaSnapshotAndResetTimer _) =>
      apply steps_takeDeltaSnapshotAndResetTimer
  | |- Observe.steps _ (Snapshotter.aggregate _ _) => apply steps_aggregate
  | |- Observe.steps _ (Snapshotter.handleDeltaWatchEvents _ _) =>
      apply steps_handleDeltaWatchEvents
  | |- Observe.steps _ Snapshotter.afterFullSnapshot => apply steps_afterFullSnapshot
  | |- Observe.steps _ Snapshotter.afterDeltaSnapshot => apply steps_afterDeltaSnapshot
  | |- Observe.steps _ (if ?b then _ else _) => destruct b
  | |- Observe.steps _ (match ?x with _ => _ end) => destruct x
  end.

Ltac method := repeat method1; try typeclasses eauto; try primitive.

(** ** The event loop: acknowledgements *)

Section AckFacts.
Import Go brtypes Snapshotter Observe.
Open Scope Z_scope.
Open Scope list_scope.

Lemma TakeFullSnapshotAndResetTimer_quiet (isFinal : bool) (w : World) (s : Snapshotter) :
  adds quiet s (snd (TakeFullSnapshotAndResetTimer isFinal w s)).
Proof. apply steps_TakeFullSnapshotAndResetTimer; try typeclasses eauto; primitive. Qed.

Lemma takeDeltaSnapshotAndResetTimer_quiet (w : World) (s : Snapshotter) :
  adds quiet s (snd (takeDeltaSnapshotAndResetTimer w s)).
Proof. apply steps_takeDeltaSnapshotAndResetTimer; try typeclasses eauto; primitive. Qed.

Lemma handleDeltaWatchEvents_quiet (w : World) (wr : WatchResponse) (s : Snapshotter) :
  adds quiet s (snd (handleDeltaWatchEvents w wr s)).
Proof. apply steps_handleDeltaWatchEvents; try typeclasses eauto; primitive. Qed.

Lemma afterFullSnapshot_quiet (s : Snapshotter) : adds quiet s (snd (afterFullSnapshot s)).
Proof. apply steps_afterFullSnapshot; try typeclasses eauto; primitive. Qed.

Lemma afterDeltaSnapshot_quiet (s : Snapshotter) : adds quiet s (snd (afterDeltaSnapshot s)).
Proof. apply steps_afterDeltaSnapshot; try typeclasses eauto; primitive. Qed.

(** The acknowledgements one turn of the loop sends. *)
Lemma handleMsg_acks (m : Msg) (w : World) (s : Snapshotter) :
  exists new,
    trace (snd (handleMsg m w s)) = trace s ++ new /\
    List.length (fullAcks new) = List.length (fullRequests [(m, w)]) /\
    List.length (deltaAcks new) = List.length (deltaRequests [(m, w)]).
Proof.
  assert (Hquiet : forall s', adds quiet s s' ->
                   exists new, trace s' = trace s ++ new /\
                               fullAcks new = [] /\ deltaAcks new = []).
  { intros s' (new & Htr & Hq). exists new. split; [exact Htr | apply no_acks, Hq]. }
  assert (Hsilent : steps (adds quiet) (handleMsg m w) ->
                    fullRequests [(m, w)] = [] -> deltaRequests [(m, w)] = [] ->
                    exists new,
                      trace (snd (handleMsg m w s)) = trace s ++ new /\
                      List.length (fullAcks new) = List.length (fullRequests [(m, w)]) /\
                      List.length (deltaAcks new) = List.length (deltaRequests [(m, w)])).
  { intros Hsteps -> ->. destruct (Hquiet _ (Hsteps s)) as (new & Htr & Hf & Hd).
    exists new. rewrite Hf, Hd. auto. }
  destruct m as [isFinal | | | | received |].
  - simpl.
    pose proof (TakeFullSnapshotAndResetTimer_quiet isFinal w s) as H1.
    destruct (TakeFullSnapshotAndResetTimer isFinal w s) as [res s1]. cbn [snd] in H1.
    destruct H1 as (n1 & Htr1 & Hq1). apply no_acks in Hq1 as [Hf1 Hd1].
    destruct (ResErr res).
    + exists (n1 ++ [FullSnapshotAck res]). cbn [snd trace set_trace set_PrevFullSnapshotSucceeded]. rewrite Htr1, <- app_assoc.
      rewrite fullAcks_app, deltaAcks_app, Hf1, Hd1. repeat split.
    + pose proof (afterFullSnapshot_quiet (set_trace (trace s1 ++ [FullSnapshotAck res]) s1))
        as (n2 & Htr2 & Hq2).
      apply no_acks in Hq2 as [Hf2 Hd2].
      exists (n1 ++ [FullSnapshotAck res] ++ n2). rewrite Htr2. cbn [trace set_trace].
      rewrite Htr1, <- !app_assoc.
      rewrite !fullAcks_app, !deltaAcks_app, Hf1, Hd1, Hf2, Hd2. repeat split.
  - simpl.
    pose proof (takeDeltaSnapshotAndResetTimer_quiet w s) as H1.
    destruct (takeDeltaSnapshotAndResetTimer w s) as [r s1]. cbn [snd] in H1.
    destruct H1 as (n1 & Htr1 & Hq1). apply no_acks in Hq1 as [Hf1 Hd1].
    destruct (ResErr (resultOf r)).
    + exists (n1 ++ [DeltaSnapshotAck (resultOf r)]). cbn [snd trace set_trace]. rewrite Htr1, <- app_assoc.
      rewrite fullAcks_app, deltaAcks_app, Hf1, Hd1. repeat split.
    + pose proof (afterDeltaSnapshot_quiet
                    (set_trace (trace s1 ++ [DeltaSnapshotAck (resultOf r)]) s1))
        as (n2 & Htr2 & Hq2).
      apply no_acks in Hq2 as [Hf2 Hd2].
      exists (n1 ++ [DeltaSnapshotAck (resultOf r)] ++ n2). rewrite Htr2. cbn [trace set_trace].
      rewrite Htr1, <- !app_assoc.
      rewrite !fullAcks_app, !deltaAcks_app, Hf1, Hd1, Hf2, Hd2. repeat split.
  - apply Hsilent; [| reflexivity | reflexivity].
    intros s0. simpl.
    pose proof (TakeFullSnapshotAndResetTimer_quiet false w s0) as H1.
    destruct (TakeFullSnapshotAndResetTimer false w s0) as [res s1]. cbn [snd] in H1.
    destruct (ResErr res).
    + cbn. etransitivity; [exact H1 | primitive].
    + etransitivity; [exact H1 | apply afterFullSnapshot_quiet].
  - apply Hsilent; [| reflexivity | reflexivity]. simpl. method.
  - apply Hsilent; [| reflexivity | reflexivity]. simpl. method.
  - apply Hsilent; [| reflexivity | reflexivity]. simpl. method.
Qed.

(** X1.  Whatever the messages, the loop of [snapshotEventHandler] sends
    exactly one acknowledgement for every request it takes, on the channel
    of the request, also when the snapshot fails and the loop ends; a
    timer or a watch response is never acknowledged.  So a trigger whose
    request was taken does not wait for its answer in vain. *)
Theorem every_request_acknowledged (inbox : list (Msg * World)) (s : Snapshotter) :
  let run := snapshotEventHandler inbox s in
  exists taken new,
    inbox = taken ++ snd run /\
    trace (snd (fst run)) = trace s ++ new /\
    List.length (fullAcks new) = List.length (fullRequests taken) /\
    List.length (deltaAcks new) = List.length (deltaRequests taken).
Proof.
  cbv zeta. revert s.
  induction inbox as [| [m w] rest IH]; intros s.
  - exists [], []. simpl. rewrite app_nil_r. repeat split.
  - simpl.
    destruct (handleMsg_acks m w s) as (n1 & Htr1 & Hf1 & Hd1).
    destruct (handleMsg m w s) as [[[] | err] s1]; cbn [fst snd] in *.
    + destruct (IH s1) as (taken & n2 & Hin & Htr2 & Hf2 & Hd2).
      exists ((m, w) :: taken), (n1 ++ n2).
      split; [simpl; congruence |].
      split; [rewrite Htr2, Htr1, <- app_assoc; reflexivity |].
      change ((m, w) :: taken) with ([(m, w)] ++ taken).
      unfold fullRequests, deltaRequests in *.
      rewrite fullAcks_app, deltaAcks_app, !flat_map_app, !length_app.
      split; congruence.
    + exists [(m, w)], n1. repeat split; assumption.
    + exists [(m, w)], n1. repeat split; assumption.
Qed.

End AckFacts.

(** ** The event loop: how it ends, and the size of the buffer *)

Section LoopEndFacts.
Import Go brtypes Snapshotter Observe.
Open Scope Z_scope.
Open Scope list_scope.

(** Only the stop signal makes a turn of the loop return [nil]. *)
Lemma handleMsg_ReturnNil (m : Msg) (w : World) (s : Snapshotter) :
  fst (handleMsg m w s) = Ok ReturnNil -> m = StopMsg.
Proof.
  destruct m as [isFinal | | | | received |]; simpl; [| | | | | reflexivity].
  - destruct (TakeFullSnapshotAndResetTimer isFinal w s) as [res s1].
    destruct (ResErr res); [discriminate |].
    rewrite afterFullSnapshot_continues. discriminate.
  - destruct (takeDeltaSnapshotAndResetTimer w s) as [r s1].
    destruct (ResErr (resultOf r)); [discriminate |].
    rewrite afterDeltaSnapshot_continues. discriminate.
  - destruct (TakeFullSnapshotAndResetTimer false w s) as [res s1].
    destruct (ResErr res); [discriminate |].
    rewrite afterFullSnapshot_continues. discriminate.
  - unfold bind, get.
    destruct (Second <=? DeltaSnapshotPeriod (config s)); [| discriminate].
    destruct (takeDeltaSnapshotAndResetTimer w s) as [[r | err] s1]; [| discriminate].
    rewrite afterDeltaSnapshot_continues. discriminate.
  - unfold bind, get.
    destruct (watchCh s); [| discriminate].
    destruct received as [wr |]; [| discriminate].
    destruct (handleDeltaWatchEvents w wr s) as [[[] | err] s1]; [| discriminate].
    destruct (leaseRenewal s1 && _); discriminate.
Qed.

(** X2.  [snapshotEventHandler] returns [nil] only when it has received
    the stop signal, and it has emptied the buffer then; it returns an
    error only on a message other than the stop signal; and as long as it
    has returned nothing it has taken every message. *)
Theorem loop_returns_nil_on_stop_only (inbox : list (Msg * World)) (s : Snapshotter) :
  let run := snapshotEventHandler inbox s in
  match fst (fst run) with
  | Waiting => snd run = []
  | Returned None =>
      (exists taken w, inbox = taken ++ (StopMsg, w) :: snd run) /\
      events (snd (fst run)) = [] /\ lastEventRevision (snd (fst run)) = -1
  | Returned (Some _) =>
      exists taken m w, inbox = taken ++ (m, w) :: snd run /\ m <> StopMsg
  end.
Proof.
  cbv zeta. revert s.
  induction inbox as [| [m w] rest IH]; intros s; [reflexivity |].
  simpl.
  pose proof (handleMsg_ReturnNil m w s) as Hnil.
  destruct (handleMsg m w s) as [[[] | err] s1] eqn:Hrun; cbn [fst snd] in *.
  - specialize (IH s1).
    destruct (snapshotEventHandler rest s1) as [[[[err |] |] s2] rest']; cbn [fst snd] in *.
    + destruct IH as (taken & m' & w' & -> & Hm). exists ((m, w) :: taken), m', w'. auto.
    + destruct IH as ((taken & w' & ->) & He & Hr). split; [| auto].
      exists ((m, w) :: taken), w'. reflexivity.
    + exact IH.
  - rewrite (Hnil eq_refl) in Hrun. simpl in Hrun.
    injection Hrun as <-. rewrite (Hnil eq_refl).
    split; [exists [], w; reflexivity | split; reflexivity].
  - exists [], m, w. split; [reflexivity |].
    intros ->. simpl in Hrun. discriminate.
Qed.

(** *** The buffer and the memory limit *)

Lemma takeFullSnapshot_empties (isFinal : bool) (w : World) (s : Snapshotter) :
  events (snd (takeFullSnapshot isFinal w s)) = [].
Proof. unfold takeFullSnapshot. rewrite defer_cleanup_state. reflexivity. Qed.

Lemma TakeDeltaSnapshot_empties (w : World) (s : Snapshotter) :
  events (snd (TakeDeltaSnapshot w s)) = [].
Proof. unfold TakeDeltaSnapshot. rewrite defer_cleanup_state. reflexivity. Qed.

Lemma TakeFullSnapshotAndResetTimer_empties (isFinal : bool) (w : World) (s : Snapshotter) :
  events (snd (TakeFullSnapshotAndResetTimer isFinal w s)) = [].
Proof.
  unfold TakeFullSnapshotAndResetTimer.
  pose proof (takeFullSnapshot_empties isFinal w s) as H1.
  destruct (takeFullSnapshot isFinal w s) as [[snap | err] s1]; cbn [snd] in *; [| exact H1].
  assert (H2 : same events s1 (snd (resetFullSnapshotTimer w s1)))
    by (apply (steps_resetFullSnapshotTimer (same events)); try typeclasses eauto; primitive).
  destruct (resetFullSnapshotTimer w s1) as [[[] | err] s2]; cbn [snd] in *.
  all: unfold same in H2; congruence.
Qed.

Lemma takeDeltaSnapshotAndResetTimer_empties (w : World) (s : Snapshotter) :
  events (snd (takeDeltaSnapshotAndResetTimer w s)) = [].
Proof.
  unfold takeDeltaSnapshotAndResetTimer, bind, get, modify, ret.
  pose proof (TakeDeltaSnapshot_empties w s) as H1.
  destruct (TakeDeltaSnapshot w s) as [[snap | err] s1]; cbn [snd] in *; exact H1.
Qed.

Lemma handleMsg_config (m : Msg) (w : World) (s : Snapshotter) :
  config (snd (handleMsg m w s)) = config s.
Proof. apply (steps_handleMsg (same config)); try typeclasses eauto; primitive. Qed.

Lemma aggregate_config (w : World) (evs : list Event) (s : Snapshotter) :
  config (snd (aggregate w evs s)) = config s.
Proof. apply (steps_aggregate (same config)); try typeclasses eauto; primitive. Qed.

Lemma afterFullSnapshot_events (s : Snapshotter) :
  events (snd (afterFullSnapshot s)) = events s.
Proof. apply (steps_afterFullSnapshot (same events)); try typeclasses eauto; primitive. Qed.

Lemma afterDeltaSnapshot_events (s : Snapshotter) :
  events (snd (afterDeltaSnapshot s)) = events s.
Proof. apply (steps_afterDeltaSnapshot (same events)); try typeclasses eauto; primitive. Qed.

(** When [handleDeltaWatchEvents] returns [nil], the buffer is empty or
    shorter than the memory limit. *)
Lemma handleDeltaWatchEvents_bounded (w : World) (wr : WatchResponse) (s : Snapshotter) :
  fst (handleDeltaWatchEvents w wr s) = Ok tt ->
  bounded (snd (handleDeltaWatchEvents w wr s)).
Proof.
  unfold handleDeltaWatchEvents, bind, check, get, ret, fail.
  destruct (WatchErr wr); [discriminate |].
  pose proof (aggregate_config w (Events wr) s) as Hcfg.
  destruct (aggregate w (Events wr) s) as [[[] | err] s1]; cbn [snd] in *; [| discriminate].
  destruct (wrap64 (DeltaSnapshotMemoryLimit (config s1)) <=? Z.of_nat (List.length (events s1)))
    eqn:Hlimit.
  - pose proof (takeDeltaSnapshotAndResetTimer_empties w s1) as He.
    destruct (takeDeltaSnapshotAndResetTimer w s1) as [[snap | err] s2]; [| discriminate].
    intros _. left. exact He.
  - intros _. right. unfold memoryLimit. cbn [snd]. apply Z.leb_gt in Hlimit. exact Hlimit.
Qed.

(** A turn of the loop that goes on leaves the buffer bounded. *)
Lemma handleMsg_bounded (m : Msg) (w : World) (s : Snapshotter) (turn : Turn) :
  bounded s ->
  fst (handleMsg m w s) = Ok turn ->
  bounded (snd (handleMsg m w s)).
Proof.
  intros Hb Hok.
  assert (Hempty : events (snd (handleMsg m w s)) = [] -> bounded (snd (handleMsg m w s)))
    by (intros He; left; exact He).
  assert (Hsame : events (snd (handleMsg m w s)) = events s -> bounded (snd (handleMsg m w s))).
  { intros He. unfold bounded, memoryLimit. rewrite He, handleMsg_config. exact Hb. }
  destruct m as [isFinal | | | | received |]; simpl in *.
  - apply Hempty.
    pose proof (TakeFullSnapshotAndResetTimer_empties isFinal w s) as H1.
    destruct (TakeFullSnapshotAndResetTimer isFinal w s) as [res s1]. cbn [snd] in H1.
    destruct (ResErr res); [exact H1 |].
    rewrite afterFullSnapshot_events. exact H1.
  - apply Hempty.
    pose proof (takeDeltaSnapshotAndResetTimer_empties w s) as H1.
    destruct (takeDeltaSnapshotAndResetTimer w s) as [r s1]. cbn [snd] in H1.
    destruct (ResErr (resultOf r)); [exact H1 |].
    rewrite afterDeltaSnapshot_events. exact H1.
  - apply Hempty.
    pose proof (TakeFullSnapshotAndResetTimer_empties false w s) as H1.
    destruct (TakeFullSnapshotAndResetTimer false w s) as [res s1]. cbn [snd] in H1.
    destruct (ResErr res); [exact H1 |].
    rewrite afterFullSnapshot_events. exact H1.
  - revert Hempty Hsame Hok. unfold bind, get, ret.
    destruct (Second <=? DeltaSnapshotPeriod (config s)); [| auto].
    intros Hempty _ _. apply Hempty.
    pose proof (takeDeltaSnapshotAndResetTimer_empties w s) as H1.
    destruct (takeDeltaSnapshotAndResetTimer w s) as [[r | err] s1]; cbn [snd] in *;
      [| exact H1].
    rewrite afterDeltaSnapshot_events. exact H1.
  - revert Hempty Hsame Hok. unfold bind, get, ret, fail.
    destruct (watchCh s); [| auto].
    destruct received as [wr |]; [| auto].
    intros _ _.
    pose proof (handleDeltaWatchEvents_bounded w wr s) as H1.
    destruct (handleDeltaWatchEvents w wr s) as [[[] | err] s1]; cbn [fst snd] in *;
      [| discriminate].
    intros _. specialize (H1 eq_refl).
    destruct (leaseRenewal s1 && _); [| exact H1].
    exact H1.
  - apply Hempty. reflexivity.
Qed.

(** X3.  The memory limit bounds the buffer between two messages: from a
    state in which the buffer is empty or shorter than
    [DeltaSnapshotMemoryLimit], whenever [snapshotEventHandler] waits for
    its next message, or has returned [nil], the buffer is again empty or
    shorter than the limit; the limit itself never changes. *)
Theorem buffer_stays_below_limit (inbox : list (Msg * World)) (s : Snapshotter) :
  bounded s ->
  let run := snapshotEventHandler inbox s in
  memoryLimit (snd (fst run)) = memoryLimit s /\
  (fst (fst run) = Waiting \/ fst (fst run) = Returned None -> bounded (snd (fst run))).
Proof.
  cbv zeta. revert s.
  induction inbox as [| [m w] rest IH]; intros s Hb; [simpl; auto |].
  simpl.
  pose proof (handleMsg_bounded m w s) as Hstep.
  pose proof (handleMsg_config m w s) as Hcfg.
  destruct (handleMsg m w s) as [[[] | err] s1]; cbn [fst snd] in *.
  - destruct (IH s1 (Hstep _ Hb eq_refl)) as [Hlim Hbounded].
    split; [| exact Hbounded].
    rewrite Hlim. unfold memoryLimit. rewrite Hcfg. reflexivity.
  - split; [unfold memoryLimit; rewrite Hcfg; reflexivity |].
    intros _. exact (Hstep _ Hb eq_refl).
  - split; [unfold memoryLimit; rewrite Hcfg; reflexivity |].
    intros [H | H]; discriminate.
Qed.

End LoopEndFacts.

(** ** Running a method on every answer of its collaborators *)

Ltac plain_term x :=
  lazymatch x with
  | context [match _ with _ => _ end] => fail
  | _ => idtac
  end.

Ltac answers :=
  repeat first
    [ progress cbn -[Z.ltb Z.leb Z.eqb Go.wrap64 Go.add64 SHA256.Sum SHA256.Sum256
                     compressor.GetCompressionSuffix Go.After Go.IsZero Go.Sub
                     Nat.eqb List.length app]
    | progress unfold Go.bind, Go.get, Go.modify, Go.ret, Go.fail, Go.try, Go.check,
        Go.wrapErr, Go.defer, Snapshotter.emit
    | match goal with
      | |- context [match ?x with _ => _ end] => plain_term x; destruct x eqn:?
      end ].

(** The record of calls at the end of a run, as what was added to it. *)
Ltac added :=
  first [ exists []; split; [rewrite app_nil_r; reflexivity |]
        | eexists; split; [rewrite <- ?app_assoc; reflexivity |] ].

(** ** Full snapshots and the watch *)

Section WatchFacts.
Import Go brtypes Snapshotter Observe.
Open Scope Z_scope.
Open Scope list_scope.

(** X4.  A full snapshot closes the watch there was.  When
    [takeFullSnapshot] returns a snapshot, that snapshot is the previous
    snapshot from then on, and, if delta snapshots are enabled (a period of
    a second or more), a new watch is open from the revision after its
    last one; with delta snapshots disabled, and whenever [takeFullSnapshot]
    returns an error, the snapshotter is left without a watch.  The watch
    held at the end is the only one that was opened. *)
Theorem full_snapshot_opens_watch (isFinal : bool) (w : World) (s : Snapshotter) :
  let run := takeFullSnapshot isFinal w s in
  match fst run with
  | Ok snap =>
      PrevSnapshot (snd run) = snap /\
      watchCh (snd run) = (if DeltaSnapshotPeriod (config s) <? Second then None
                           else Some (add64 (LastRevision snap) 1))
  | Err _ => watchCh (snd run) = None
  end /\
  exists new, trace (snd run) = trace s ++ new /\
              forall r, In (Watch r) new -> watchCh (snd run) = Some r.
Proof.
  cbv zeta.
  unfold takeFullSnapshot, takeFullSnapshot_body, closeEtcdClient, refreshSnapstore,
    hasSnapStoreSecretUpdated, TakeAndSaveFullSnapshot.
  answers.
  all: split; [repeat split; auto | added].
  all: intros r Hin; simpl in Hin; intuition (try discriminate; try congruence).
Qed.

(** X5.  A delta snapshot and the aggregation of watch events leave the
    watch alone: after [TakeDeltaSnapshot] and after
    [handleDeltaWatchEvents], whatever they return, the watch is the one
    there was, and no call opened or closed a watch. *)
Theorem delta_snapshot_keeps_watch (w : World) (wr : WatchResponse) (s : Snapshotter) :
  let taken := TakeDeltaSnapshot w s in
  let handled := handleDeltaWatchEvents w wr s in
  (watchCh (snd taken) = watchCh s /\ adds (fun e => ~ watches e) s (snd taken)) /\
  (watchCh (snd handled) = watchCh s /\ adds (fun e => ~ watches e) s (snd handled)).
Proof.
  cbv zeta. repeat split.
  - apply (steps_TakeDeltaSnapshot (same watchCh)); try typeclasses eauto; primitive.
  - apply (steps_TakeDeltaSnapshot (adds (fun e => ~ watches e)));
      try typeclasses eauto; primitive.
  - apply (steps_handleDeltaWatchEvents (same watchCh)); try typeclasses eauto; primitive.
  - apply (steps_handleDeltaWatchEvents (adds (fun e => ~ watches e)));
      try typeclasses eauto; primitive.
Qed.

End WatchFacts.

(** ** The chain of the snapshots that are saved *)

Section ChainFacts.
Import Go brtypes Snapshotter Design Observe.
Open Scope Z_scope.
Open Scope list_scope.

Lemma last_cons (l : list Snapshot) (a d : Snapshot) :
  List.last (a :: l) d = List.last l a.
Proof.
  revert a d. induction l as [| b l IH]; intros a d; [reflexivity |].
  change (List.last (a :: b :: l) d) with (List.last (b :: l) d).
  rewrite (IH b d), (IH b a). reflexivity.
Qed.

Lemma last_of_app (l1 l2 : list Snapshot) (d : Snapshot) :
  List.last (l1 ++ l2) d = List.last l2 (List.last l1 d).
Proof.
  revert d. induction l1 as [| a l1 IH]; intros d; [reflexivity |].
  simpl app. rewrite !last_cons. apply IH.
Qed.

Lemma linked_app (prev : Snapshot) (l1 l2 : list Snapshot) :
  linked prev l1 -> linked (List.last l1 prev) l2 -> linked prev (l1 ++ l2).
Proof.
  revert prev. induction l1 as [| a l1 IH]; intros prev H1 H2; [exact H2 |].
  destruct H1 as [Ha H1]. split; [exact Ha |].
  apply IH; [exact H1 |]. rewrite last_cons in H2. exact H2.
Qed.

Lemma chains_refl (ok : bool) (s : Snapshotter) : chains ok s s.
Proof. exists []. rewrite app_nil_r. split; [reflexivity | split; [exact I | reflexivity]]. Qed.

Lemma chains_trans (ok : bool) (s1 s2 s3 : Snapshotter) :
  chains true s1 s2 -> chains ok s2 s3 -> chains ok s1 s3.
Proof.
  intros (n1 & Htr1 & Hl1 & Hp1) (n2 & Htr2 & Hl2 & Hp2).
  specialize (Hp1 eq_refl).
  exists (n1 ++ n2). rewrite Htr2, Htr1, <- app_assoc, saved_app.
  split; [reflexivity |]. split.
  - apply linked_app; [exact Hl1 |]. rewrite <- Hp1. exact Hl2.
  - intros Hok. rewrite last_of_app, <- Hp1. exact (Hp2 Hok).
Qed.

Lemma chains_weaken (ok : bool) (s s' : Snapshotter) : chains true s s' -> chains ok s s'.
Proof. intros (new & Htr & Hl & Hp). exists new. auto. Qed.

(** A state with the same record of calls and the same previous snapshot. *)
Lemma chains_none (ok : bool) (s s' : Snapshotter) :
  trace s' = trace s -> PrevSnapshot s' = PrevSnapshot s -> chains ok s s'.
Proof.
  intros Htr Hp. exists []. rewrite app_nil_r.
  split; [exact Htr | split; [exact I | intros _; exact Hp]].
Qed.

(** A state with one more call, which hands nothing to the store. *)
Lemma chains_one (ok : bool) (e : Effect) (s : Snapshotter) :
  saved [e] = [] -> chains ok s (set_trace (trace s ++ [e]) s).
Proof. intros He. exists [e]. rewrite He. split; [reflexivity | split; [exact I | reflexivity]]. Qed.

End ChainFacts.

#[local] Instance chains_preorder : PreOrder (Observe.chains true).
Proof. split; [intros s; apply chains_refl | intros s1 s2 s3; apply chains_trans]. Qed.

Ltac chain_primitive :=
  intros; first [ apply chains_none; reflexivity | apply chains_one; reflexivity ].

Section ChainLoopFacts.
Import Go brtypes Snapshotter Design Observe.
Open Scope Z_scope.
Open Scope list_scope.

Lemma takeFullSnapshot_chain (isFinal : bool) (w : World) (s : Snapshotter) :
  chained (fst (takeFullSnapshot isFinal w s)) s (snd (takeFullSnapshot isFinal w s)).
Proof.
  unfold chained, chains, takeFullSnapshot, takeFullSnapshot_body, closeEtcdClient,
    refreshSnapstore, hasSnapStoreSecretUpdated, TakeAndSaveFullSnapshot.
  answers.
  all: added.
  all: rewrite ?saved_app; simpl.
  all: repeat split; try discriminate; auto.
Qed.

Lemma TakeDeltaSnapshot_chain (w : World) (s : Snapshotter) :
  chained (fst (TakeDeltaSnapshot w s)) s (snd (TakeDeltaSnapshot w s)).
Proof.
  unfold chained, chains, TakeDeltaSnapshot, TakeDeltaSnapshot_body, refreshSnapstore,
    hasSnapStoreSecretUpdated.
  answers.
  all: added.
  all: rewrite ?saved_app; simpl.
  all: repeat split; try discriminate; auto.
Qed.


Lemma chained_bind {A B} (m : Ssr A) (k : A -> Ssr B) (s : Snapshotter) :
  chained (fst (m s)) s (snd (m s)) ->
  (forall a s1, chained (fst (k a s1)) s1 (snd (k a s1))) ->
  chained (fst (bind m k s)) s (snd (bind m k s)).
Proof.
  intros Hm Hk. unfold bind.
  destruct (m s) as [[a | err] s1]; cbn [fst snd] in *; [| exact Hm].
  eapply chains_trans; [exact Hm | apply Hk].
Qed.

Lemma chained_steps {A} (m : Ssr A) (s : Snapshotter) :
  steps (chains true) m -> chained (fst (m s)) s (snd (m s)).
Proof. intros Hm. apply chains_weaken, Hm. Qed.

Lemma takeDeltaSnapshotAndResetTimer_chain (w : World) (s : Snapshotter) :
  chained (fst (takeDeltaSnapshotAndResetTimer w s)) s
          (snd (takeDeltaSnapshotAndResetTimer w s)).
Proof.
  unfold takeDeltaSnapshotAndResetTimer.
  apply chained_bind; [apply TakeDeltaSnapshot_chain |].
  intros snap s1. apply chained_steps. method; chain_primitive.
Qed.

Lemma handleDeltaWatchEvents_chain (w : World) (wr : WatchResponse) (s : Snapshotter) :
  chained (fst (handleDeltaWatchEvents w wr s)) s (snd (handleDeltaWatchEvents w wr s)).
Proof.
  unfold handleDeltaWatchEvents.
  apply chained_bind; [apply chained_steps; method |].
  intros _ s1.
  apply chained_bind; [apply chained_steps; method; chain_primitive |].
  intros _ s2.
  apply chained_bind; [apply chained_steps; method |].
  intros s3 s4.
  destruct (wrap64 _ <=? _); [| apply chained_steps; method].
  apply chained_bind; [apply takeDeltaSnapshotAndResetTimer_chain |].
  intros snap s5. apply chained_steps. method.
Qed.

Lemma TakeFullSnapshotAndResetTimer_chain (isFinal : bool) (w : World) (s : Snapshotter) :
  let run := TakeFullSnapshotAndResetTimer isFinal w s in
  chains (match ResErr (fst run) with None => true | Some _ => false end) s (snd run).
Proof.
  cbv zeta. unfold TakeFullSnapshotAndResetTimer.
  pose proof (takeFullSnapshot_chain isFinal w s) as H1.
  destruct (takeFullSnapshot isFinal w s) as [[snap | err] s1]; cbn [fst snd] in *;
    [| exact H1].
  assert (H2 : chains true s1 (snd (resetFullSnapshotTimer w s1)))
    by (apply (steps_resetFullSnapshotTimer (chains true));
        try typeclasses eauto; chain_primitive).
  destruct (resetFullSnapshotTimer w s1) as [[[] | err] s2]; cbn [fst snd ResErr] in *.
  all: eapply chains_trans; [exact H1 |]; apply chains_weaken; exact H2.
Qed.

Lemma afterFullSnapshot_chain (s : Snapshotter) : chains true s (snd (afterFullSnapshot s)).
Proof. apply steps_afterFullSnapshot; try typeclasses eauto; chain_primitive. Qed.

Lemma afterDeltaSnapshot_chain (s : Snapshotter) : chains true s (snd (afterDeltaSnapshot s)).
Proof. apply steps_afterDeltaSnapshot; try typeclasses eauto; chain_primitive. Qed.

(** Calls that hand nothing to the store go on with a chain. *)
Lemma chains_quiet (ok : bool) (s s1 s2 : Snapshotter) (extra : list Effect) :
  chains ok s s1 ->
  trace s2 = trace s1 ++ extra -> saved extra = [] -> PrevSnapshot s2 = PrevSnapshot s1 ->
  chains ok s s2.
Proof.
  intros (new & Htr & Hl & Hp) Htr2 Hex Hp2.
  exists (new ++ extra). rewrite Htr2, Htr, <- app_assoc, saved_app, Hex, app_nil_r.
  split; [reflexivity | split; [exact Hl |]].
  intros Hok. rewrite Hp2. exact (Hp Hok).
Qed.

(** One turn of the loop adds a chain. *)
Lemma handleMsg_chain (m : Msg) (w : World) (s : Snapshotter) :
  chained (fst (handleMsg m w s)) s (snd (handleMsg m w s)).
Proof.
  destruct m as [isFinal | | | | received |]; unfold handleMsg.
  - pose proof (TakeFullSnapshotAndResetTimer_chain isFinal w s) as H1. cbv zeta in H1.
    destruct (TakeFullSnapshotAndResetTimer isFinal w s) as [res s1]. cbn [fst snd] in H1.
    assert (H2 : chains (match ResErr res with None => true | Some _ => false end) s
                        (set_trace (trace s1 ++ [FullSnapshotAck res]) s1))
      by (apply (chains_quiet _ s s1 _ [FullSnapshotAck res]); auto).
    destruct (ResErr res); cbn [fst snd].
    + eapply chains_quiet with (extra := []); [exact H2 | cbn; rewrite app_nil_r | |]; reflexivity.
    + rewrite afterFullSnapshot_continues.
      eapply chains_trans; [exact H2 | apply afterFullSnapshot_chain].
  - pose proof (takeDeltaSnapshotAndResetTimer_chain w s) as H1.
    destruct (takeDeltaSnapshotAndResetTimer w s) as [r s1]. cbn [fst snd] in H1.
    assert (H2 : chained r s (set_trace (trace s1 ++ [DeltaSnapshotAck (resultOf r)]) s1))
      by (apply (chains_quiet _ s s1 _ [DeltaSnapshotAck (resultOf r)]); auto).
    destruct r as [snap | err]; cbn [fst snd resultOf ResErr] in *; [| exact H2].
    rewrite afterDeltaSnapshot_continues.
    eapply chains_trans; [exact H2 | apply afterDeltaSnapshot_chain].
  - pose proof (TakeFullSnapshotAndResetTimer_chain false w s) as H1. cbv zeta in H1.
    destruct (TakeFullSnapshotAndResetTimer false w s) as [res s1]. cbn [fst snd] in H1.
    destruct (ResErr res); cbn [fst snd].
    + eapply chains_quiet with (extra := []); [exact H1 | cbn; rewrite app_nil_r | |]; reflexivity.
    + rewrite afterFullSnapshot_continues.
      eapply chains_trans; [exact H1 | apply afterFullSnapshot_chain].
  - apply chained_bind; [apply chained_steps; method |].
    intros s0 s1. destruct (Second <=? _); [| apply chained_steps; method].
    apply chained_bind; [apply takeDeltaSnapshotAndResetTimer_chain |].
    intros snap s2. apply chained_steps. method; chain_primitive.
  - apply chained_bind; [apply chained_steps; method |].
    intros s0 s1. destruct (watchCh s0); [| apply chained_steps; method].
    destruct received as [wr |]; [| apply chained_steps; method].
    apply chained_bind; [apply handleDeltaWatchEvents_chain |].
    intros _ s2. apply chained_steps. method; chain_primitive.
  - apply chained_steps. method; chain_primitive.
Qed.

(** X6.  The snapshots [snapshotEventHandler] hands to the store form a
    chain, whatever messages come and whatever the collaborators answer:
    every Delta snapshot starts one revision after the end of the
    snapshot handed to the store before it (of the previous snapshot of
    the starting state, for the first one).  And as long as the loop has
    returned no error, its previous snapshot is the last one it handed to
    the store. *)
Theorem saved_snapshots_form_a_chain (inbox : list (Msg * World)) (s : Snapshotter) :
  let run := snapshotEventHandler inbox s in
  exists new,
    trace (snd (fst run)) = trace s ++ new /\
    linked (PrevSnapshot s) (saved new) /\
    ((forall err, fst (fst run) <> Returned (Some err)) ->
     PrevSnapshot (snd (fst run)) = List.last (saved new) (PrevSnapshot s)).
Proof.
  cbv zeta. revert s.
  induction inbox as [| [m w] rest IH]; intros s.
  - exists []. simpl. rewrite app_nil_r. auto.
  - simpl.
    pose proof (handleMsg_chain m w s) as H1.
    destruct (handleMsg m w s) as [[[] | err] s1]; cbn [fst snd] in *.
    + destruct (IH s1) as (n2 & Htr2 & Hl2 & Hp2).
      destruct H1 as (n1 & Htr1 & Hl1 & Hp1). specialize (Hp1 eq_refl).
      exists (n1 ++ n2). rewrite Htr2, Htr1, <- app_assoc, saved_app.
      split; [reflexivity |]. split.
      * apply linked_app; [exact Hl1 |]. rewrite <- Hp1. exact Hl2.
      * intros Hne. rewrite last_of_app, <- Hp1. exact (Hp2 Hne).
    + destruct H1 as (n1 & Htr1 & Hl1 & Hp1). exists n1. auto.
    + destruct H1 as (n1 & Htr1 & Hl1 & Hp1). exists n1.
      split; [exact Htr1 | split; [exact Hl1 |]].
      intros Hne. exfalso. exact (Hne err eq_refl).
Qed.

End ChainLoopFacts.

(** ** Delta snapshots: the empty buffer, the book of snapshots *)

Section DeltaBookFacts.
Import Go brtypes Snapshotter Design Observe.
Open Scope Z_scope.
Open Scope list_scope.

Lemma empty_length (l : list byte) : Nat.eqb (List.length l) 0 = true <-> l = [].
Proof. destruct l; simpl; split; intros H; congruence. Qed.

Lemma nonempty_length (l : list byte) : Nat.eqb (List.length l) 0 = false <-> l <> [].
Proof. destruct l; simpl; split; intros H; congruence. Qed.

Lemma snapshotEventHandler_cons (m : Msg) (w : World) (rest : list (Msg * World))
      (s : Snapshotter) :
  snapshotEventHandler ((m, w) :: rest) s
  = match handleMsg m w s with
    | (Ok Continue, s') => snapshotEventHandler rest s'
    | (Ok ReturnNil, s') => (Returned None, s', rest)
    | (Err err, s') => (Returned (Some err), s', rest)
    end.
Proof. reflexivity. Qed.

(** X7.  With an empty buffer a delta snapshot is skipped:
    [TakeDeltaSnapshot] returns [nil, nil] without a call to any
    collaborator (the credentials are not even checked); a request for a
    delta snapshot is then acknowledged with [nil, nil], the delta timer
    is armed again with the configured period, and the loop goes on. *)
Theorem empty_buffer_delta_is_skipped (w : World) (s : Snapshotter)
        (rest : list (Msg * World)) :
  events s = [] ->
  let skipped := set_deltaSnapshotTimer (Some (DeltaSnapshotPeriod (config s)))
                   (cleanupInMemoryEvents s) in
  let ack := DeltaSnapshotAck {| ResSnapshot := None; ResErr := None |} in
  TakeDeltaSnapshot w s = (Ok None, cleanupInMemoryEvents s) /\
  trace (cleanupInMemoryEvents s) = trace s /\
  takeDeltaSnapshotAndResetTimer w s = (Ok None, skipped) /\
  snapshotEventHandler ((DeltaSnapshotReq, w) :: rest) s
  = snapshotEventHandler rest
      (snd (afterDeltaSnapshot (set_trace (trace skipped ++ [ack]) skipped))).
Proof.
  intros Hempty. cbv zeta.
  assert (Htake : TakeDeltaSnapshot w s = (Ok None, cleanupInMemoryEvents s)).
  { unfold TakeDeltaSnapshot, defer, TakeDeltaSnapshot_body, bind, get, ret.
    rewrite Hempty. reflexivity. }
  assert (Hreset : takeDeltaSnapshotAndResetTimer w s
                   = (Ok None, set_deltaSnapshotTimer (Some (DeltaSnapshotPeriod (config s)))
                                 (cleanupInMemoryEvents s))).
  { unfold takeDeltaSnapshotAndResetTimer, bind. rewrite Htake. reflexivity. }
  repeat split; [exact Htake | exact Hreset |].
  rewrite snapshotEventHandler_cons.
  assert (Hmsg : handleMsg DeltaSnapshotReq w s
                 = afterDeltaSnapshot
                     (set_trace
                        (trace (set_deltaSnapshotTimer (Some (DeltaSnapshotPeriod (config s)))
                                  (cleanupInMemoryEvents s))
                         ++ [DeltaSnapshotAck {| ResSnapshot := None; ResErr := None |}])
                        (set_deltaSnapshotTimer (Some (DeltaSnapshotPeriod (config s)))
                           (cleanupInMemoryEvents s))))
    by (unfold handleMsg; rewrite Hreset; reflexivity).
  rewrite Hmsg.
  match goal with
  | |- context [afterDeltaSnapshot ?x] =>
      pose proof (afterDeltaSnapshot_continues x) as Hgo;
      destruct (afterDeltaSnapshot x) as [turn s2]
  end.
  simpl in Hgo. subst turn. reflexivity.
Qed.

(** X8.  The book [TakeDeltaSnapshot] keeps: [PrevFullSnapshot] never
    changes; when a snapshot is returned the buffer was not empty, the
    snapshot is the previous snapshot from then on and it is appended to
    [PrevDeltaSnapshots]; when [nil, nil] is returned the buffer was
    empty; and with [nil, nil] or an error, [PrevSnapshot] and
    [PrevDeltaSnapshots] stay as they were. *)
Theorem delta_snapshot_bookkeeping (w : World) (s : Snapshotter) :
  let run := TakeDeltaSnapshot w s in
  PrevFullSnapshot (snd run) = PrevFullSnapshot s /\
  match fst run with
  | Ok (Some snap) =>
      events s <> [] /\ PrevSnapshot (snd run) = snap /\
      PrevDeltaSnapshots (snd run) = PrevDeltaSnapshots s ++ [snap]
  | Ok None =>
      events s = [] /\ PrevSnapshot (snd run) = PrevSnapshot s /\
      PrevDeltaSnapshots (snd run) = PrevDeltaSnapshots s
  | Err _ =>
      events s <> [] /\ PrevSnapshot (snd run) = PrevSnapshot s /\
      PrevDeltaSnapshots (snd run) = PrevDeltaSnapshots s
  end.
Proof.
  cbv zeta.
  unfold TakeDeltaSnapshot, TakeDeltaSnapshot_body, refreshSnapstore, hasSnapStoreSecretUpdated.
  answers.
  all: repeat split; try reflexivity.
  all: first [ apply empty_length; assumption | apply nonempty_length; assumption ].
Qed.

(** X9.  The book [takeFullSnapshot] keeps when it returns a snapshot:
    either a snapshot was taken, and it is [PrevSnapshot] and
    [PrevFullSnapshot] and the list of delta snapshots is empty; or the
    final snapshot was skipped, and the snapshot returned is the previous
    one, with nothing changed and nothing saved: the only calls made
    close and open the watch. *)
Theorem full_snapshot_bookkeeping (isFinal : bool) (w : World) (s : Snapshotter) :
  let run := takeFullSnapshot isFinal w s in
  forall snap, fst run = Ok snap ->
    PrevSnapshot (snd run) = snap /\
    ((PrevFullSnapshot (snd run) = Some snap /\ PrevDeltaSnapshots (snd run) = [] /\
      exists new st stream, trace (snd run) = trace s ++ new /\ In (Save st snap stream) new) \/
     (isFinal = true /\ snap = PrevSnapshot s /\ IsFinal snap = true /\
      PrevFullSnapshot (snd run) = PrevFullSnapshot s /\
      PrevDeltaSnapshots (snd run) = PrevDeltaSnapshots s /\
      exists new, trace (snd run) = trace s ++ new /\ saved new = [] /\
                  forall e, In e new -> watches e)).
Proof.
  cbv zeta.
  unfold takeFullSnapshot, takeFullSnapshot_body, closeEtcdClient, refreshSnapstore,
    hasSnapStoreSecretUpdated, TakeAndSaveFullSnapshot.
  answers.
  all: intros snap Hsnap; try discriminate; injection Hsnap as <-.
  all: split; [reflexivity |].
  all: try (right;
            repeat match goal with
                   | H : _ && _ = true |- _ => apply andb_true_iff in H as [? ?]
                   end;
            do 5 (split; [solve [auto] |]);
            added; (split; [reflexivity |]);
            intros e Hin; simpl in Hin; intuition (subst; exact I); fail).
  all: left; split; [reflexivity | split; [reflexivity |]].
  all: do 3 eexists; split; [rewrite <- ?app_assoc; reflexivity |].
  all: simpl; auto 10.
  all: rewrite ?in_app_iff; simpl; auto 10.
Qed.

End DeltaBookFacts.

(** ** The credentials of the snap store *)

Section CredentialFacts.
Import Go brtypes Snapshotter Design Observe.
Open Scope Z_scope.
Open Scope list_scope.

(** X10.  [hasSnapStoreSecretUpdated] answers [true] exactly when the
    credentials were modified after the time it saw last, and it then
    takes the new time as the time seen last; that time never goes back;
    and a second check against the same modification time answers
    [false] and changes nothing. *)
Theorem secret_update_is_seen_once (w : World) (s : Snapshotter) :
  let run := hasSnapStoreSecretUpdated w s in
  (fst run = Ok true <->
   exists t, GetSnapstoreSecretModifiedTime w = Val t /\ lastSecretModifiedTime s < t) /\
  (fst run = Ok true ->
   GetSnapstoreSecretModifiedTime w = Val (lastSecretModifiedTime (snd run))) /\
  lastSecretModifiedTime s <= lastSecretModifiedTime (snd run) /\
  (forall b, fst run = Ok b -> hasSnapStoreSecretUpdated w (snd run) = (Ok false, snd run)).
Proof.
  cbv zeta. unfold hasSnapStoreSecretUpdated, bind, try, get, modify, ret, fail, After.
  destruct (GetSnapstoreSecretModifiedTime w) as [t | err]; cbn.
  2:{ repeat split; try discriminate; try lia. intros (t & H & _). discriminate. }
  destruct (Z.ltb_spec (lastSecretModifiedTime s) t) as [Hlt | Hge]; cbn.
  - repeat split; try lia; eauto.
    intros b _. rewrite Z.ltb_irrefl. reflexivity.
  - repeat split; try discriminate; try lia.
    + intros (t' & H & Hlt). injection H as <-. lia.
    + intros b _. destruct (Z.ltb_spec (lastSecretModifiedTime s) t); [lia | reflexivity].
Qed.


End CredentialFacts.

(** ** A snapshot that is saved and reported as failed *)

Section ScheduleFacts.
Import Go brtypes Snapshotter Design Observe.
Open Scope Z_scope.
Open Scope list_scope.

Lemma takeFullSnapshot_schedule (isFinal : bool) (w : World) (s : Snapshotter) :
  schedule (snd (takeFullSnapshot isFinal w s)) = schedule s.
Proof. apply (steps_takeFullSnapshot (same schedule)); try typeclasses eauto; primitive. Qed.

Lemma takeFullSnapshot_fullSnapshotTimer (isFinal : bool) (w : World) (s : Snapshotter) :
  fullSnapshotTimer (snd (takeFullSnapshot isFinal w s)) = fullSnapshotTimer s.
Proof.
  apply (steps_takeFullSnapshot (same fullSnapshotTimer)); try typeclasses eauto; primitive.
Qed.

(** X12.  When the schedule has no next activation (its [Next] is the
    zero time), a full snapshot that was taken and saved is still reported
    as failed: [TakeFullSnapshotAndResetTimer] returns the snapshot
    together with the error "error in full snapshot schedule" and leaves
    the timer as it was; the loop acknowledges a request with both,
    records that the full snapshot did not succeed and returns the error,
    and it does the same, without an acknowledgement, when the timer
    fired. *)
Theorem saved_full_snapshot_reported_failed (isFinal : bool) (w : World) (s s1 : Snapshotter)
        (snap : Snapshot) (rest : list (Msg * World)) :
  takeFullSnapshot isFinal w s = (Ok snap, s1) ->
  IsZero (schedule s (now w)) = true ->
  let err := Errorf "error in full snapshot schedule" [] in
  let res := {| ResSnapshot := Some snap; ResErr := Some err |} in
  TakeFullSnapshotAndResetTimer isFinal w s = (res, s1) /\
  fullSnapshotTimer s1 = fullSnapshotTimer s /\
  snapshotEventHandler ((FullSnapshotReq isFinal, w) :: rest) s
  = (Returned (Some err),
     set_PrevFullSnapshotSucceeded false (set_trace (trace s1 ++ [FullSnapshotAck res]) s1),
     rest) /\
  (isFinal = false ->
   snapshotEventHandler ((FullSnapshotTimerFired, w) :: rest) s
   = (Returned (Some err), set_PrevFullSnapshotSucceeded false s1, rest)).
Proof.
  intros Hrun Hzero. cbv zeta.
  pose proof (takeFullSnapshot_schedule isFinal w s) as Hsched.
  pose proof (takeFullSnapshot_fullSnapshotTimer isFinal w s) as Htimer.
  assert (Hreset : TakeFullSnapshotAndResetTimer isFinal w s
                   = ({| ResSnapshot := Some snap;
                         ResErr := Some (Errorf "error in full snapshot schedule" []) |}, s1)).
  { unfold TakeFullSnapshotAndResetTimer. rewrite Hrun in *. cbn [snd] in Hsched.
    unfold resetFullSnapshotTimer, bind, get, fail. rewrite Hsched, Hzero. reflexivity. }
  rewrite Hrun in Htimer.
  split; [exact Hreset |]. split; [exact Htimer |].
  rewrite !snapshotEventHandler_cons. unfold handleMsg.
  split.
  - rewrite Hreset. reflexivity.
  - intros ->. rewrite Hreset. reflexivity.
Qed.

End ScheduleFacts.

(** ** The buffer of events *)

Section BufferFacts.
Import Go brtypes Snapshotter Design Observe.
Open Scope Z_scope.
Open Scope list_scope.

Lemma appended_cons (buffer j : list byte) (js : list (list byte)) :
  appended ((buffer ++ [if Nat.eqb (List.length buffer) 0 then x5b else x2c]) ++ j) js
  = appended buffer (j :: js).
Proof.
  destruct js as [| j2 js]; simpl.
  - rewrite <- app_assoc. reflexivity.
  - rewrite !length_app. simpl.
    replace (Nat.eqb (List.length buffer + 1 + List.length j) 0) with false
      by (symmetry; apply Nat.eqb_neq; lia).
    rewrite <- !app_assoc. reflexivity.
Qed.

(** One turn of the loop of [handleDeltaWatchEvents]. *)
Lemma aggregate_cons (w : World) (ev : Event) (evs : list Event) (j : list byte)
      (s : Snapshotter) :
  Marshal w (newEvent w ev) = Val j ->
  aggregate w (ev :: evs) s
  = aggregate w evs
      (set_lastEventRevision (ModRevision ev)
         (set_events
            ((events s ++ [if Nat.eqb (List.length (events s)) 0 then x5b else x2c]) ++ j) s)).
Proof.
  intros Hj. simpl. unfold bind, try, modify, ret. rewrite Hj.
  destruct (Nat.eqb (List.length (events s)) 0); reflexivity.
Qed.

(** The loop of [handleDeltaWatchEvents] on events that can be marshalled. *)
Lemma aggregate_appended (w : World) (evs : list Event) (js : list (list byte)) :
  Forall2 (fun ev j => Marshal w (newEvent w ev) = Val j) evs js ->
  forall s,
    fst (aggregate w evs s) = Ok tt /\
    events (snd (aggregate w evs s)) = appended (events s) js /\
    lastEventRevision (snd (aggregate w evs s))
    = default (lastEventRevision s) (ModRevision <$> last evs).
Proof.
  induction 1 as [| ev j evs js Hj _ IH]; intros s; [repeat split |].
  rewrite (aggregate_cons w ev evs j s Hj).
  match goal with
  | |- context [aggregate w evs ?s1] => destruct (IH s1) as (Hok & Hev & Hrev)
  end.
  split; [exact Hok |]. split.
  - rewrite Hev. apply appended_cons.
  - rewrite Hrev. destruct evs as [| ev2 evs]; [reflexivity |].
    cbn [last]. destruct (last (ev2 :: evs)) eqn:Hl; [reflexivity |].
    apply last_None in Hl. discriminate.
Qed.

(** X13.  [handleDeltaWatchEvents] keeps the buffer as a JSON array that
    is still open: the events of a response, as [json.Marshal] renders
    them, are appended with [[] before the first event of an empty buffer
    and a comma before every other one.  While the buffer stays shorter
    than the memory limit nothing else happens: [lastEventRevision] is the
    [ModRevision] of the last event and no call is made. *)
Theorem watch_events_extend_json_array (w : World) (wr : WatchResponse) (s : Snapshotter)
        (js : list (list byte)) :
  WatchErr wr = None ->
  Forall2 (fun ev j => Marshal w (newEvent w ev) = Val j) (Events wr) js ->
  Z.of_nat (List.length (appended (events s) js)) < memoryLimit s ->
  let run := handleDeltaWatchEvents w wr s in
  fst run = Ok tt /\
  events (snd run) = appended (events s) js /\
  lastEventRevision (snd run) = default (lastEventRevision s) (ModRevision <$> last (Events wr)) /\
  trace (snd run) = trace s /\
  PrevSnapshot (snd run) = PrevSnapshot s.
Proof.
  intros Herr Hjs Hlimit. cbv zeta.
  destruct (aggregate_appended w (Events wr) js Hjs s) as (Hok & Hev & Hrev).
  pose proof (aggregate_config w (Events wr) s) as Hcfg.
  assert (Htr : trace (snd (aggregate w (Events wr) s)) = trace s)
    by (apply (steps_aggregate (same trace)); try typeclasses eauto; primitive).
  assert (Hps : PrevSnapshot (snd (aggregate w (Events wr) s)) = PrevSnapshot s)
    by (apply (steps_aggregate (same PrevSnapshot)); try typeclasses eauto; primitive).
  unfold handleDeltaWatchEvents, bind, check, get, ret. rewrite Herr.
  destruct (aggregate w (Events wr) s) as [[[] | e] s1]; cbn [fst snd] in *; [| discriminate].
  unfold memoryLimit in Hlimit. rewrite Hcfg, Hev.
  destruct (Z.leb_spec (wrap64 (DeltaSnapshotMemoryLimit (config s)))
                       (Z.of_nat (List.length (appended (events s) js)))); [lia |].
  cbn. rewrite Hev. auto.
Qed.

(** X14.  When the events of a response take the buffer to the memory
    limit, [handleDeltaWatchEvents] takes a delta snapshot at once, of
    the whole buffer with the events of this response in it: whatever is
    handed to the store is the buffer, the closing bracket and the digest
    (compressed when compression is enabled), under a snapshot that ends
    at the revision of the last event; and the buffer is empty when
    [handleDeltaWatchEvents] returns. *)
Theorem memory_limit_flushes_whole_buffer (w : World) (wr : WatchResponse) (s : Snapshotter)
        (js : list (list byte)) (ev : Event) :
  WatchErr wr = None ->
  Forall2 (fun ev j => Marshal w (newEvent w ev) = Val j) (Events wr) js ->
  last (Events wr) = Some ev ->
  memoryLimit s <= Z.of_nat (List.length (appended (events s) js)) ->
  let run := handleDeltaWatchEvents w wr s in
  let buffer := appended (events s) js ++ [x5d] in
  let payload := buffer ++ SHA256.Sum256 buffer in
  events (snd run) = [] /\
  exists new,
    trace (snd run) = trace s ++ new /\
    forall st snap stream,
      In (Save st snap stream) new ->
      LastRevision snap = ModRevision ev /\
      StartRevision snap = add64 (LastRevision (PrevSnapshot s)) 1 /\
      if Enabled (compressionConfig s)
      then CompressSnapshot w (CompressionPolicy (compressionConfig s)) payload = Val stream
      else stream = payload.
Proof.
  intros Herr Hjs Hlast Hlimit. cbv zeta.
  destruct (aggregate_appended w (Events wr) js Hjs s) as (Hok & Hev & Hrev).
  pose proof (aggregate_config w (Events wr) s) as Hcfg.
  assert (Htr : trace (snd (aggregate w (Events wr) s)) = trace s)
    by (apply (steps_aggregate (same trace)); try typeclasses eauto; primitive).
  assert (Hps : PrevSnapshot (snd (aggregate w (Events wr) s)) = PrevSnapshot s)
    by (apply (steps_aggregate (same PrevSnapshot)); try typeclasses eauto; primitive).
  assert (Hcc : compressionConfig (snd (aggregate w (Events wr) s)) = compressionConfig s)
    by (apply (steps_aggregate (same compressionConfig)); try typeclasses eauto; primitive).
  rewrite Hlast in Hrev. cbn in Hrev.
  assert (Hne : events (snd (aggregate w (Events wr) s)) <> []).
  { rewrite Hev. destruct js as [| j js'].
    - apply Forall2_length in Hjs. destruct (Events wr); [discriminate Hlast | discriminate Hjs].
    - simpl. intros H. apply app_eq_nil in H as [_ H]. discriminate. }
  split.
  { unfold handleDeltaWatchEvents, bind, check, get, ret. rewrite Herr.
    destruct (aggregate w (Events wr) s) as [[[] | e] s1]; cbn [fst snd] in *; [| discriminate].
    unfold memoryLimit in Hlimit. rewrite Hcfg, Hev.
    destruct (Z.leb_spec (wrap64 (DeltaSnapshotMemoryLimit (config s)))
                         (Z.of_nat (List.length (appended (events s) js)))); [| lia].
    pose proof (takeDeltaSnapshotAndResetTimer_empties w s1) as He.
    destruct (takeDeltaSnapshotAndResetTimer w s1) as [[snap | e] s2]; exact He. }
  unfold handleDeltaWatchEvents, bind, check, get, ret. rewrite Herr.
  destruct (aggregate w (Events wr) s) as [[[] | e] s1]; cbn [fst snd] in *; [| discriminate].
  unfold memoryLimit in Hlimit. rewrite Hcfg, Hev.
  destruct (Z.leb_spec (wrap64 (DeltaSnapshotMemoryLimit (config s)))
                       (Z.of_nat (List.length (appended (events s) js)))); [| lia].
  destruct (TakeDeltaSnapshot_nonempty w s1 Hne) as (st & suffix & new & Htrace & Hcases).
  cbv zeta in Hcases. unfold deltaPayload, deltaSnapshot in Hcases.
  rewrite Hev, Hcc, Hps, Hrev, Htr in *.
  assert (Hsame : trace (snd (let (o, s') := takeDeltaSnapshotAndResetTimer w s1 in
                              match o with
                              | Ok _ => (Ok tt, s')
                              | Err e => (Err e, s')
                              end))
                  = trace (snd (TakeDeltaSnapshot w s1))).
  { unfold takeDeltaSnapshotAndResetTimer, bind, get, modify, ret.
    destruct (TakeDeltaSnapshot w s1) as [[snap | e] s2]; reflexivity. }
  exists new. rewrite Hsame. split; [exact Htrace |].
  intros st' snap stream Hin.
  destruct Hcases as [(-> & _) | [(_ & -> & _) | (stream0 & Hstream & -> & _)]].
  - destruct Hin.
  - destruct Hin as [Hc | []]. discriminate.
  - apply in_app_or in Hin as [Hin | [Hin | []]].
    + destruct (Enabled (compressionConfig s)); [| destruct Hin].
      destruct Hin as [Hc | []]. discriminate.
    + injection Hin as _ <- <-. cbn. repeat split. exact Hstream.
Qed.

End BufferFacts.


(** ** The time window of a schedule of five fields *)

Section FieldFacts.
Import Go brtypes Snapshotter Design Observe.
Open Scope string_scope.
Open Scope Z_scope.

Lemma space_width_plain (c : ascii) (rest : string) :
  plain_byte c = true -> Strings.space_width (String c rest) = 0%nat.
Proof.
  destruct c as [[] [] [] [] [] [] [] []]; intros H; try discriminate H; reflexivity.
Qed.

Lemma space_width_blank (c : ascii) (rest : string) :
  blank_byte c = true -> Strings.space_width (String c rest) = 1%nat.
Proof.
  destruct c as [[] [] [] [] [] [] [] []]; intros H; try discriminate H; reflexivity.
Qed.

Lemma string_app_nil_r (a : string) : a ++ "" = a.
Proof. induction a as [| x a IH]; [reflexivity |]. rewrite string_app_cons, IH. reflexivity. Qed.

(** A field is read to its end. *)
Lemma fields_plain (f rest cur : string) :
  plain f = true ->
  Strings.fieldsFrom 0 cur (f ++ rest) = Strings.fieldsFrom 0 (cur ++ f) rest.
Proof.
  revert cur. induction f as [| c f IH]; intros cur Hf.
  - rewrite string_app_nil, string_app_nil_r. reflexivity.
  - simpl in Hf. apply andb_true_iff in Hf as [Hc Hf].
    rewrite string_app_cons. cbn [Strings.fieldsFrom].
    rewrite (space_width_plain c _ Hc), (IH _ Hf), string_app_assoc. reflexivity.
Qed.

(** White space ends the field that is being read. *)
Lemma fields_blank (b rest cur : string) :
  blank b = true ->
  Strings.fieldsFrom 0 cur (b ++ rest)
  = match b with
    | EmptyString => Strings.fieldsFrom 0 cur rest
    | _ => Strings.flush cur ++ Strings.fieldsFrom 0 "" rest
    end%list.
Proof.
  revert cur. induction b as [| c b IH]; intros cur Hb; [reflexivity |].
  simpl in Hb. apply andb_true_iff in Hb as [Hc Hb].
  rewrite string_app_cons. cbn [Strings.fieldsFrom].
  rewrite (space_width_blank c _ Hc), (IH _ Hb).
  destruct b; reflexivity.
Qed.

Lemma fields_gap (b rest cur : string) :
  cur <> "" -> gap b ->
  Strings.fieldsFrom 0 cur (b ++ rest) = cur :: Strings.fieldsFrom 0 "" rest.
Proof.
  intros Hcur [Hne Hb]. rewrite (fields_blank _ _ _ Hb).
  destruct b; [congruence |]. destruct cur; [congruence | reflexivity].
Qed.

Lemma fields_last (post cur : string) :
  cur <> "" -> blank post = true -> Strings.fieldsFrom 0 cur post = [cur].
Proof.
  intros Hcur Hb. rewrite <- (string_app_nil_r post), (fields_blank _ _ _ Hb).
  destruct post; destruct cur; try congruence; reflexivity.
Qed.

(** What [strings.Fields] makes of five fields with white space around them. *)
Lemma fields_of_five (pre g1 g2 g3 g4 post m h dom mon dow : string) :
  field m -> field h -> field dom -> field mon -> field dow ->
  blank pre = true -> gap g1 -> gap g2 -> gap g3 -> gap g4 -> blank post = true ->
  Strings.Fields (pre ++ m ++ g1 ++ h ++ g2 ++ dom ++ g3 ++ mon ++ g4 ++ dow ++ post)
  = [m; h; dom; mon; dow].
Proof.
  intros [Hm Pm] [Hh Ph] [Hdom Pdom] [Hmon Pmon] [Hdow Pdow] Hpre G1 G2 G3 G4 Hpost.
  unfold Strings.Fields.
  rewrite (fields_blank _ _ _ Hpre).
  assert (Hstart : forall rest, Strings.fieldsFrom 0 "" (m ++ rest)
                                = Strings.fieldsFrom 0 m rest)
    by (intros rest; rewrite (fields_plain _ _ _ Pm); reflexivity).
  assert (Hgo : Strings.fieldsFrom 0 "" (m ++ g1 ++ h ++ g2 ++ dom ++ g3 ++ mon ++ g4 ++ dow ++ post)
                = [m; h; dom; mon; dow]).
  { rewrite Hstart, (fields_gap _ _ _ Hm G1).
    rewrite (fields_plain _ _ _ Ph), string_app_nil, (fields_gap _ _ _ Hh G2).
    rewrite (fields_plain _ _ _ Pdom), string_app_nil, (fields_gap _ _ _ Hdom G3).
    rewrite (fields_plain _ _ _ Pmon), string_app_nil, (fields_gap _ _ _ Hmon G4).
    rewrite (fields_plain _ _ _ Pdow), string_app_nil, (fields_last _ _ Hdow Hpost).
    reflexivity. }
  destruct pre; [exact Hgo | simpl; exact Hgo].
Qed.

Variable ParseFloat : string -> Res float.

(** X15.  For a schedule of five fields (made of ASCII bytes that are no
    white space) with white space between them, and maybe before and
    after them, [GetFullSnapshotMaxTimeWindow] reads the hours, the day of
    month and the day of week, and nothing else: the minutes, the month
    and the white space do not matter.  The window is 168 when the day of
    week is not [*]; else, when the day of month is [*] and the hours
    have a [/], it is the number after the first [/] if
    [strconv.ParseFloat] accepts it; and 24 in every other case. *)
Theorem max_time_window_of_five_fields (pre g1 g2 g3 g4 post m h dom mon dow : string) :
  field m -> field h -> field dom -> field mon -> field dow ->
  blank pre = true -> gap g1 -> gap g2 -> gap g3 -> gap g4 -> blank post = true ->
  let spec := pre ++ m ++ g1 ++ h ++ g2 ++ dom ++ g3 ++ mon ++ g4 ++ dow ++ post in
  Strings.Fields spec = [m; h; dom; mon; dow] /\
  GetFullSnapshotMaxTimeWindow ParseFloat spec
  = if negb (String.eqb dow "*") then 168%float
    else if String.eqb dom "*" && Strings.ContainsSlash h
         then match ParseFloat (after_first_slash h) with
              | Val N => N
              | Fail _ => 24%float
              end
         else 24%float.
Proof.
  intros Fm Fh Fdom Fmon Fdow Hpre G1 G2 G3 G4 Hpost. cbv zeta.
  pose proof (fields_of_five pre g1 g2 g3 g4 post m h dom mon dow
                Fm Fh Fdom Fmon Fdow Hpre G1 G2 G3 G4 Hpost) as Hfields.
  split; [exact Hfields |].
  unfold GetFullSnapshotMaxTimeWindow. rewrite Hfields.
  change (float64_of_Z defaultFullSnapMaxTimeWindow) with 24%float.
  change (float64_of_Z (defaultFullSnapMaxTimeWindow * 7)) with 168%float.
  cbn [List.length Nat.ltb Nat.leb nth dayOfWeek dayOfMonth hour].
  destruct (String.eqb dow "*"); cbn [negb]; [| reflexivity].
  destruct (String.eqb dom "*"); cbn [andb]; [| reflexivity].
  destruct (Strings.ContainsSlash h) eqn:Hslash; [| reflexivity].
  rewrite (slice_after_index _ Hslash). reflexivity.
Qed.

End FieldFacts.

(** * Properties of the life cycle *)

Section NewSnapshotterFacts.
Import Go brtypes Snapshotter Design Observe Lifecycle.
Open Scope Z_scope.
Open Scope list_scope.

Variable GetPrevScheduledSnapTime : Time -> float -> TimeValue.

(** X16.  The snapshotter [NewSnapshotter] returns takes the newest
    snapshot of the store as its previous snapshot: the last delta
    snapshot after the latest Full snapshot, or that Full snapshot when no
    delta follows it.  When the store has no Full snapshot the previous
    snapshot is a made-up Full snapshot at revision 0, also when the store
    lists delta snapshots, which are kept in [PrevDeltaSnapshots] all the
    same.  The snapshotter starts with an empty buffer, no timer, no watch
    and no call made. *)
Theorem new_snapshotter_previous_snapshot (env : Environment) (created : Time)
        (config : SnapshotterConfig) (store : SnapStore)
        (compressionConfig : CompressionConfig) (healthConfig : brtypes.HealthConfig)
        (s : Snapshotter) :
  NewSnapshotter env created config store compressionConfig healthConfig = Val s ->
  exists fullSnap deltaSnapList,
    GetLatestFullSnapshotAndDeltaSnapList env store = Val (fullSnap, deltaSnapList) /\
    ParseStandard env (FullSnapshotSchedule config) = Val (schedule s) /\
    PrevFullSnapshot s = fullSnap /\ PrevDeltaSnapshots s = deltaSnapList /\
    PrevSnapshot s
    = match fullSnap with
      | Some full => List.last deltaSnapList full
      | None => snapstore.NewSnapshot created SnapshotKindFull 0 0 "" false
      end /\
    events s = [] /\ fullSnapshotTimer s = None /\ deltaSnapshotTimer s = None /\
    watchCh s = None /\ trace s = [].
Proof.
  unfold NewSnapshotter.
  destruct (ParseStandard env (FullSnapshotSchedule config)) as [sdl | err]; [| discriminate].
  destruct (GetLatestFullSnapshotAndDeltaSnapList env store) as [[fullSnap deltaSnapList] | err];
    [| discriminate].
  destruct (if SnapshotLeaseRenewalEnabled healthConfig then _ else _); [discriminate |].
  intros H. injection H as <-. exists fullSnap, deltaSnapList. cbn.
  repeat split. unfold prevSnapshot.
  destruct fullSnap as [full |]; [| reflexivity].
  destruct deltaSnapList; reflexivity.
Qed.

(** X17.  A snapshotter that [NewSnapshotter] has just returned is not
    active: both triggers are turned down with "snapshotter is not
    active" until [SetSnapshotterActive] is called, after which a trigger
    for a full snapshot sends its request.  And when the store held no
    Full snapshot, a full snapshot is required at startup, whatever the
    time window. *)
Theorem new_snapshotter_is_inactive (env : Environment) (created : Time)
        (config : SnapshotterConfig) (store : SnapStore)
        (compressionConfig : CompressionConfig) (healthConfig : brtypes.HealthConfig)
        (s : Snapshotter) (isFinal : bool) (timeWindow : float) (c : Clock) :
  NewSnapshotter env created config store compressionConfig healthConfig = Val s ->
  let inactive := TReturn (None, Some (Errorf "snapshotter is not active" [])) in
  TriggerFullSnapshot s isFinal = inactive /\
  TriggerDeltaSnapshot s = inactive /\
  (forall ack, requests ack (TriggerFullSnapshot (snd (SetSnapshotterActive s)) isFinal)
               = [FullSnapshotReq isFinal]) /\
  (forall deltas, GetLatestFullSnapshotAndDeltaSnapList env store = Val (None, deltas) ->
                  IsFullSnapshotRequiredAtStartup GetPrevScheduledSnapTime s timeWindow c
                  = (true, c)).
Proof.
  unfold NewSnapshotter.
  destruct (ParseStandard env (FullSnapshotSchedule config)) as [sdl | err]; [| discriminate].
  destruct (GetLatestFullSnapshotAndDeltaSnapList env store) as [[fullSnap deltaSnapList] | err];
    [| discriminate].
  destruct (if SnapshotLeaseRenewalEnabled healthConfig then _ else _); [discriminate |].
  intros H. injection H as <-. cbv zeta.
  repeat split.
  intros deltas Hnone. injection Hnone as -> _. reflexivity.
Qed.

End NewSnapshotterFacts.

(** ** Catching up at the start *)

Section CollectFacts.
Import Go brtypes Snapshotter Design Observe Lifecycle.
Open Scope Z_scope.
Open Scope list_scope.

(** What [CollectEventsSincePrevSnapshot] has done when its loop starts. *)
Lemma openWatch_ok (w : World) (s s1 : Snapshotter) (R : Z) :
  openWatch w s = (Ok R, s1) ->
  GetRevision w = Val R /\
  watchCh s1 = Some (add64 (LastRevision (PrevSnapshot s)) 1) /\
  PrevSnapshot s1 = PrevSnapshot s /\ events s1 = events s /\ config s1 = config s /\
  In (Watch (add64 (LastRevision (PrevSnapshot s)) 1)) (trace s1).
Proof.
  unfold openWatch, closeEtcdClient. answers.
  all: intros H; try discriminate; injection H as <- <-.
  all: repeat split; cbn; rewrite ?in_app_iff; simpl; auto.
Qed.

Lemma handleDeltaWatchEvents_watchCh (w : World) (wr : WatchResponse) (s : Snapshotter) :
  watchCh (snd (handleDeltaWatchEvents w wr s)) = watchCh s.
Proof.
  apply (steps_handleDeltaWatchEvents (same watchCh)); try typeclasses eauto; primitive.
Qed.

(** The loop returns [(false, nil)] only after an event at or beyond the
    revision it waits for. *)
Lemma collect_caught_up (R : Z) (inbox : list (Received * World)) :
  forall s s',
    collect R inbox s = (CollectReturns false None, s') ->
    watchCh s' = watchCh s /\
    exists wr w1 ev, In (Response (Some wr), w1) inbox /\ WatchErr wr = None /\
                     last (Events wr) = Some ev /\ R <= ModRevision ev.
Proof.
  induction inbox as [| [[[wr |] |] w1] rest IH]; intros s s' Hrun; simpl in Hrun;
    try discriminate.
  pose proof (handleDeltaWatchEvents_watchCh w1 wr s) as Hw.
  assert (Herr : fst (handleDeltaWatchEvents w1 wr s) = Ok tt -> WatchErr wr = None).
  { unfold handleDeltaWatchEvents, bind, check, fail. destruct (WatchErr wr); [discriminate | auto]. }
  destruct (handleDeltaWatchEvents w1 wr s) as [[[] | err] s1]; cbn [fst snd] in *;
    [| discriminate].
  destruct (last (Events wr)) as [ev |] eqn:Hlast; [| discriminate].
  cbv zeta in Hrun.
  destruct (Z.leb_spec R (ModRevision ev)) as [Hle | Hgt].
  - injection Hrun as <-. split; [exact Hw |].
    exists wr, w1, ev. repeat split; auto. left. reflexivity.
  - destruct (IH _ _ Hrun) as (Hw' & wr' & w' & ev' & Hin & He & Hl & Hle).
    split; [congruence |]. exists wr', w', ev'. repeat split; auto. right. exact Hin.
Qed.

(** X18.  When [CollectEventsSincePrevSnapshot] returns [(false, nil)],
    a watch is open from the revision after the last one of the previous
    snapshot it started with, and either that snapshot was at the latest
    revision of etcd, or a response has come whose last event is at that
    revision or beyond.  The events up to the latest revision of etcd have
    then all been handed to [handleDeltaWatchEvents]. *)
Theorem collect_returns_when_caught_up (w : World) (inbox : list (Received * World))
        (s s' : Snapshotter) :
  CollectEventsSincePrevSnapshot w inbox s = (CollectReturns false None, s') ->
  watchCh s' = Some (add64 (LastRevision (PrevSnapshot s)) 1) /\
  In (Watch (add64 (LastRevision (PrevSnapshot s)) 1)) (trace s') /\
  exists R,
    GetRevision w = Val R /\
    (LastRevision (PrevSnapshot s) = R \/
     exists wr w1 ev, In (Response (Some wr), w1) inbox /\ WatchErr wr = None /\
                      last (Events wr) = Some ev /\ R <= ModRevision ev).
Proof.
  unfold CollectEventsSincePrevSnapshot.
  pose proof (openWatch_ok w s) as Hopen.
  destruct (openWatch w s) as [[R | err] s1]; [| discriminate].
  destruct (Hopen s1 R eq_refl) as (HR & Hw & Hp & _ & _ & Hin). clear Hopen.
  rewrite Hp.
  destruct (Z.eqb_spec (LastRevision (PrevSnapshot s)) R) as [Heq | Hne].
  - intros H. injection H as <-. repeat split; auto. exists R. auto.
  - intros Hrun. destruct (collect_caught_up R inbox s1 s' Hrun) as (Hw' & Hev).
    split; [congruence |]. split.
    + assert (Hadds : adds (fun _ => True) s1 s').
      { clear - Hrun. revert s1 Hrun.
        induction inbox as [| [[[wr |] |] w1] rest IH]; intros s1 Hrun; simpl in Hrun;
          try discriminate.
        assert (H1 : adds (fun _ => True) s1 (snd (handleDeltaWatchEvents w1 wr s1)))
          by (apply (steps_handleDeltaWatchEvents (adds (fun _ => True)));
              try typeclasses eauto; primitive).
        destruct (handleDeltaWatchEvents w1 wr s1) as [[[] | err] s2]; cbn [snd] in *;
          [| discriminate].
        destruct (last (Events wr)); [| discriminate]. cbv zeta in Hrun.
        destruct (R <=? _); [injection Hrun as <-; exact H1 |].
        etransitivity; [exact H1 | apply (IH _ Hrun)]. }
      destruct Hadds as (new & -> & _). apply in_or_app. left. exact Hin.
    + exists R. auto.
Qed.

(** X19.  A response without events, and without an error, makes
    [CollectEventsSincePrevSnapshot] panic: once
    [handleDeltaWatchEvents] has returned [nil] for it,
    [wr.Events[len(wr.Events)-1]] is an index out of range.  It is so
    whenever the buffer is below the memory limit, since nothing is saved
    then. *)
Theorem collect_panics_on_empty_response (w w1 : World) (wr : WatchResponse)
        (rest : list (Received * World)) (s : Snapshotter) (R : Z) :
  NewKV w = None -> GetRevision w = Val R -> NewWatcher w = None ->
  LastRevision (PrevSnapshot s) <> R ->
  WatchErr wr = None -> Events wr = [] ->
  Z.of_nat (List.length (events s)) < memoryLimit s ->
  fst (CollectEventsSincePrevSnapshot w ((Response (Some wr), w1) :: rest) s) = CollectPanics.
Proof.
  intros Hkv HR Hwatch Hne Herr Hevs Hlimit.
  unfold CollectEventsSincePrevSnapshot.
  pose proof (openWatch_ok w s) as Hopen.
  assert (Hok : exists s1, openWatch w s = (Ok R, s1)).
  { unfold openWatch, closeEtcdClient, bind, check, try, get, emit, modify, ret.
    rewrite Hkv, HR, Hwatch. destruct (watchCh s); eexists; reflexivity. }
  destruct Hok as (s1 & Hs1). rewrite Hs1.
  destruct (Hopen s1 R Hs1) as (_ & _ & Hp & He & Hc & _).
  rewrite Hp. destruct (Z.eqb_spec (LastRevision (PrevSnapshot s)) R); [contradiction |].
  simpl collect.
  assert (Hrun : handleDeltaWatchEvents w1 wr s1 = (Ok tt, s1)).
  { unfold handleDeltaWatchEvents, bind, check, get, ret. rewrite Herr, Hevs. simpl.
    unfold memoryLimit in Hlimit. rewrite Hc, He.
    destruct (Z.leb_spec (wrap64 (DeltaSnapshotMemoryLimit (config s)))
                         (Z.of_nat (List.length (events s)))); [lia | reflexivity]. }
  rewrite Hrun, Hevs. reflexivity.
Qed.

End CollectFacts.

(** ** [Run] and [stop] *)

Section RunFacts.
Import Go brtypes Snapshotter Design Observe Lifecycle.
Open Scope Z_scope.
Open Scope list_scope.

Variable DefaultDeltaSnapshotInterval : Duration.
Variable renewalReceives : bool.

Lemma stop_returns (receiving : bool) (s s' : Snapshotter) :
  stop receiving s = (StopReturns, s') -> stopped s'.
Proof.
  unfold stop, stopped, closeEtcdClient, SetSnapshotterInactive.
  answers.
  all: intros H; try discriminate; injection H as <-.
  all: repeat split; cbn; auto.
Qed.

Lemma stop_blocks (receiving : bool) (s s' : Snapshotter) :
  stop receiving s = (StopBlocks, s') ->
  SnapshotLeaseRenewalEnabled (HealthConfig s) = true /\ receiving = false /\
  SsrState s' = SsrState s /\ watchCh s' = watchCh s /\ trace s' = trace s.
Proof.
  unfold stop, closeEtcdClient, SetSnapshotterInactive.
  answers.
  all: intros H; try discriminate; injection H as <-.
  all: repeat match goal with
              | H : _ && _ = true |- _ => apply andb_true_iff in H as [? ?]
              | H : negb _ = true |- _ => apply negb_true_iff in H
              end.
  all: cbn in *; repeat split; auto.
Qed.

Lemma collect_settings (R : Z) (inbox : list (Received * World)) :
  forall s, settings (snd (collect R inbox s)) = settings s.
Proof.
  induction inbox as [| [[[wr |] |] w1] rest IH]; intros s; simpl; try reflexivity.
  assert (H1 : settings (snd (handleDeltaWatchEvents w1 wr s)) = settings s)
    by (apply (steps_handleDeltaWatchEvents (same settings)); try typeclasses eauto; primitive).
  destruct (handleDeltaWatchEvents w1 wr s) as [[[] | err] s1]; cbn [snd] in *; [| exact H1].
  destruct (last (Events wr)); [| exact H1]. cbv zeta.
  destruct (R <=? _); [exact H1 |]. rewrite IH. exact H1.
Qed.

Lemma CollectEventsSincePrevSnapshot_settings (w : World) (inbox : list (Received * World))
      (s : Snapshotter) :
  settings (snd (CollectEventsSincePrevSnapshot w inbox s)) = settings s.
Proof.
  unfold CollectEventsSincePrevSnapshot.
  assert (H1 : steps (same settings) (openWatch w)) by (unfold openWatch; method).
  specialize (H1 s). unfold same in H1.
  destruct (openWatch w s) as [[R | err] s1]; cbn [snd] in *; [| exact H1].
  destruct (_ =? _); [exact H1 |]. rewrite collect_settings. exact H1.
Qed.

Lemma startUp_settings (w w' : World) (collecting : list (Received * World))
      (start : bool) (s : Snapshotter) :
  settings (snd (startUp w w' collecting start s)) = settings s.
Proof.
  unfold startUp. destruct start; [reflexivity |].
  assert (H2 : forall s1, settings (snd (resetFullSnapshotTimer w' s1)) = settings s1)
    by (intros s1; apply (steps_resetFullSnapshotTimer (same settings));
        try typeclasses eauto; primitive).
  destruct (watchCh s).
  - specialize (H2 s). destruct (resetFullSnapshotTimer w' s) as [[[] | err] s2]; exact H2.
  - pose proof (CollectEventsSincePrevSnapshot_settings w collecting s) as H1.
    destruct (CollectEventsSincePrevSnapshot w collecting s) as [[[] [err |] | |] s1];
      cbn [snd] in *; try exact H1.
    specialize (H2 s1). destruct (resetFullSnapshotTimer w' s1) as [[[] | err] s2];
      cbn [snd] in *; congruence.
Qed.

Lemma startUp_never_blocks (w w' : World) (collecting : list (Received * World))
      (start : bool) (s : Snapshotter) :
  fst (startUp w w' collecting start s) <> Some RunBlocks.
Proof.
  unfold startUp. destruct start; [discriminate |].
  destruct (watchCh s).
  - destruct (resetFullSnapshotTimer w' s) as [[[] | err] s2]; discriminate.
  - destruct (CollectEventsSincePrevSnapshot w collecting s) as [[[] [err |] | |] s1];
      try discriminate.
    destruct (resetFullSnapshotTimer w' s1) as [[[] | err] s2]; discriminate.
Qed.

Lemma snapshotEventHandler_settings (inbox : list (Msg * World)) (s : Snapshotter) :
  settings (snd (fst (snapshotEventHandler inbox s))) = settings s.
Proof.
  apply (steps_snapshotEventHandler (same settings)); try typeclasses eauto; primitive.
Qed.

Lemma settings_lease (s s' : Snapshotter) :
  settings s' = settings s ->
  SnapshotLeaseRenewalEnabled (HealthConfig s') = SnapshotLeaseRenewalEnabled (HealthConfig s) /\
  SsrState s' = SsrState s.
Proof. unfold settings. intros H. injection H as -> -> _ _. auto. Qed.

(** X20.  When [Run] has returned, or has panicked, its deferred [stop]
    has run to its end: the snapshotter is not active, it has no timer
    and no watch.  It cannot be so when the lease renewal is enabled and
    the goroutine that renews the lease does not take the stop signal:
    then [Run] does not return, and the snapshotter keeps the state it
    had when [Run] was called. *)
Theorem run_returns_stopped (w w' : World) (collecting : list (Received * World))
        (inbox : list (Msg * World)) (startWithFullSnapshot : bool) (s : Snapshotter) :
  let run := Run DefaultDeltaSnapshotInterval renewalReceives w w' collecting inbox
                 startWithFullSnapshot s in
  match fst run with
  | RunReturns _ | RunPanics => stopped (snd run)
  | RunBlocks =>
      SnapshotLeaseRenewalEnabled (HealthConfig s) = true /\ SsrState (snd run) = SsrState s
  | RunWaits => SsrState (snd run) = SsrState s
  end.
Proof.
  cbv zeta. unfold Run.
  pose proof (startUp_settings w w' collecting startWithFullSnapshot s) as H1.
  destruct (startUp w w' collecting startWithFullSnapshot s) as [early s1] eqn:Hstart.
  cbn [snd] in H1.
  apply settings_lease in H1 as [Hlease1 Hstate1].
  assert (Hleave : forall started r s2,
             SnapshotLeaseRenewalEnabled (HealthConfig s2)
             = SnapshotLeaseRenewalEnabled (HealthConfig s) ->
             SsrState s2 = SsrState s ->
             r <> RunWaits -> r <> RunBlocks ->
             match fst (leave renewalReceives started r s2) with
             | RunReturns _ | RunPanics => stopped (snd (leave renewalReceives started r s2))
             | RunBlocks =>
                 SnapshotLeaseRenewalEnabled (HealthConfig s) = true /\
                 SsrState (snd (leave renewalReceives started r s2)) = SsrState s
             | RunWaits => SsrState (snd (leave renewalReceives started r s2)) = SsrState s
             end).
  { intros started r s2 Hl Hs Hw Hb. unfold leave.
    pose proof (stop_returns (started && renewalReceives) s2) as Hret.
    pose proof (stop_blocks (started && renewalReceives) s2) as Hblk.
    destruct (stop (started && renewalReceives) s2) as [[] s3]; cbn [fst snd].
    - specialize (Hret s3 eq_refl). destruct r; try congruence; exact Hret.
    - destruct (Hblk s3 eq_refl) as (He & _ & Hst & _). split; congruence. }
  pose proof (startUp_never_blocks w w' collecting startWithFullSnapshot s) as Hnb.
  rewrite Hstart in Hnb. cbn [fst] in Hnb.
  destruct early as [r |].
  - destruct r as [err | | |].
    + apply Hleave; auto; discriminate.
    + apply Hleave; auto; discriminate.
    + congruence.
    + exact Hstate1.
  - cbv zeta.
    match goal with
    | |- context [snapshotEventHandler inbox ?s3] =>
        pose proof (snapshotEventHandler_settings inbox s3) as H2;
        destruct (snapshotEventHandler inbox s3) as [[[err |] s4] rest]
    end; cbn [fst snd] in *.
    + apply settings_lease in H2 as [Hlease2 Hstate2].
      apply Hleave; try discriminate.
      * rewrite Hlease2, <- Hlease1. destruct (_ <=? _); reflexivity.
      * rewrite Hstate2, <- Hstate1. destruct (_ <=? _); reflexivity.
    + apply settings_lease in H2 as [_ Hstate2].
      rewrite Hstate2, <- Hstate1. destruct (_ <=? _); reflexivity.
Qed.

End RunFacts.

Section RunBlockFacts.
Import Go brtypes Snapshotter Design Observe Lifecycle.
Open Scope Z_scope.
Open Scope list_scope.

Variable DefaultDeltaSnapshotInterval : Duration.
Variable renewalReceives : bool.

Lemma leave_blocks (r : Ran) (s : Snapshotter) :
  SnapshotLeaseRenewalEnabled (HealthConfig s) = true ->
  fst (leave renewalReceives false r s) = RunBlocks.
Proof.
  intros Hlease. unfold leave, stop.
  destruct (fullSnapshotTimer s); destruct (deltaSnapshotTimer _); cbn; rewrite Hlease;
    reflexivity.
Qed.

(** X21.  With the lease renewal enabled, [Run] does not return when it
    fails before its loop: if the catching up is stopped, fails or
    panics, or if the schedule has no next activation, [Run] is on its
    way out before the goroutine that renews the lease is started, and
    the deferred [stop] then waits for ever to hand the stop signal to
    that goroutine, which is the only receiver of its channel, whatever
    that goroutine would do. *)
Theorem run_blocks_when_startup_fails (w w' : World) (collecting : list (Received * World))
        (inbox : list (Msg * World)) (s : Snapshotter) :
  SnapshotLeaseRenewalEnabled (HealthConfig s) = true ->
  watchCh s = None ->
  let collected := fst (CollectEventsSincePrevSnapshot w collecting s) in
  collected = CollectPanics \/
  (exists err, collected = CollectReturns true err) \/
  (exists err, collected = CollectReturns false (Some err)) \/
  (collected = CollectReturns false None /\ IsZero (schedule s (now w')) = true) ->
  fst (Run DefaultDeltaSnapshotInterval renewalReceives w w' collecting inbox false s)
  = RunBlocks.
Proof.
  intros Hlease Hwatch. cbv zeta. intros Hcases.
  unfold Run, startUp. rewrite Hwatch.
  pose proof (CollectEventsSincePrevSnapshot_settings w collecting s) as Hset.
  destruct (CollectEventsSincePrevSnapshot w collecting s) as [c s1]. cbn [fst snd] in *.
  assert (Hs1 : SnapshotLeaseRenewalEnabled (HealthConfig s1) = true /\
                schedule s1 = schedule s).
  { unfold settings in Hset. injection Hset as -> _ -> _. auto. }
  destruct Hs1 as [Hlease1 Hsched].
  destruct Hcases as [-> | [(err & ->) | [(err & ->) | (-> & Hzero)]]].
  - apply leave_blocks, Hlease1.
  - apply leave_blocks, Hlease1.
  - apply leave_blocks, Hlease1.
  - unfold resetFullSnapshotTimer, bind, get, fail. rewrite Hsched, Hzero.
    apply leave_blocks, Hlease1.
Qed.

Lemma stop_HealthConfig (receiving : bool) (s : Snapshotter) :
  HealthConfig (snd (stop receiving s)) = HealthConfig s.
Proof. unfold stop, closeEtcdClient, SetSnapshotterInactive. answers. all: reflexivity. Qed.

Lemma stop_of_stopped (receiving : bool) (s : Snapshotter) :
  stopped s ->
  stop receiving s
  = (if SnapshotLeaseRenewalEnabled (HealthConfig s) && negb receiving
     then StopBlocks else StopReturns, s).
Proof.
  destruct s. unfold stopped. cbn. intros (-> & -> & -> & ->).
  unfold stop. cbn. destruct (_ && _); reflexivity.
Qed.

Lemma stop_without_lease (receiving : bool) (s : Snapshotter) :
  SnapshotLeaseRenewalEnabled (HealthConfig s) && negb receiving = false ->
  fst (stop receiving s) = StopReturns.
Proof.
  intros H. unfold stop.
  destruct (fullSnapshotTimer s); destruct (deltaSnapshotTimer _); cbn [HealthConfig
    set_fullSnapshotTimer set_deltaSnapshotTimer]; rewrite H; reflexivity.
Qed.

(** X22.  Without the lease renewal, [stop] can be called again and
    changes nothing the second time.  With the lease renewal it sends the
    stop signal again: once the signal has been taken and nobody
    receives any longer, a second [stop] does not return. *)
Theorem stop_twice (receiving : bool) (s : Snapshotter) :
  let once := snd (stop receiving s) in
  (SnapshotLeaseRenewalEnabled (HealthConfig s) = false ->
   fst (stop receiving s) = StopReturns /\
   forall receiving', stop receiving' once = (StopReturns, once)) /\
  (SnapshotLeaseRenewalEnabled (HealthConfig s) = true ->
   receiving = true ->
   fst (stop receiving s) = StopReturns /\
   stop false once = (StopBlocks, once)).
Proof.
  cbv zeta.
  pose proof (stop_returns receiving s) as Hret.
  pose proof (stop_HealthConfig receiving s) as Hhc.
  split.
  - intros Hlease.
    assert (Hfirst : fst (stop receiving s) = StopReturns)
      by (apply stop_without_lease; rewrite Hlease; reflexivity).
    split; [exact Hfirst |]. intros receiving'.
    destruct (stop receiving s) as [r once]. cbn [fst snd] in *. subst r.
    rewrite (stop_of_stopped _ _ (Hret once eq_refl)), Hhc, Hlease. reflexivity.
  - intros Hlease ->.
    assert (Hfirst : fst (stop true s) = StopReturns)
      by (apply stop_without_lease; rewrite Hlease; reflexivity).
    split; [exact Hfirst |].
    destruct (stop true s) as [r once]. cbn [fst snd] in *. subst r.
    rewrite (stop_of_stopped _ _ (Hret once eq_refl)), Hhc, Hlease. reflexivity.
Qed.

End RunBlockFacts.

(** * More properties of the initializer *)

(** ** The calls of a function *)

Section InitCallFacts.
Import Go brtypes validator Initializer InitDesign InitObserve.
Open Scope Z_scope.
Open Scope list_scope.

Context (P : Call -> Prop).

Lemma calls_ret {A} (a : A) : calls P (ret a : Init A).
Proof. intros h. exists []. rewrite app_nil_r. split; [reflexivity | constructor]. Qed.

Lemma calls_fail {A} (st : Stop) : calls P (fail st : Init A).
Proof. intros h. exists []. rewrite app_nil_r. split; [reflexivity | constructor]. Qed.

Lemma calls_get : calls P (get : Init (list Call)).
Proof. intros h. exists []. rewrite app_nil_r. split; [reflexivity | constructor]. Qed.

Lemma calls_call (c : Call) : P c -> calls P (call c).
Proof. intros Hc h. exists [c]. split; [reflexivity | constructor; [exact Hc | constructor]]. Qed.

Lemma calls_bind {A B} (m : Init A) (k : A -> Init B) :
  calls P m -> (forall a, calls P (k a)) -> calls P (bind m k).
Proof.
  intros Hm Hk h. unfold bind. destruct (Hm h) as (n1 & H1 & F1).
  destruct (m h) as [[a | st] h1]; cbn [snd] in *; subst h1.
  - destruct (Hk a (h ++ n1)) as (n2 & H2 & F2). exists (n1 ++ n2).
    rewrite H2, app_assoc. split; [reflexivity | apply Forall_app; auto].
  - exists n1. auto.
Qed.

Lemma calls_bind_ok {A B} (m : Init A) (k : A -> Init B) :
  calls P m -> (forall a, (exists h, fst (m h) = Ok a) -> calls P (k a)) -> calls P (bind m k).
Proof.
  intros Hm Hk h. unfold bind. destruct (Hm h) as (n1 & H1 & F1).
  destruct (m h) as [[a | st] h1] eqn:Hrun; cbn [snd] in *; subst h1.
  - assert (Ha : exists h0, fst (m h0) = Ok a) by (exists h; rewrite Hrun; reflexivity).
    destruct (Hk a Ha (h ++ n1)) as (n2 & H2 & F2). exists (n1 ++ n2).
    rewrite H2, app_assoc. split; [reflexivity | apply Forall_app; auto].
  - exists n1. auto.
Qed.

Lemma calls_In {A} (m : Init A) (h : list Call) :
  calls P m -> exists new, snd (m h) = h ++ new /\ forall c, In c new -> P c.
Proof.
  intros Hm. destruct (Hm h) as (new & Hnew & Hall). exists new.
  split; [exact Hnew | exact (proj1 (List.Forall_forall P new) Hall)].
Qed.

Lemma calls_wrapErr {A} (wrap : Stop -> Stop) (m : Init A) :
  calls P m -> calls P (wrapErr wrap m).
Proof.
  intros Hm h. unfold wrapErr. destruct (Hm h) as (n1 & H1 & F1).
  destruct (m h) as [[a | st] h1]; exists n1; auto.
Qed.

Lemma calls_tryInit {A} (r : Res A) (wrap : error -> error) : calls P (tryInit r wrap).
Proof. destruct r; [apply calls_ret | apply calls_fail]. Qed.

Lemma calls_attempt (c : Call) (answer : list Call -> option error) (wrap : error -> error) :
  P c -> calls P (attempt c answer wrap).
Proof.
  intros Hc. unfold attempt.
  apply calls_bind; [apply calls_get | intros h0].
  apply calls_bind; [apply calls_call; exact Hc | intros _].
  destruct (answer h0); [apply calls_fail | apply calls_ret].
Qed.

Lemma retry_OnError_next (n : nat) (fn : Init unit) (h : list Call) :
  retry_OnError (S (S n)) fn h
  = match fn h with
    | (Ok _, h') => (Ok tt, h')
    | (Err (ReturnErr _), h') => retry_OnError (S n) fn h'
    | (Err stop, h') => (Err stop, h')
    end.
Proof. reflexivity. Qed.

Lemma calls_retry (n : nat) (fn : Init unit) : calls P fn -> calls P (retry_OnError n fn).
Proof.
  intros Hfn. induction n as [| n IH]; [apply calls_ret |].
  destruct n as [| n]; [exact Hfn |].
  intros h. rewrite retry_OnError_next. destruct (Hfn h) as (n1 & H1 & F1).
  destruct (fn h) as [[[] | [err | f args]] h1]; cbn [snd] in *; subst h1.
  - exists n1. auto.
  - destruct (IH (h ++ n1)) as (n2 & H2 & F2). exists (n1 ++ n2).
    rewrite H2, app_assoc. split; [reflexivity | apply Forall_app; auto].
  - exists n1. auto.
Qed.

End InitCallFacts.

Lemma calls_weaken {A} (P Q : Initializer.Call -> Prop) (m : Initializer.Init A) :
  (forall c, P c -> Q c) -> InitObserve.calls P m -> InitObserve.calls Q m.
Proof.
  intros HPQ Hm h. destruct (Hm h) as (new & Hnew & Hall). exists new.
  split; [exact Hnew |].
  clear Hnew. induction Hall as [| c l Hc Hl IH]; constructor; [apply HPQ; exact Hc | exact IH].
Qed.

Ltac call_step1 :=
  lazymatch goal with
  | |- InitObserve.calls _ (Go.ret _) => apply calls_ret
  | |- InitObserve.calls _ (Initializer.returnErr _) => apply calls_fail
  | |- InitObserve.calls _ (Go.fail _) => apply calls_fail
  | |- InitObserve.calls _ Go.get => apply calls_get
  | |- InitObserve.calls _ (Initializer.call _) => apply calls_call
  | |- InitObserve.calls _ (Initializer.tryInit _ _) => apply calls_tryInit
  | |- InitObserve.calls _ (Initializer.attempt _ _ _) => apply calls_attempt
  | |- InitObserve.calls _ (Go.bind _ _) => apply calls_bind; [| intro]
  | |- InitObserve.calls _ (Go.wrapErr _ _) => apply calls_wrapErr
  | |- InitObserve.calls _ (Initializer.retry_OnError _ _) => apply calls_retry
  | |- InitObserve.calls _ (if ?b then _ else _) => destruct b
  | |- InitObserve.calls _ (match ?x with _ => _ end) => destruct x
  end.

Ltac call_steps := repeat call_step1.

Section InitReturnFacts.
Import Go brtypes validator Initializer InitDesign InitObserve.
Open Scope Z_scope.
Open Scope list_scope.

Lemma neverExits_ret {A} (a : A) : neverExits (ret a : Init A).
Proof. intros h f args. discriminate. Qed.

Lemma neverExits_returnErr {A} (err : error) : neverExits (returnErr err : Init A).
Proof. intros h f args. discriminate. Qed.

Lemma neverExits_get : neverExits (get : Init (list Call)).
Proof. intros h f args. discriminate. Qed.

Lemma neverExits_call (c : Call) : neverExits (call c).
Proof. intros h f args. discriminate. Qed.

Lemma neverExits_bind {A B} (m : Init A) (k : A -> Init B) :
  neverExits m -> (forall a, neverExits (k a)) -> neverExits (bind m k).
Proof.
  intros Hm Hk h f args. unfold bind. specialize (Hm h f args).
  destruct (m h) as [[a | st] h1]; cbn [fst] in *; [apply Hk |].
  congruence.
Qed.

Lemma neverExits_wrapErr {A} (wrap : error -> error) (m : Init A) :
  neverExits m -> neverExits (wrapErr (wrapStop wrap) m).
Proof.
  intros Hm h f args. unfold wrapErr. specialize (Hm h f args).
  destruct (m h) as [[a | [err | f' args']] h1]; cbn [fst wrapStop] in *; congruence.
Qed.

Lemma neverExits_tryInit {A} (r : Res A) (wrap : error -> error) : neverExits (tryInit r wrap).
Proof. destruct r; intros h f args; discriminate. Qed.

Lemma neverExits_attempt (c : Call) (answer : list Call -> option error) (wrap : error -> error) :
  neverExits (attempt c answer wrap).
Proof.
  intros h f args. unfold attempt, bind, get, call, modify, returnErr, fail, ret.
  destruct (answer h); discriminate.
Qed.

Lemma neverExits_retry (n : nat) (fn : Init unit) : neverExits fn -> neverExits (retry_OnError n fn).
Proof.
  intros Hfn. induction n as [| n IH]; [apply neverExits_ret |].
  destruct n as [| n]; [exact Hfn |].
  intros h f args. rewrite retry_OnError_next. specialize (Hfn h).
  destruct (fn h) as [[[] | [err | f' args']] h1]; cbn [fst] in *.
  - discriminate.
  - apply IH.
  - exfalso. exact (Hfn f' args' eq_refl).
Qed.

End InitReturnFacts.

Ltac return_step1 :=
  lazymatch goal with
  | |- InitObserve.neverExits (Go.ret _) => apply neverExits_ret
  | |- InitObserve.neverExits (Initializer.returnErr _) => apply neverExits_returnErr
  | |- InitObserve.neverExits Go.get => apply neverExits_get
  | |- InitObserve.neverExits (Initializer.call _) => apply neverExits_call
  | |- InitObserve.neverExits (Initializer.tryInit _ _) => apply neverExits_tryInit
  | |- InitObserve.neverExits (Initializer.attempt _ _ _) => apply neverExits_attempt
  | |- InitObserve.neverExits (Go.bind _ _) => apply neverExits_bind; [| intro]
  | |- InitObserve.neverExits (Go.wrapErr (Initializer.wrapStop _) _) => apply neverExits_wrapErr
  | |- InitObserve.neverExits (Initializer.retry_OnError _ _) => apply neverExits_retry
  | |- InitObserve.neverExits (if ?b then _ else _) => destruct b
  | |- InitObserve.neverExits (match ?x with _ => _ end) => destruct x
  end.

Ltac return_steps := repeat return_step1.

Section InitFunctionFacts.
Import Go brtypes validator Initializer InitDesign InitObserve.
Open Scope Z_scope.
Open Scope list_scope.

Lemma calls_removeDir (P : Call -> Prop) (w : World) (dirname : string) :
  P (RemoveAll (filepath.Join dirname)) -> calls P (removeDir w dirname).
Proof. intros H. unfold removeDir. call_steps. exact H. Qed.

Lemma calls_cleanTempDir (w : World) (e : EtcdInitializer) :
  calls (tempDirCall e) (cleanTempDir w e).
Proof.
  unfold cleanTempDir, tempDirCall.
  destruct (SnapstoreConfig_ e) as [sc |]; [| apply calls_ret].
  call_steps; try apply calls_removeDir; auto.
Qed.

Lemma calls_learner (w : World) (e : EtcdInitializer) :
  calls (fun c => c = RemoveMember \/ learnerCall e c) (restoreInMultiNode w e).
Proof.
  unfold restoreInMultiNode, learnerCall.
  call_steps; try apply calls_removeDir; cbv zeta; auto.
Qed.

Lemma calls_restoreWithEmptySnapstore (w : World) (e : EtcdInitializer) :
  calls (fun c => c = Stat (DataDir (Config_ (RestoreOptions_ e))) \/
                  c = RemoveAll (filepath.Join (DataDir (Config_ (RestoreOptions_ e)))))
        (restoreWithEmptySnapstore w e).
Proof.
  unfold restoreWithEmptySnapstore. cbv zeta.
  call_steps; try apply calls_removeDir; auto.
Qed.

Lemma calls_restoreCorruptData (w : World) (e : EtcdInitializer) :
  calls (fun c => forall n d, c <> AddLearnerWithRetry n d) (restoreCorruptData w e).
Proof.
  assert (Hempty : calls (fun c => forall n d, c <> AddLearnerWithRetry n d)
                         (restoreWithEmptySnapstore w e)).
  { apply (calls_weaken _ _ _) with (2 := calls_restoreWithEmptySnapstore w e).
    intros c [-> | ->] n d; discriminate. }
  unfold restoreCorruptData, removeContents. cbv zeta.
  call_steps; try apply calls_removeDir; try exact Hempty; try discriminate.
Qed.

Lemma neverExits_removeDir (w : World) (dirname : string) : neverExits (removeDir w dirname).
Proof. unfold removeDir. return_steps. Qed.

Lemma neverExits_cleanTempDir (w : World) (e : EtcdInitializer) : neverExits (cleanTempDir w e).
Proof. unfold cleanTempDir. return_steps; apply neverExits_removeDir. Qed.

Lemma neverExits_restoreInMultiNode (w : World) (e : EtcdInitializer) :
  neverExits (restoreInMultiNode w e).
Proof. unfold restoreInMultiNode. cbv zeta. return_steps; apply neverExits_removeDir. Qed.

Lemma neverExits_restoreWithEmptySnapstore (w : World) (e : EtcdInitializer) :
  neverExits (restoreWithEmptySnapstore w e).
Proof. unfold restoreWithEmptySnapstore. cbv zeta. return_steps; apply neverExits_removeDir. Qed.

Lemma neverExits_restoreCorruptData (w : World) (e : EtcdInitializer) :
  neverExits (restoreCorruptData w e).
Proof.
  unfold restoreCorruptData, removeContents. cbv zeta.
  return_steps; try apply neverExits_removeDir; apply neverExits_restoreWithEmptySnapstore.
Qed.

End InitFunctionFacts.

(** ** What [Initialize] does to the data directory *)

Section InitializeFacts.
Import Go brtypes validator Initializer InitDesign InitObserve.
Open Scope Z_scope.
Open Scope list_scope.

(** The scale-up check calls nothing but [AddLearnerWithRetry]. *)
Lemma calls_scaleUpCheck (w : World) (e : EtcdInitializer) :
  calls (fun c => c = AddLearnerWithRetry addLearnerAttempts (DataDir (Config_ (RestoreOptions_ e))))
        (scaleUpCheck w e).
Proof. unfold scaleUpCheck. call_steps; reflexivity. Qed.

(** The value of [memberHeartbeatPresent] after the scale-up check. *)
Lemma scaleUpCheck_heartbeat (w : World) (e : EtcdInitializer) (h : list Call) (b : bool) :
  fst (scaleUpCheck w e h) = Ok (Some b) -> b = IsMultiNode w && WasMemberInCluster w.
Proof.
  unfold scaleUpCheck, bind, call, modify, ret, fail.
  destruct (IsMultiNode w); [| intros [= <-]; reflexivity].
  destruct (GetKubernetesClientSetOrError w); [discriminate |].
  destruct (WasMemberInCluster w); [intros [= <-]; reflexivity |].
  destruct (IsClusterScaledUp w) as [[] | err]; [| intros [= <-]; reflexivity ..].
  destruct (AddLearnerWithRetryResult w); discriminate.
Qed.


(** X24.  [Initialize] adds a learner exactly when it detects a scale-up
    of the cluster; it then calls nothing else (the data directory is not
    validated and the temporary directory is not made) and returns [nil]
    if the learner was added, and ends the process if not. *)
Theorem learner_is_added_on_scale_up_only (w : World) (e : EtcdInitializer) (mode : Mode)
        (failBelowRevision : Z) (h : list Call) :
  let run := Initialize w e mode failBelowRevision h in
  (scaleUpDetected w ->
   snd run = h ++ [AddLearnerWithRetry addLearnerAttempts (DataDir (Config_ (RestoreOptions_ e)))] /\
   fst run = match AddLearnerWithRetryResult w with
             | None => Ok tt
             | Some err => Err (Exit "unable to add a learner in a cluster: %v" [ArgErr err])
             end) /\
  (~ scaleUpDetected w ->
   exists new, snd run = h ++ new /\
               forall c, In c new -> forall n d, c <> AddLearnerWithRetry n d).
Proof.
  cbv zeta. split.
  - intros (Hm & Hk & Hb & Hs).
    unfold Initialize, scaleUpCheck, bind, call, modify, ret, fail.
    rewrite Hm, Hk, Hb, Hs.
    destruct (AddLearnerWithRetryResult w); split; reflexivity.
  - intros Hno. apply calls_In. unfold Initialize.
    apply calls_bind.
    + unfold scaleUpCheck.
      destruct (IsMultiNode w) eqn:Hm; [| apply calls_ret].
      destruct (GetKubernetesClientSetOrError w) eqn:Hk; [apply calls_fail |].
      destruct (WasMemberInCluster w) eqn:Hb; [apply calls_ret |].
      destruct (IsClusterScaledUp w) as [[] | err] eqn:Hs; [| apply calls_ret ..].
      exfalso. apply Hno. repeat split; assumption.
    + intros [hb |]; [| apply calls_ret].
      destruct (Validate w mode failBelowRevision) as [status err].
      call_steps.
      * apply (calls_weaken _ _ _) with (2 := calls_learner w e).
        unfold learnerCall. intros c [-> | [-> | [-> | ->]]] n d; discriminate.
      * apply calls_restoreCorruptData.
      * apply (calls_weaken _ _ _) with (2 := calls_cleanTempDir w e).
        unfold tempDirCall. intros c Hc n d. destruct (SnapstoreConfig_ e); [| contradiction].
        destruct Hc as [-> | ->]; discriminate.
Qed.

(** X25.  [Initialize] ends the process only in the scale-up check of a
    multi-node cluster: when the Kubernetes client set cannot be made,
    before any call, or when the learner cannot be added.  The validation
    and the restoration never end the process: they return. *)
Theorem process_exits_only_in_scale_up_check (w : World) (e : EtcdInitializer) (mode : Mode)
        (failBelowRevision : Z) (h : list Call) (format : string) (args : list arg) :
  let run := Initialize w e mode failBelowRevision h in
  fst run = Err (Exit format args) ->
  IsMultiNode w = true /\
  ((exists err, GetKubernetesClientSetOrError w = Some err /\
                format = "failed to create clientset, %v"%string /\ args = [ArgErr err] /\
                snd run = h) \/
   (scaleUpDetected w /\
    exists err, AddLearnerWithRetryResult w = Some err /\
                format = "unable to add a learner in a cluster: %v"%string /\
                args = [ArgErr err] /\
                snd run = h ++ [AddLearnerWithRetry addLearnerAttempts
                                  (DataDir (Config_ (RestoreOptions_ e)))])).
Proof.
  cbv zeta. unfold Initialize.
  match goal with |- fst (bind _ ?k _) = _ -> _ => set (rest := k) end.
  assert (Hrest : forall hb h0, fst (rest (Some hb) h0) <> Err (Exit format args)).
  { intros hb h0. revert h0 format args. change (neverExits (rest (Some hb))).
    subst rest. cbv beta iota.
    destruct (Validate w mode failBelowRevision) as [status err].
    return_steps.
    - apply neverExits_restoreInMultiNode.
    - apply neverExits_restoreCorruptData.
    - apply neverExits_cleanTempDir. }
  unfold scaleUpCheck, bind, call, modify, ret, fail.
  destruct (IsMultiNode w) eqn:Hm; [| intros H; exfalso; exact (Hrest _ _ H)].
  destruct (GetKubernetesClientSetOrError w) as [errK |] eqn:Hk.
  { intros [= <- <-]. split; [reflexivity |]. left. exists errK. auto. }
  destruct (WasMemberInCluster w) eqn:Hb; [intros H; exfalso; exact (Hrest _ _ H) |].
  destruct (IsClusterScaledUp w) as [[] | errS] eqn:Hs;
    [| intros H; exfalso; exact (Hrest _ _ H) ..].
  destruct (AddLearnerWithRetryResult w) as [errL |] eqn:Hl.
  - intros [= <- <-]. split; [reflexivity |]. right.
    split; [repeat split; assumption |]. exists errL. auto.
  - subst rest. cbn. discriminate.
Qed.

(** X26.  A member of a cluster is never restored from the snap store:
    when the validator answers [DataDirStatusInvalidInMultiNode], or the
    cluster has more than one member and the data directory is corrupt
    or the heartbeat of the member is present, no call of [Initialize]
    hands snapshots to the restorer or renames a directory. *)
Theorem cluster_member_is_not_restored_from_store (w : World) (e : EtcdInitializer)
        (mode : Mode) (failBelowRevision : Z) (h : list Call) :
  restoresMember e (fst (Validate w mode failBelowRevision))
                 (IsMultiNode w && WasMemberInCluster w) ->
  let run := Initialize w e mode failBelowRevision h in
  exists new, snd run = h ++ new /\ forall c, In c new -> ~ restoreCall c.
Proof.
  intros Hcase. cbv zeta. apply calls_In. unfold Initialize.
  apply calls_bind_ok.
  { apply (calls_weaken _ _ _) with (2 := calls_scaleUpCheck w e). intros c ->. simpl. tauto. }
  intros [hb |] (h0 & Hh0); [| apply calls_ret].
  apply scaleUpCheck_heartbeat in Hh0. rewrite <- Hh0 in Hcase. clear Hh0.
  destruct (Validate w mode failBelowRevision) as [status err]. cbn [fst] in Hcase.
  assert (Hclean : calls (fun c => ~ restoreCall c) (cleanTempDir w e)).
  { apply (calls_weaken _ _ _) with (2 := calls_cleanTempDir w e).
    unfold tempDirCall. intros c Hc. destruct (SnapstoreConfig_ e); [| contradiction].
    destruct Hc as [-> | ->]; simpl; tauto. }
  assert (Hmember : calls (fun c => ~ restoreCall c) (restoreInMultiNode w e)).
  { apply (calls_weaken _ _ _) with (2 := calls_learner w e).
    unfold learnerCall. intros c [-> | [-> | [-> | ->]]]; simpl; tauto. }
  assert (Hsize : status = DataDirStatusInvalidInMultiNode \/
                  (1 <? ValidatorOriginalClusterSize e) = true /\
                  (status = DataDirectoryCorrupt \/ hb = true)).
  { destruct Hcase as [Hs | [[Hn Hs] | [Hn Hs]]]; [left; exact Hs | right .. ].
    all: split; [apply Z.ltb_lt; exact Hn | auto]. }
  clear Hcase.
  destruct status; cbn [DataDirStatus_eqb negb orb andb]; try apply calls_fail.
  all: try (apply calls_bind; [apply calls_ret | intros _; exact Hclean]).
  all: apply calls_bind; [| intros _; exact Hclean].
  all: destruct Hsize as [Hs | [Hn [Hs | Hb]]]; try discriminate.
  all: try subst hb; rewrite ?Hn; cbn [andb orb]; rewrite ?Bool.orb_true_r; exact Hmember.
Qed.

(** X27.  [restoreCorruptData] returns [false] without an error only
    when the snap store is empty and the data directory does not exist:
    it has then asked for the data directory and has removed nothing. *)
Theorem nothing_restored_means_nothing_removed (w : World) (e : EtcdInitializer)
        (h : list Call) :
  let dataDir := DataDir (Config_ (RestoreOptions_ e)) in
  let run := restoreCorruptData w e h in
  fst run = Ok false ->
  snapstore_empty w e /\
  snd run = h ++ [Stat dataDir] /\
  exists err, os_Stat w h dataDir = Some err /\ IsNotExist err = true.
Proof.
  cbv zeta.
  assert (Hempty : fst (restoreWithEmptySnapstore w e h) = Ok false ->
                   snd (restoreWithEmptySnapstore w e h)
                   = h ++ [Stat (DataDir (Config_ (RestoreOptions_ e)))] /\
                   exists err, os_Stat w h (DataDir (Config_ (RestoreOptions_ e))) = Some err /\
                               IsNotExist err = true).
  { unfold restoreWithEmptySnapstore, removeDir, attempt, call, returnErr.
    cbv beta iota zeta delta [bind get modify ret fail].
    destruct (os_Stat w h (DataDir (Config_ (RestoreOptions_ e)))) as [err |].
    - destruct (IsNotExist err) eqn:Hne; [| discriminate]. intros _. eauto.
    - destruct (os_RemoveAll w _ _); discriminate. }
  unfold restoreCorruptData, snapstore_empty.
  destruct (SnapstoreConfig_ e) as [sc |]; [| intros H; split; [exact I | exact (Hempty H)]].
  destruct (Nat.eqb (String.length (Provider sc)) 0) eqn:Hlen.
  { intros H. split; [| exact (Hempty H)]. left.
    destruct (Provider sc); [reflexivity | discriminate]. }
  unfold tryInit, returnErr. cbv beta iota zeta delta [bind ret fail].
  destruct (Initializer.GetSnapstore w) as [st | err]; [| discriminate].
  destruct (GetLatestFullSnapshotAndDeltaSnapList w) as [[baseSnap deltaSnapList] | err];
    [| discriminate].
  destruct baseSnap as [b |]; [| destruct deltaSnapList as [| d ds]].
  2:{ intros H. split; [| exact (Hempty H)]. right. split; [exists st |]; reflexivity. }
  all: unfold removeContents, removeDir, attempt, call, returnErr, wrapErr, wrapStop.
  all: cbv beta iota zeta delta [bind get modify ret fail].
  all: destruct (os_RemoveAll w h _); [discriminate |].
  all: destruct (NewRestorer w); [discriminate |].
  all: destruct (RestoreAndStopEtcdResult w _); [discriminate |].
  all: destruct (os_RemoveAll w _ _); [discriminate |].
  all: destruct (os_Rename w _ _ _); discriminate.
Qed.

End InitializeFacts.

(** ** The restoration of a member of a cluster *)

Section MemberRestoreFacts.
Import Go brtypes validator Initializer InitDesign InitObserve.
Open Scope Z_scope.
Open Scope list_scope.

Lemma repeat_snoc {A} (a : A) (n : nat) (l : list A) :
  [a] ++ repeat a n ++ l = repeat a (S n) ++ l.
Proof. reflexivity. Qed.

Lemma removeDir_calls (w : World) (dirname : string) (h : list Call) :
  snd (removeDir w dirname h) = h ++ [RemoveAll (filepath.Join dirname)].
Proof.
  unfold removeDir, attempt, call, returnErr. cbv beta iota zeta delta [bind get modify ret fail].
  destruct (os_RemoveAll w h _); reflexivity.
Qed.

(** The removal of the member is tried until it works, [S n] times at
    most. *)
Lemma retry_RemoveMember (w : World) (n : nat) (h : list Call) :
  let run := retry_OnError (S n) (attempt RemoveMember (RemoveMemberResult w) (fun err => err)) h in
  exists k,
    (k <= n)%nat /\
    snd run = h ++ repeat RemoveMember (S k) /\
    (forall j, (j < k)%nat -> RemoveMemberResult w (h ++ repeat RemoveMember j) <> None) /\
    match RemoveMemberResult w (h ++ repeat RemoveMember k) with
    | None => fst run = Ok tt
    | Some err => fst run = Err (ReturnErr err) /\ k = n
    end.
Proof.
  cbv zeta. revert h. induction n as [| n IH]; intros h.
  - exists 0%nat. cbn [repeat retry_OnError]. rewrite app_nil_r.
    unfold attempt, call, returnErr. cbv beta iota zeta delta [bind get modify ret fail].
    split; [lia |]. split; [destruct (RemoveMemberResult w h); reflexivity |].
    split; [intros j Hj; lia |].
    destruct (RemoveMemberResult w h); auto.
  - rewrite retry_OnError_next.
    assert (Hstep : attempt RemoveMember (RemoveMemberResult w) (fun err => err) h
                    = (match RemoveMemberResult w h with
                       | Some err => Err (ReturnErr err)
                       | None => Ok tt
                       end, h ++ [RemoveMember])).
    { unfold attempt, call, returnErr. cbv beta iota zeta delta [bind get modify ret fail].
      destruct (RemoveMemberResult w h); reflexivity. }
    rewrite Hstep. clear Hstep.
    destruct (RemoveMemberResult w h) as [err |] eqn:Hfirst.
    + destruct (IH (h ++ [RemoveMember])) as (k & Hk & Hcalls & Hfailed & Hlast).
      exists (S k). rewrite <- app_assoc in Hcalls, Hlast.
      split; [lia |]. split; [exact Hcalls |]. split.
      * intros [| j] Hj; [cbn [repeat]; rewrite app_nil_r; congruence |].
        specialize (Hfailed j ltac:(lia)). rewrite <- app_assoc in Hfailed. exact Hfailed.
      * cbn [repeat]. cbn [app] in Hlast.
        destruct (RemoveMemberResult w (h ++ RemoveMember :: repeat RemoveMember k));
          [destruct Hlast as [Hr ->]; auto | exact Hlast].
    + exists 0%nat. cbn [repeat]. rewrite app_nil_r, Hfirst.
      split; [lia |]. split; [reflexivity |]. split; [intros j Hj; lia | reflexivity].
Qed.

(** X28.  [restoreInMultiNode] first removes the member from the
    cluster, trying again while the removal fails, [DefaultBackoffSteps]
    times at most.  If no attempt works it calls nothing else (the data
    directory is kept) and returns the last error, wrapped.  If one works,
    the next call removes the data directory, and the calls after it only
    look for the data directory, remove it, and add the member as a
    learner. *)
Theorem member_is_removed_before_data_dir (w : World) (e : EtcdInitializer) (h : list Call) :
  let dataDir := DataDir (Config_ (RestoreOptions_ e)) in
  let run := restoreInMultiNode w e h in
  exists k rest,
    (S k <= DefaultBackoffSteps)%nat /\
    snd run = h ++ repeat RemoveMember (S k) ++ rest /\
    Forall (learnerCall e) rest /\
    (forall j, (j < k)%nat -> RemoveMemberResult w (h ++ repeat RemoveMember j) <> None) /\
    match RemoveMemberResult w (h ++ repeat RemoveMember k) with
    | None => exists later, rest = RemoveAll (filepath.Join dataDir) :: later
    | Some err =>
        rest = [] /\ S k = DefaultBackoffSteps /\
        fst run = Err (ReturnErr (Errorf "unable to remove the member %v" [ArgErr err]))
    end.
Proof.
  cbv zeta. unfold restoreInMultiNode.
  match goal with |- context [bind (wrapErr _ ?m) ?k] => set (after := k) end.
  assert (Hafter : calls (learnerCall e) (after tt)).
  { subst after. cbv beta. unfold learnerCall.
    call_steps; try apply calls_removeDir; cbv zeta; auto. }
  assert (Hfirst : forall h0, exists later,
             snd (after tt h0)
             = h0 ++ RemoveAll (filepath.Join (DataDir (Config_ (RestoreOptions_ e)))) :: later).
  { intros h0. subst after. cbv beta.
    match goal with |- context [bind _ (fun _ => ?l)] => set (learner := l) end.
    assert (Hl : calls (fun _ => True) learner) by (subst learner; call_steps; exact I).
    pose proof (removeDir_calls w (DataDir (Config_ (RestoreOptions_ e))) h0) as Hrm.
    unfold bind, wrapErr.
    destruct (removeDir w _ h0) as [[[] | st] h1]; cbn [snd] in *; subst h1.
    - destruct (Hl (h0 ++ [RemoveAll (filepath.Join (DataDir (Config_ (RestoreOptions_ e))))]))
        as (new & Hnew & _).
      exists new. rewrite Hnew, <- app_assoc. reflexivity.
    - exists []. reflexivity. }
  destruct (retry_RemoveMember w 3 h) as (k & Hk & Hcalls & Hfailed & Hlast).
  cbv zeta in Hcalls, Hlast. change (S 3) with DefaultBackoffSteps in Hcalls, Hlast.
  unfold bind, wrapErr.
  destruct (retry_OnError DefaultBackoffSteps _ h) as [[[] | st] h1]; cbn [fst snd] in *;
    subst h1.
  - destruct (Hafter (h ++ repeat RemoveMember (S k))) as (rest & Hrest & Hall).
    destruct (Hfirst (h ++ repeat RemoveMember (S k))) as (later & Hlater).
    exists k, rest. split; [unfold DefaultBackoffSteps; lia |].
    split; [rewrite Hrest, <- app_assoc; reflexivity |].
    split; [exact Hall |]. split; [exact Hfailed |].
    destruct (RemoveMemberResult w (h ++ repeat RemoveMember k));
      [destruct Hlast; discriminate |].
    exists later. rewrite Hlater in Hrest. apply app_inv_head in Hrest. congruence.
  - exists k, []. split; [unfold DefaultBackoffSteps; lia |].
    rewrite app_nil_r. split; [reflexivity |]. split; [constructor |].
    split; [exact Hfailed |].
    destruct (RemoveMemberResult w (h ++ repeat RemoveMember k)) as [err |];
      [| discriminate].
    destruct Hlast as [[= ->] ->]. auto.
Qed.

End MemberRestoreFacts.

(** * Sample runs *)

(** The buffer of three puts is below the limit, and still is after a
    request for a delta snapshot. *)
Lemma buffer_stays_below_limit_sample :
  Observe.bounded Sample.ssr_buffered /\
  Observe.bounded
    (snd (fst (Snapshotter.snapshotEventHandler
                 [(Snapshotter.DeltaSnapshotReq, Sample.world)] Sample.ssr_buffered))).
Proof.
  assert (Hb : Observe.bounded Sample.ssr_buffered) by (right; vm_compute; reflexivity).
  split; [exact Hb |].
  destruct (buffer_stays_below_limit
              [(Snapshotter.DeltaSnapshotReq, Sample.world)] Sample.ssr_buffered Hb) as [_ H].
  apply H. left. vm_compute. reflexivity.
Defined.

(** Nothing is buffered: the delta snapshot is skipped. *)
Lemma empty_buffer_delta_sample :
  Snapshotter.events Sample.ssr = [] /\
  fst (Snapshotter.TakeDeltaSnapshot Sample.world Sample.ssr) = Go.Ok None.
Proof.
  split; [reflexivity |].
  destruct (empty_buffer_delta_is_skipped Sample.world Sample.ssr [] eq_refl) as (H & _).
  rewrite H. reflexivity.
Defined.

(** A full snapshot of the sample world is the previous snapshot
    afterwards. *)
Lemma full_snapshot_bookkeeping_sample :
  let snap := snapstore.NewSnapshot 2000 brtypes.SnapshotKindFull 0 8 "" false in
  fst (Snapshotter.takeFullSnapshot false Sample.world Sample.ssr) = Go.Ok snap /\
  Snapshotter.PrevSnapshot (snd (Snapshotter.takeFullSnapshot false Sample.world Sample.ssr))
  = snap.
Proof.
  cbv zeta.
  assert (H : fst (Snapshotter.takeFullSnapshot false Sample.world Sample.ssr)
              = Go.Ok (snapstore.NewSnapshot 2000 brtypes.SnapshotKindFull 0 8 "" false))
    by (vm_compute; reflexivity).
  split; [exact H |].
  exact (proj1 (full_snapshot_bookkeeping false Sample.world Sample.ssr _ H)).
Defined.


(** The schedule has no next activation: the full snapshot is saved and
    the loop returns an error. *)
Lemma saved_full_snapshot_reported_failed_sample :
  let snap := snapstore.NewSnapshot 2000 brtypes.SnapshotKindFull 0 8 "" false in
  let run := Snapshotter.snapshotEventHandler
               [(Snapshotter.FullSnapshotReq false, Sample.world)] Sample2.ssr_no_next in
  Go.IsZero (Snapshotter.schedule Sample2.ssr_no_next (Snapshotter.now Sample.world)) = true /\
  fst (fst run) = Snapshotter.Returned (Some (Go.Errorf "error in full snapshot schedule" [])) /\
  Snapshotter.PrevSnapshot (snd (fst run)) = snap.
Proof.
  cbv zeta. split; [reflexivity |].
  assert (H : Snapshotter.takeFullSnapshot false Sample.world Sample2.ssr_no_next
              = (Go.Ok (snapstore.NewSnapshot 2000 brtypes.SnapshotKindFull 0 8 "" false),
                 snd (Snapshotter.takeFullSnapshot false Sample.world Sample2.ssr_no_next)))
    by (vm_compute; reflexivity).
  destruct (saved_full_snapshot_reported_failed false Sample.world Sample2.ssr_no_next _ _ []
              H eq_refl) as (_ & _ & Hloop & _).
  rewrite Hloop. split; [reflexivity |]. vm_compute. reflexivity.
Defined.

(** The three puts open the JSON array of an empty buffer. *)
Lemma watch_events_extend_json_array_sample :
  Snapshotter.events
    (snd (Snapshotter.handleDeltaWatchEvents Sample.world Sample2.response Sample.ssr))
  = [x5b; x7b; x61; x7d; x2c; x7b; x62; x7d; x2c; x7b; x63; x7d].
Proof.
  assert (Hjs : Forall2 (fun ev j => Snapshotter.Marshal Sample.world
                                       (Snapshotter.newEvent Sample.world ev) = Go.Val j)
                        (Snapshotter.Events Sample2.response) Sample2.rendered)
    by (repeat constructor).
  assert (Hlimit : Z.of_nat (List.length (Observe.appended (Snapshotter.events Sample.ssr)
                                                           Sample2.rendered))
                   < Observe.memoryLimit Sample.ssr) by (vm_compute; reflexivity).
  destruct (watch_events_extend_json_array Sample.world Sample2.response Sample.ssr
              Sample2.rendered eq_refl Hjs Hlimit) as (_ & Hevents & _).
  rewrite Hevents. reflexivity.
Defined.

(** With a memory limit of eight bytes the three puts are saved at once. *)
Lemma memory_limit_flushes_sample :
  Observe.memoryLimit Sample2.ssr_small_limit = 8 /\
  Snapshotter.events
    (snd (Snapshotter.handleDeltaWatchEvents Sample.world Sample2.response
            Sample2.ssr_small_limit)) = [].
Proof.
  split; [reflexivity |].
  assert (Hjs : Forall2 (fun ev j => Snapshotter.Marshal Sample.world
                                       (Snapshotter.newEvent Sample.world ev) = Go.Val j)
                        (Snapshotter.Events Sample2.response) Sample2.rendered)
    by (repeat constructor).
  assert (Hlimit : Observe.memoryLimit Sample2.ssr_small_limit
                   <= Z.of_nat (List.length (Observe.appended
                                               (Snapshotter.events Sample2.ssr_small_limit)
                                               Sample2.rendered)))
    by (vm_compute; discriminate).
  exact (proj1 (memory_limit_flushes_whole_buffer Sample.world Sample2.response
                  Sample2.ssr_small_limit Sample2.rendered
                  {| Snapshotter.Key := [x63]; Snapshotter.Value := [x33];
                     Snapshotter.ModRevision := 8 |}
                  eq_refl Hjs eq_refl Hlimit)).
Defined.

(** A schedule with tabs and spaces around its five fields. *)
Lemma max_time_window_of_five_fields_sample :
  let spec := ("  0 */12" ++ String (ascii_of_nat 9) " *  * * ")%string in
  Strings.Fields spec = ["0"; "*/12"; "*"; "*"; "*"]%string /\
  Snapshotter.GetFullSnapshotMaxTimeWindow Design.ParseFloat_digits spec = 12%float.
Proof.
  cbv zeta.
  destruct (max_time_window_of_five_fields Design.ParseFloat_digits
              "  " " " (String (ascii_of_nat 9) " ") "  " " " " " "0" "*/12" "*" "*" "*"
              ltac:(split; [discriminate | reflexivity])
              ltac:(split; [discriminate | reflexivity])
              ltac:(split; [discriminate | reflexivity])
              ltac:(split; [discriminate | reflexivity])
              ltac:(split; [discriminate | reflexivity])
              eq_refl
              ltac:(split; [discriminate | reflexivity])
              ltac:(split; [discriminate | reflexivity])
              ltac:(split; [discriminate | reflexivity])
              ltac:(split; [discriminate | reflexivity])
              eq_refl) as [Hfields Hwindow].
  split; [exact Hfields |]. etransitivity; [exact Hwindow | vm_compute; reflexivity].
Defined.

(** The store holds a Full snapshot and two deltas: the last delta is the
    previous snapshot. *)
Lemma new_snapshotter_previous_snapshot_sample :
  exists s,
    Lifecycle.NewSnapshotter (Sample2.env (Some Sample.full5, [Sample2.delta6; Sample2.delta8]))
                             3000 (Snapshotter.config Sample.ssr) 0%nat
                             (Snapshotter.compressionConfig Sample.ssr)
                             (Snapshotter.HealthConfig Sample.ssr) = Go.Val s /\
    Snapshotter.PrevSnapshot s = Sample2.delta8.
Proof.
  eexists. split; [reflexivity |].
  destruct (new_snapshotter_previous_snapshot
              (Sample2.env (Some Sample.full5, [Sample2.delta6; Sample2.delta8]))
              3000 (Snapshotter.config Sample.ssr) 0%nat
              (Snapshotter.compressionConfig Sample.ssr)
              (Snapshotter.HealthConfig Sample.ssr) _ eq_refl)
    as (fullSnap & deltaSnapList & Hlatest & _ & _ & _ & Hprev & _).
  injection Hlatest as <- <-. exact Hprev.
Defined.

(** A store without snapshots: the new snapshotter turns a trigger down,
    and a full snapshot is required at startup. *)
Lemma new_snapshotter_is_inactive_sample :
  exists s,
    Lifecycle.NewSnapshotter (Sample2.env (None, [])) 3000 (Snapshotter.config Sample.ssr) 0%nat
                             (Snapshotter.compressionConfig Sample.ssr)
                             (Snapshotter.HealthConfig Sample.ssr) = Go.Val s /\
    Snapshotter.TriggerFullSnapshot s false
    = Snapshotter.TReturn (None, Some (Go.Errorf "snapshotter is not active" [])).
Proof.
  eexists. split; [reflexivity |].
  exact (proj1 (new_snapshotter_is_inactive (fun next _ => Go.UTC next)
                  (Sample2.env (None, [])) 3000 (Snapshotter.config Sample.ssr) 0%nat
                  (Snapshotter.compressionConfig Sample.ssr)
                  (Snapshotter.HealthConfig Sample.ssr) _ false 24%float
                  {| Go.readings := fun _ => 3000; Go.ticks := 0 |} eq_refl)).
Defined.

(** The three puts take the snapshotter to the latest revision of etcd. *)
Lemma collect_returns_when_caught_up_sample :
  let run := Lifecycle.CollectEventsSincePrevSnapshot
               Sample.world [(Lifecycle.Response (Some Sample2.response), Sample.world)]
               Sample2.ssr_unwatched in
  fst run = Lifecycle.CollectReturns false None /\
  Snapshotter.watchCh (snd run) = Some 6.
Proof.
  cbv zeta.
  assert (H : Lifecycle.CollectEventsSincePrevSnapshot
                Sample.world [(Lifecycle.Response (Some Sample2.response), Sample.world)]
                Sample2.ssr_unwatched
              = (Lifecycle.CollectReturns false None,
                 snd (Lifecycle.CollectEventsSincePrevSnapshot
                        Sample.world [(Lifecycle.Response (Some Sample2.response), Sample.world)]
                        Sample2.ssr_unwatched)))
    by (vm_compute; reflexivity).
  split; [rewrite H; reflexivity |].
  exact (proj1 (collect_returns_when_caught_up _ _ _ _ H)).
Defined.

(** A response without events while the snapshotter catches up. *)
Lemma collect_panics_on_empty_response_sample :
  Snapshotter.Events Sample2.empty_response = [] /\
  fst (Lifecycle.CollectEventsSincePrevSnapshot
         Sample.world [(Lifecycle.Response (Some Sample2.empty_response), Sample.world)]
         Sample2.ssr_unwatched) = Lifecycle.CollectPanics.
Proof.
  split; [reflexivity |].
  apply (collect_panics_on_empty_response Sample.world Sample.world Sample2.empty_response []
           Sample2.ssr_unwatched 8); try reflexivity.
  simpl. discriminate.
Defined.

(** The KV client cannot be made while the lease renewal is enabled:
    [Run] does not return. *)
Lemma run_blocks_when_startup_fails_sample :
  Snapshotter.HealthConfig Sample2.ssr_leases
  = {| brtypes.SnapshotLeaseRenewalEnabled := true |} /\
  fst (Lifecycle.Run (20 * Go.Second) true Sample2.world_no_kv Sample.world [] [] false
                     Sample2.ssr_leases) = Lifecycle.RunBlocks.
Proof.
  split; [reflexivity |].
  apply (run_blocks_when_startup_fails (20 * Go.Second) true Sample2.world_no_kv Sample.world
           [] [] Sample2.ssr_leases eq_refl eq_refl).
  right. right. left. eexists. vm_compute. reflexivity.
Defined.


(** The Kubernetes client set cannot be made: the process ends before a
    call is made. *)
Lemma process_exits_sample :
  let w := SampleInit2.cluster_world (Some SampleInit2.no_cluster_config) (Go.Val false)
             validator.DataDirectoryValid 0 in
  fst (Initializer.Initialize w SampleInit2.member_of_three validator.Full 0 [])
  = Go.Err (Initializer.Exit "failed to create clientset, %v"
                             [Go.ArgErr SampleInit2.no_cluster_config]) /\
  Initializer.IsMultiNode w = true.
Proof.
  cbv zeta. split; [reflexivity |].
  exact (proj1 (process_exits_only_in_scale_up_check
                  (SampleInit2.cluster_world (Some SampleInit2.no_cluster_config) (Go.Val false)
                     validator.DataDirectoryValid 0)
                  SampleInit2.member_of_three validator.Full 0 [] _ _ eq_refl)).
Defined.

(** The corrupt member of a cluster of three: the member is removed at
    the third attempt, and the restorer is not called. *)
Lemma cluster_member_sample :
  let w := SampleInit2.cluster_world None (Go.Val false) validator.DataDirectoryCorrupt 2 in
  let run := Initializer.Initialize w SampleInit2.member_of_three validator.Full 0 [] in
  fst run = Go.Ok tt /\
  forall c, In c (snd run) -> forall ro, c <> Initializer.RestoreAndStopEtcd ro.
Proof.
  cbv zeta. split; [vm_compute; reflexivity |].
  assert (Hcase : InitObserve.restoresMember SampleInit2.member_of_three
                    (fst (Initializer.Validate
                            (SampleInit2.cluster_world None (Go.Val false)
                               validator.DataDirectoryCorrupt 2) validator.Full 0))
                    (Initializer.IsMultiNode
                       (SampleInit2.cluster_world None (Go.Val false)
                          validator.DataDirectoryCorrupt 2)
                     && Initializer.WasMemberInCluster
                          (SampleInit2.cluster_world None (Go.Val false)
                             validator.DataDirectoryCorrupt 2)))
    by (right; left; split; [simpl; lia | reflexivity]).
  destruct (cluster_member_is_not_restored_from_store _ SampleInit2.member_of_three
              validator.Full 0 [] Hcase) as (new & Hnew & Hcalls).
  intros c Hc ro ->. rewrite Hnew in Hc. exact (Hcalls _ Hc I).
Defined.

(** No snap store and no data directory: nothing is restored and nothing
    is removed. *)
Lemma nothing_restored_sample :
  let w := SampleInit2.cluster_world None (Go.Val false) validator.DataDirectoryCorrupt 0 in
  let run := Initializer.restoreCorruptData w SampleInit2.without_store [] in
  fst run = Go.Ok false /\
  snd run = [Initializer.Stat "/var/etcd/data/new.etcd"].
Proof.
  cbv zeta. split; [reflexivity |].
  exact (proj1 (proj2 (nothing_restored_means_nothing_removed
                         (SampleInit2.cluster_world None (Go.Val false)
                            validator.DataDirectoryCorrupt 0)
                         SampleInit2.without_store [] eq_refl))).
Defined.
